(** * Media-location masking and gated cross-attention (inference/src/helpers.py)

    A shallow embedding of [MaskedCrossAttention] and
    [GatedCrossAttentionBlock].  Python integers are [Z], exceptions are
    values of an error monad, the boolean mask [few_shot_mask] is a nested
    list updated in place by slice assignment, and the entries of
    floating-point tensors are finite values, read as real numbers, or an
    infinity or NaN; their linear algebra (layer norm, linear maps, einsum,
    softmax) is supplied by the tensor library. *)

From Stdlib Require Import ZArith Reals Lia FunctionalExtensionality.
From stdpp Require Import base list list_numbers.

Set Default Proof Using "Type".

(** ** Python exceptions and the error monad *)

Inductive exn : Set :=
| AssertionError
| AttributeError
| IndexError
| NameError
| ZeroDivisionError.

Inductive result (A : Type) : Type :=
| Ok (a : A)
| Raise (e : exn).
Arguments Ok {A} a.
Arguments Raise {A} e.

#[global] Instance result_ret : MRet result := @Ok.
#[global] Instance result_bind : MBind result := fun A B f m =>
  match m with
  | Ok a => f a
  | Raise e => Raise e
  end.
#[global] Instance result_fmap : FMap result := fun A B f m =>
  match m with
  | Ok a => Ok (f a)
  | Raise e => Raise e
  end.

Definition raises {A} (m : result A) : Prop := ∃ e, m = Raise e.

(** [assert cond] *)
Definition py_assert (cond : bool) : result unit :=
  if cond then Ok tt else Raise AssertionError.

(** [a % b] on Python integers: the sign follows the divisor, and a zero
    divisor raises. *)
Definition py_mod (a b : Z) : result Z :=
  if (b =? 0)%Z then Raise ZeroDivisionError else Ok (a mod b)%Z.

(** [range(lo, hi)] *)
Definition py_range (lo hi : Z) : list Z := seqZ lo (hi - lo).

(** A method runs against the attribute store of its module: it returns
    the store as it is left and either a value or an exception. *)
Definition method (Self A : Type) : Type := Self → Self * result A.

#[global] Instance method_ret Self : MRet (method Self) :=
  fun A a self => (self, Ok a).
#[global] Instance method_bind Self : MBind (method Self) := fun A B f m self =>
  match m self with
  | (self', Ok a) => f a self'
  | (self', Raise e) => (self', Raise e)
  end.

(** [self.field] *)
Definition getattr {Self A} (field : Self → A) : method Self A :=
  fun self => (self, Ok (field self)).

(** [self], to hand the module's parameters to the tensor library. *)
Definition getself {Self} : method Self Self := getattr (fun self => self).

(** A computation that does not touch [self]. *)
Definition lift {Self A} (r : result A) : method Self A :=
  fun self => (self, r).

(** [for i in xs: s = body(i, s)], stopping at the first exception. *)
Fixpoint for_each {M : Type → Type} `{!MRet M, !MBind M} {I S : Type}
  (xs : list I) (body : I → S → M S) (s : S) : M S :=
  match xs with
  | [] => mret s
  | i :: xs' => s' ← body i s; for_each xs' body s'
  end.

(** [t[i]] on a one-dimensional tensor: negative indices count from the
    end, anything outside raises [IndexError]. *)
Definition getitem (t : list Z) (i : Z) : result Z :=
  let n := Z.of_nat (length t) in
  let j := if (i <? 0)%Z then (i + n)%Z else i in
  if (0 <=? j)%Z && (j <? n)%Z
  then match t !! Z.to_nat j with
       | Some v => Ok v
       | None => Raise IndexError
       end
  else Raise IndexError.

(** Bounds of a slice [lo:hi] over a dimension of size [len]
    (step 1): a negative bound counts from the end, then both are clamped
    to [0, len]. *)
Definition slice_bound (len : nat) (i : Z) : Z :=
  if (i <? 0)%Z then Z.max (i + Z.of_nat len) 0 else Z.min i (Z.of_nat len).

Definition in_slice (len : nat) (lo hi : Z) (j : nat) : bool :=
  (slice_bound len lo <=? Z.of_nat j)%Z && (Z.of_nat j <? slice_bound len hi)%Z.

(** ** Floating-point values

    A finite value is read as the real number it stands for (rounding,
    overflow and the sign of zero are left out); the infinities and NaN
    follow IEEE 754. *)

Inductive float : Type :=
| Finite (r : R)
| Inf (negative : bool)
| NaN.

(** [a * b] *)
Definition fmul (a b : float) : float :=
  match a, b with
  | NaN, _ | _, NaN => NaN
  | Finite r, Finite r' => Finite (r * r')
  | Inf s, Inf s' => Inf (xorb s s')
  | Inf s, Finite r | Finite r, Inf s =>
      if Req_dec_T r 0 then NaN
      else Inf (xorb s (if Rlt_dec r 0 then true else false))
  end.

(** [a + b] *)
Definition fadd (a b : float) : float :=
  match a, b with
  | NaN, _ | _, NaN => NaN
  | Finite r, Finite r' => Finite (r + r')
  | Inf s, Inf s' => if Bool.eqb s s' then Inf s else NaN
  | Inf s, Finite _ | Finite _, Inf s => Inf s
  end.

(** [a.tanh()] *)
Definition ftanh (a : float) : float :=
  match a with
  | Finite r => Finite (tanh r)
  | Inf s => Finite (if s then -1 else 1)
  | NaN => NaN
  end.

Definition is_finite (a : float) : Prop := ∃ r, a = Finite r.

(** ** Tensors

    Input tensors carry their shape and an index function; ranks are the
    ones [forward] expects. *)

Record Tensor2 (A : Type) : Type := mkTensor2 {
  t2_d0 : nat; t2_d1 : nat;
  t2_at : nat → nat → A
}.
Arguments mkTensor2 {A} _ _ _.
Arguments t2_d0 {A} _.
Arguments t2_d1 {A} _.
Arguments t2_at {A} _ _ _.

Record Tensor3 (A : Type) : Type := mkTensor3 {
  t3_d0 : nat; t3_d1 : nat; t3_d2 : nat;
  t3_at : nat → nat → nat → A
}.
Arguments mkTensor3 {A} _ _ _ _.
Arguments t3_d0 {A} _.
Arguments t3_d1 {A} _.
Arguments t3_d2 {A} _.
Arguments t3_at {A} _ _ _ _.

Record Tensor4 (A : Type) : Type := mkTensor4 {
  t4_d0 : nat; t4_d1 : nat; t4_d2 : nat; t4_d3 : nat;
  t4_at : nat → nat → nat → nat → A
}.
Arguments mkTensor4 {A} _ _ _ _ _.
Arguments t4_d0 {A} _.
Arguments t4_d1 {A} _.
Arguments t4_d2 {A} _.
Arguments t4_d3 {A} _.
Arguments t4_at {A} _ _ _ _ _.

(** The entries of row [b]. *)
Definition row_of {A} (t : Tensor2 A) (b : nat) : list A :=
  t2_at t b <$> seq 0 (t2_d1 t).

(** [t[b]] for a Python index [b] produced by [range]: a row of a
    two-dimensional tensor, [IndexError] past the last row. *)
Definition tensor_row {A} (t : Tensor2 A) (b : nat) : result (list A) :=
  if decide (b < t2_d0 t) then Ok (row_of t b) else Raise IndexError.

(** [row.nonzero().squeeze(-1)]: the positions of the nonzero entries, in
    increasing order. *)
Fixpoint nonzero_from (off : Z) (row : list Z) : list Z :=
  match row with
  | [] => []
  | v :: row' =>
      if decide (v = 0%Z) then nonzero_from (off + 1) row'
      else off :: nonzero_from (off + 1) row'
  end.

Definition nonzero (row : list Z) : list Z := nonzero_from 0 row.

(** The boolean mask of shape (B, T_txt, L). *)
Abbreviation mask3 := (list (list (list bool))).

(** [torch.zeros(B, T, L).bool()] *)
Definition zeros (B T L : nat) : mask3 :=
  replicate B (replicate T (replicate L false)).

(** [m[b, t, s]] for indices inside the shape. *)
Definition mask_get (m : mask3) (b t s : nat) : bool :=
  default false (row ← (plane ← m !! b; plane !! t); row !! s).

(** [m[b, ts:te, ws:we] = True] *)
Definition setitem_true (m : mask3) (b : nat) (ts te ws we : Z) : mask3 :=
  alter (fun plane =>
    imap (fun t row =>
      if in_slice (length plane) ts te t
      then imap (fun s c => if in_slice (length row) ws we s then true else c) row
      else row) plane) b m.

(** [sim.masked_fill(mask, value)], the mask already broadcast to the
    shape of [sim]. *)
Definition masked_fill {A} (t : Tensor4 A) (mask : nat → nat → nat → nat → bool)
  (value : A) : Tensor4 A :=
  mkTensor4 (t4_d0 t) (t4_d1 t) (t4_d2 t) (t4_d3 t)
    (fun b h i j => if mask b h i j then value else t4_at t b h i j).

(** [rearrange(media_mask, "b i n -> b 1 1 (i n)").bool()], for a
    [media_mask] whose flattened axes are the slot axis. *)
Definition rearrange_media_mask (media_mask : Tensor3 Z)
  : nat → nat → nat → nat → bool :=
  fun b _ _ s =>
    negb (t3_at media_mask b (s / t3_d2 media_mask) (s mod t3_d2 media_mask) =? 0)%Z.

(** [few_shot_mask.unsqueeze(1)] *)
Definition unsqueeze1 (m : mask3) : nat → nat → nat → nat → bool :=
  fun b _ t s => mask_get m b t s.

(** [~mask] *)
Definition invert (mask : nat → nat → nat → nat → bool)
  : nat → nat → nat → nat → bool :=
  fun b h i j => negb (mask b h i j).

(** Elementwise arithmetic on the residual stream. *)
Definition tensor_scale (t : Tensor3 float) (g : float) : Tensor3 float :=
  mkTensor3 (t3_d0 t) (t3_d1 t) (t3_d2 t) (fun b n d => fmul (t3_at t b n d) g).

Definition tensor_add (a x : Tensor3 float) : Tensor3 float :=
  mkTensor3 (t3_d0 x) (t3_d1 x) (t3_d2 x)
    (fun b n d => fadd (t3_at a b n d) (t3_at x b n d)).

(** Two tensors with the same shape and the same entries. *)
Definition tensor_eq (a b : Tensor3 float) : Prop :=
  t3_d0 a = t3_d0 b ∧ t3_d1 a = t3_d1 b ∧ t3_d2 a = t3_d2 b ∧
  ∀ i j k, t3_at a i j k = t3_at b i j k.

(** ** MaskedCrossAttention *)

Record MaskedCrossAttention : Type := mkMaskedCrossAttention {
  max_window_per_audio : Z;
  scale : R;
  heads : nat;
  (** parameters of [norm], [to_q], [to_kv] and [to_out] *)
  attn_weights : list float;
  only_attend_immediate_media : bool
}.

(** [__init__]; [None] for [only_attend_immediate_media] is the keyword
    left out, which takes the default [True].  [dim_head] is taken to be
    positive ([0 ** -0.5] raises). *)
Definition MaskedCrossAttention_init (dim dim_audio : nat)
  (max_window_per_audio : Z) (dim_head heads : nat)
  (only_attend_immediate_media : option bool) (weights : list float)
  : MaskedCrossAttention :=
  mkMaskedCrossAttention max_window_per_audio (/ sqrt (INR dim_head))%R heads
    weights (default true only_attend_immediate_media).

(** The text span of segment [i] of one batch item (lines 287-297). *)
Definition text_span (T_txt : nat) (media_locations_b : list Z) (i : Z)
  : result (Z * Z) :=
  let n := Z.of_nat (length media_locations_b) in
  if (i =? -1)%Z then
    if (n =? 1)%Z then Ok (0%Z, Z.of_nat T_txt)
    else text_end ← getitem media_locations_b (i + 1); Ok (0%Z, text_end)
  else if (i =? n - 1)%Z then
    text_start ← getitem media_locations_b i; Ok (text_start, Z.of_nat T_txt)
  else
    text_start ← getitem media_locations_b i;
    text_end ← getitem media_locations_b (i + 1);
    Ok (text_start, text_end).

(** The loop over the segments of one batch item (lines 286-305). *)
Definition mask_segments (T_txt batch_idx : nat) (media_locations_b : list Z)
  (few_shot_mask : mask3) : method MaskedCrossAttention mask3 :=
  for_each (py_range (-1) (Z.of_nat (length media_locations_b)))
    (fun i few_shot_mask =>
       '(text_start, text_end) ← lift (text_span T_txt media_locations_b i);
       only_immediate ← getattr only_attend_immediate_media;
       look_at_window_start ←
         (if only_immediate : bool
          then W ← getattr max_window_per_audio; mret (Z.max i 0 * W)%Z
          else mret 0%Z);
       W ← getattr max_window_per_audio;
       let look_at_window_end := ((Z.max i 0 + 1) * W)%Z in
       mret (setitem_true few_shot_mask batch_idx text_start text_end
               look_at_window_start look_at_window_end))
    few_shot_mask.

(** The location mask (lines 280-305). *)
Definition build_few_shot_mask (media_locations : Tensor2 Z) (B T_txt L : nat)
  : method MaskedCrossAttention mask3 :=
  for_each (seq 0 B)
    (fun batch_idx few_shot_mask =>
       row ← lift (tensor_row media_locations batch_idx);
       let media_locations_b := nonzero row in
       mask_segments T_txt batch_idx media_locations_b few_shot_mask)
    (zeros B T_txt L).

(** One pass of the segment loop, as a function of the module it reads. *)
Definition segment_step (self : MaskedCrossAttention) (T_txt batch_idx : nat)
  (media_locations_b : list Z) (i : Z) (few_shot_mask : mask3) : result mask3 :=
  '(text_start, text_end) ← text_span T_txt media_locations_b i;
  let W := max_window_per_audio self in
  Ok (setitem_true few_shot_mask batch_idx text_start text_end
        (if only_attend_immediate_media self then Z.max i 0 * W else 0)%Z
        ((Z.max i 0 + 1) * W)%Z).

(** One pass of the loop over the batch, likewise. *)
Definition item_step (self : MaskedCrossAttention) (media_locations : Tensor2 Z)
  (T_txt batch_idx : nat) (few_shot_mask : mask3) : result mask3 :=
  row ← tensor_row media_locations batch_idx;
  for_each (py_range (-1) (Z.of_nat (length (nonzero row))))
    (segment_step self T_txt batch_idx (nonzero row)) few_shot_mask.

(** What [forward] holds when it returns: the location mask (if one was
    built), the scores handed to the softmax, and the output. *)
Record forward_locals : Type := mkLocals {
  few_shot_mask_of : option mask3;
  sim_of : Tensor4 float;
  out_of : Tensor3 float
}.

(** ** GatedCrossAttentionBlock *)

Record GatedCrossAttentionBlock : Type := mkGatedCrossAttentionBlock {
  attn : MaskedCrossAttention;
  attn_gate : float;
  (** parameters of the [FeedForward] stack *)
  ff_weights : list float;
  ff_gate : float
}.

(** [__init__]: both gates start at [torch.tensor([0.0])]. *)
Definition GatedCrossAttentionBlock_init (dim dim_audio : nat)
  (max_window_per_audio : Z) (dim_head heads ff_mult : nat)
  (only_attend_immediate_media : option bool)
  (attn_weights ff_weights : list float)
  : GatedCrossAttentionBlock :=
  mkGatedCrossAttentionBlock
    (MaskedCrossAttention_init dim dim_audio max_window_per_audio dim_head heads
       (Some (default true only_attend_immediate_media)) attn_weights)
    (Finite 0) ff_weights (Finite 0).

Section TensorLibrary.

(** [torch.finfo(sim.dtype).max], a finite value *)
Variable finfo_max : R.

(** Lines 260-270: layer norm, the query and key projections, the
    rearrangements, scaling and the einsum giving the scores, of shape
    (B, heads, T_txt, L). *)
Variable similarity :
  MaskedCrossAttention → Tensor3 float → Tensor4 float → Tensor4 float.

(** Lines 309-310 and 319-321: the softmax of the shifted scores, its
    product with the values, the rearrangement and [to_out]; the entries
    of a tensor shaped like [x]. *)
Variable attend :
  MaskedCrossAttention → Tensor4 float → Tensor4 float → nat → nat → nat → float.

(** The [FeedForward] stack with its weights; entries of a tensor shaped
    like its input. *)
Variable feed_forward : list float → Tensor3 float → nat → nat → nat → float.

Definition MaskedCrossAttention_forward (x : Tensor3 float)
  (media : Tensor4 float)
  (media_mask : Tensor3 Z)
  (media_locations : option (Tensor2 Z)) (use_cached_media : bool)
  : method MaskedCrossAttention forward_locals :=
  _ ← ((if negb use_cached_media
        then match media_locations with
             | None => lift (Raise AttributeError)
             | Some ml => lift (py_assert (t2_d1 ml =? t3_d1 x))
             end
        else mret tt) : method MaskedCrossAttention unit);
  let T_txt := t3_d1 x in
  let B := t4_d0 media in
  let L := t4_d1 media in
  _ ← lift (py_assert (t4_d2 media =? 1));
  W ← getattr max_window_per_audio;
  r ← lift (py_mod (Z.of_nat L) W);
  _ ← lift (py_assert (r =? 0)%Z);
  self ← getself;
  let sim := similarity self x media in
  let sim := masked_fill sim (invert (rearrange_media_mask media_mask))
               (Finite (- finfo_max)) in
  only_immediate ← getattr only_attend_immediate_media;
  _ ← lift (py_assert (negb only_immediate));
  '(few_shot_mask, sim) ←
    (match media_locations with
    | Some ml =>
        few_shot_mask ← build_few_shot_mask ml B T_txt L;
        mret (Some few_shot_mask,
              masked_fill sim (invert (unsqueeze1 few_shot_mask))
                (Finite (- finfo_max)))
    | None => mret (None, sim)
     end : method MaskedCrossAttention (option mask3 * Tensor4 float));
  only_immediate ← getattr only_attend_immediate_media;
  _ ← ((if bool_decide (is_Some media_locations) && only_immediate
        then lift (Raise NameError)   (* [text_time] is not defined *)
        else mret tt) : method MaskedCrossAttention unit);
  self ← getself;
  mret (mkLocals few_shot_mask sim
          (mkTensor3 (t3_d0 x) T_txt (t3_d2 x) (attend self sim media))).

(** [self.ff(x)] *)
Definition FeedForward (weights : list float) (x : Tensor3 float)
  : Tensor3 float :=
  mkTensor3 (t3_d0 x) (t3_d1 x) (t3_d2 x) (feed_forward weights x).

(** [self.attn(...)]: a call of the sub-module's method, which leaves the
    sub-module as that method leaves it. *)
Definition call_attn {A} (m : method MaskedCrossAttention A)
  : method GatedCrossAttentionBlock A :=
  fun self =>
    let '(attn', r) := m (attn self) in
    (mkGatedCrossAttentionBlock attn' (attn_gate self) (ff_weights self)
       (ff_gate self), r).

Definition GatedCrossAttentionBlock_forward (x : Tensor3 float)
  (media : Tensor4 float)
  (media_mask : Tensor3 Z) (media_locations : option (Tensor2 Z))
  (use_cached_media : bool) : method GatedCrossAttentionBlock (Tensor3 float) :=
  locals ← call_attn (MaskedCrossAttention_forward x media media_mask
                        media_locations use_cached_media);
  attn_gate ← getattr attn_gate;
  let x := tensor_add (tensor_scale (out_of locals) (ftanh attn_gate)) x in
  ff_weights ← getattr ff_weights;
  ff_gate ← getattr ff_gate;
  let x := tensor_add (tensor_scale (FeedForward ff_weights x) (ftanh ff_gate)) x in
  mret x.

(** The assertions at the head of [forward] (lines 249-257). *)
Definition entry_checks (self : MaskedCrossAttention) (x : Tensor3 float)
  (media : Tensor4 float) (media_locations : option (Tensor2 Z))
  (use_cached_media : bool) : result unit :=
  _ ← (if negb use_cached_media
       then match media_locations with
            | None => Raise AttributeError
            | Some ml => py_assert (t2_d1 ml =? t3_d1 x)
            end
       else Ok tt);
  _ ← py_assert (t4_d2 media =? 1);
  r ← py_mod (Z.of_nat (t4_d1 media)) (max_window_per_audio self);
  py_assert (r =? 0)%Z.

(** The scores after the padding mask (lines 260-274). *)
Definition padded_sim (self : MaskedCrossAttention) (x : Tensor3 float)
  (media : Tensor4 float) (media_mask : Tensor3 Z) : Tensor4 float :=
  masked_fill (similarity self x media)
    (invert (rearrange_media_mask media_mask)) (Finite (- finfo_max)).

(** [forward] as a function of the module it reads. *)
Definition forward_result (self : MaskedCrossAttention) (x : Tensor3 float)
  (media : Tensor4 float) (media_mask : Tensor3 Z)
  (media_locations : option (Tensor2 Z)) (use_cached_media : bool)
  : result forward_locals :=
  _ ← entry_checks self x media media_locations use_cached_media;
  _ ← py_assert (negb (only_attend_immediate_media self));
  let sim := padded_sim self x media media_mask in
  '(few_shot_mask, sim) ←
    match media_locations with
    | Some ml =>
        few_shot_mask ← for_each (seq 0 (t4_d0 media))
                          (item_step self ml (t3_d1 x))
                          (zeros (t4_d0 media) (t3_d1 x) (t4_d1 media));
        Ok (Some few_shot_mask,
            masked_fill sim (invert (unsqueeze1 few_shot_mask))
              (Finite (- finfo_max)))
    | None => Ok (None, sim)
    end;
  _ ← (if bool_decide (is_Some media_locations) && only_attend_immediate_media self
       then Raise NameError else Ok tt);
  Ok (mkLocals few_shot_mask sim
        (mkTensor3 (t3_d0 x) (t3_d1 x) (t3_d2 x) (attend self sim media))).

End TensorLibrary.

(** ** Vocabulary of the masking rule *)

(** The value or exception a method call produces, and the module it
    leaves behind. *)
Definition outcome {Self A} (m : method Self A) (self : Self) : result A :=
  snd (m self).
Definition module_after {Self A} (m : method Self A) (self : Self) : Self :=
  fst (m self).

(** A mask of shape (B, T, L). *)
Definition mask_shape (B T L : nat) (m : mask3) : Prop :=
  length m = B ∧
  ∀ b plane, m !! b = Some plane →
    length plane = T ∧ ∀ t row, plane !! t = Some row → length row = L.

(** Row [b] of [media_locations] marks some text position. *)
Definition has_marker (media_locations : Tensor2 Z) (b : nat) : Prop :=
  ∃ j, j < t2_d1 media_locations ∧ t2_at media_locations b j ≠ 0%Z.

(** The number of markers in a stretch of a row. *)
Definition count_markers (row : list Z) : nat :=
  length (filter (λ v, v ≠ 0%Z) row).

(** The index of the last marker at or before text position [t], markers
    being numbered from 0 in the order of their positions; 0 when no marker
    is at or before [t]. *)
Definition last_marker_index (row : list Z) (t : nat) : nat :=
  Nat.pred (count_markers (take (S t) row)).

(** Segment [i] of a row covers the pair (text position, audio slot). *)
Definition segment_covers (self : MaskedCrossAttention) (T_txt L : nat)
  (media_locations_b : list Z) (t s : nat) (i : Z) : bool :=
  match text_span T_txt media_locations_b i with
  | Ok (text_start, text_end) =>
      let W := max_window_per_audio self in
      in_slice T_txt text_start text_end t &&
      in_slice L (if only_attend_immediate_media self then Z.max i 0 * W else 0)%Z
        ((Z.max i 0 + 1) * W)%Z s
  | Raise _ => false
  end.

(** Text position [t] lies in the span [text_start:text_end]. *)
Definition span_contains (span : Z * Z) (t : nat) : Prop :=
  (span.1 ≤ Z.of_nat t < span.2)%Z.

(** ** Sample calls

    A small module and small inputs on which the statements below are
    exercised; the tensor library is stood in for by constant functions. *)

(** The largest finite single-precision value. *)
Definition sample_finfo_max : R := 340282346638528859811704183484516925440%R.

Definition sample_similarity
  : MaskedCrossAttention → Tensor3 float → Tensor4 float → Tensor4 float :=
  fun self x media =>
    mkTensor4 (t4_d0 media) (heads self) (t3_d1 x) (t4_d1 media)
      (fun _ _ _ _ => Finite 0).

Definition sample_attend
  : MaskedCrossAttention → Tensor4 float → Tensor4 float →
    nat → nat → nat → float :=
  fun _ _ _ _ _ _ => Finite 0.

Definition sample_feed_forward
  : list float → Tensor3 float → nat → nat → nat → float :=
  fun _ _ _ _ _ => Finite 0.

(** A two-dimensional tensor with the given rows. *)
Definition tensor2_of_rows (cols : nat) (rows : list (list Z)) : Tensor2 Z :=
  mkTensor2 (length rows) cols
    (fun b j => default 0%Z (row ← rows !! b; row !! j)).

(** One batch item, six text positions, markers at positions 1 and 3. *)
Definition two_marker_locations : Tensor2 Z :=
  tensor2_of_rows 6 [[0; 1; 0; 1; 0; 0]%Z].

(** One batch item, three text positions, one marker at position 1. *)
Definition one_marker_locations : Tensor2 Z :=
  tensor2_of_rows 3 [[0; 1; 0]%Z].

(** One batch item, three text positions, no marker. *)
Definition no_marker_locations : Tensor2 Z :=
  tensor2_of_rows 3 [[0; 0; 0]%Z].

(** [x] of shape (1, T_txt, 4), [media] of shape (1, L, 1, 4) and a
    [media_mask] of shape (1, L, 1) without padding. *)
Definition sample_x (T_txt : nat) : Tensor3 float :=
  mkTensor3 1 T_txt 4 (fun _ _ _ => Finite 0).
Definition sample_media (L : nat) : Tensor4 float :=
  mkTensor4 1 L 1 4 (fun _ _ _ _ => Finite 0).
Definition sample_media_mask (L : nat) : Tensor3 Z :=
  mkTensor3 1 L 1 (fun _ _ _ => 1%Z).

(** [MaskedCrossAttention(dim=4, dim_audio=4, max_window_per_audio=2, ...)] *)
Definition sample_module (only_attend_immediate_media : option bool)
  : MaskedCrossAttention :=
  MaskedCrossAttention_init 4 4 2 64 8 only_attend_immediate_media [].

(** [forward] of the sample module with the sample tensor library. *)
Definition sample_forward (T_txt L : nat) (media_locations : option (Tensor2 Z))
  (use_cached_media : bool) (only_attend_immediate_media : option bool)
  : result forward_locals :=
  outcome
    (MaskedCrossAttention_forward sample_finfo_max sample_similarity
       sample_attend (sample_x T_txt) (sample_media L) (sample_media_mask L)
       media_locations use_cached_media)
    (sample_module only_attend_immediate_media).

(** [GatedCrossAttentionBlock.forward] on the same inputs. *)
Definition sample_block_forward (T_txt L : nat)
  (media_locations : option (Tensor2 Z)) (use_cached_media : bool)
  (only_attend_immediate_media : option bool) : result (Tensor3 float) :=
  outcome
    (GatedCrossAttentionBlock_forward sample_finfo_max sample_similarity
       sample_attend sample_feed_forward (sample_x T_txt) (sample_media L)
       (sample_media_mask L) media_locations use_cached_media)
    (GatedCrossAttentionBlock_init 4 4 2 64 8 4 only_attend_immediate_media
       [] []).

(** A second call that differs from the sample one in the entries of its
    tensors and in the parameters of its module, not in the shapes. *)
Definition other_x (T_txt : nat) : Tensor3 float :=
  mkTensor3 1 T_txt 4 (fun _ _ _ => Finite 1).
Definition other_media (L : nat) : Tensor4 float :=
  mkTensor4 1 L 1 4 (fun _ _ _ _ => Finite 2).
Definition other_media_mask (L : nat) : Tensor3 Z :=
  mkTensor3 1 L 1 (fun _ s _ => if decide (s = 0) then 0%Z else 1%Z).
Definition other_module : MaskedCrossAttention :=
  MaskedCrossAttention_init 4 4 2 32 4 (Some false) [Finite 1; Finite 2].

(** A module whose window size is negative: the assertion of line 257
    accepts it for 8 slots, since [8 % -2] is 0. *)
Definition negative_window_module : MaskedCrossAttention :=
  MaskedCrossAttention_init 4 4 (-2) 64 8 (Some false) [].

(** Tensor libraries whose attention output is NaN, or infinite, as it is
    when an intermediate value of the layer norm or of the projections
    overflows. *)
Definition nan_attend
  : MaskedCrossAttention → Tensor4 float → Tensor4 float →
    nat → nat → nat → float :=
  fun _ _ _ _ _ _ => NaN.
Definition inf_attend
  : MaskedCrossAttention → Tensor4 float → Tensor4 float →
    nat → nat → nat → float :=
  fun _ _ _ _ _ _ => Inf false.

(** * The encoder side of the file

    [PositionalEncoding], [TransformerEncoder] and the head reshaping of
    [MultiHeadAttention].  Exceptions of numpy and torch calls join the
    builtin ones; the tensors of this side are read as tensors of real
    numbers. *)

Inductive lib_exn : Set :=
| Builtin (e : exn)
| RuntimeError
| ValueError.

Inductive lib_result (A : Type) : Type :=
| Done (a : A)
| Fail (e : lib_exn).
Arguments Done {A} a.
Arguments Fail {A} e.

#[global] Instance lib_result_ret : MRet lib_result := @Done.
#[global] Instance lib_result_bind : MBind lib_result := fun A B f m =>
  match m with
  | Done a => f a
  | Fail e => Fail e
  end.

(** ** Broadcasting

    [a + b] on two tensors of rank 3: sizes along an axis must agree or one
    of them be 1, and a size-1 axis is read at index 0. *)
Definition broadcast_dim (a b : nat) : lib_result nat :=
  if a =? b then Done a
  else if a =? 1 then Done b
  else if b =? 1 then Done a
  else Fail RuntimeError.

Definition broadcast_index (dim i : nat) : nat := if dim =? 1 then 0 else i.

Definition torch_add (a b : Tensor3 R) : lib_result (Tensor3 R) :=
  d0 ← broadcast_dim (t3_d0 a) (t3_d0 b);
  d1 ← broadcast_dim (t3_d1 a) (t3_d1 b);
  d2 ← broadcast_dim (t3_d2 a) (t3_d2 b);
  Done (mkTensor3 d0 d1 d2
          (fun i j k =>
             (t3_at a (broadcast_index (t3_d0 a) i) (broadcast_index (t3_d1 a) j)
                (broadcast_index (t3_d2 a) k)
              + t3_at b (broadcast_index (t3_d0 b) i)
                  (broadcast_index (t3_d1 b) j) (broadcast_index (t3_d2 b) k))%R)).

(** [t[:, :stop]] *)
Definition tensor3_slice1 (t : Tensor3 R) (stop : Z) : Tensor3 R :=
  mkTensor3 (t3_d0 t) (Z.to_nat (slice_bound (t3_d1 t) stop)) (t3_d2 t) (t3_at t).

(** ** PositionalEncoding *)

(** A numpy array of one axis, or of two. *)
Record matrix : Type := mkMatrix {
  m_rows : nat; m_cols : nat;
  m_at : nat → nat → R
}.

Inductive ndarray : Type :=
| Array1 (data : list R)
| Array2 (m : matrix).

(** [np.array(rows)] for a list of rows of [cols] numbers each: without
    rows the array has the single axis of an empty list. *)
Definition np_array (cols : nat) (rows : list (list R)) : ndarray :=
  match rows with
  | [] => Array1 []
  | _ => Array2 (mkMatrix (length rows) cols
                   (fun p j => default 0%R (row ← rows !! p; row !! j)))
  end.

(** [a[:, ...]]: indexing with two subscripts needs two axes. *)
Definition two_axes (a : ndarray) : lib_result matrix :=
  match a with
  | Array1 _ => Fail (Builtin IndexError)
  | Array2 m => Done m
  end.

(** [m[:, start::2] = f(m[:, start::2])] *)
Definition map_columns_from (start : nat) (f : R → R) (m : matrix) : matrix :=
  mkMatrix (m_rows m) (m_cols m)
    (fun p j =>
       if decide (start ≤ j ∧ (j - start) mod 2 = 0) then f (m_at m p j)
       else m_at m p j).

(** [torch.FloatTensor(m).unsqueeze(0)] *)
Definition float_tensor_unsqueeze0 (m : matrix) : Tensor3 R :=
  mkTensor3 1 (m_rows m) (m_cols m) (fun _ p j => m_at m p j).

(** [position / np.power(10000, 2 * (hid_j // 2) / d_hid)] *)
Definition position_angle (d_hid : nat) (position : Z) (hid_j : nat) : R :=
  (IZR position / Rpower 10000 (INR (2 * (hid_j / 2)) / INR d_hid))%R.

Definition get_position_angle_vec (d_hid : nat) (position : Z) : list R :=
  position_angle d_hid position <$> seq 0 d_hid.

Definition get_sinusoid_encoding_table (n_position : Z) (d_hid : nat)
  : lib_result (Tensor3 R) :=
  let sinusoid_table :=
    np_array d_hid (get_position_angle_vec d_hid <$> py_range 0 n_position) in
  sinusoid_table ← two_axes sinusoid_table;
  let sinusoid_table := map_columns_from 0 sin sinusoid_table in
  let sinusoid_table := map_columns_from 1 cos sinusoid_table in
  Done (float_tensor_unsqueeze0 sinusoid_table).

Record PositionalEncoding : Type := mkPositionalEncoding {
  pos_table : Tensor3 R
}.

(** [__init__(d_hid, n_position)] *)
Definition PositionalEncoding_init (d_hid : nat) (n_position : Z)
  : lib_result PositionalEncoding :=
  table ← get_sinusoid_encoding_table n_position d_hid;
  Done (mkPositionalEncoding table).

(** [x + self.pos_table[:, :x.size(1)].clone().detach()] *)
Definition PositionalEncoding_forward (self : PositionalEncoding) (x : Tensor3 R)
  : lib_result (Tensor3 R) :=
  torch_add x (tensor3_slice1 (pos_table self) (Z.of_nat (t3_d1 x))).

(** ** The head reshaping of MultiHeadAttention *)

(** [t.view(s0, s1, s2, s3)] on a contiguous tensor of rank 3: the same
    entries in row-major order, if there are as many. *)
Definition view_3_to_4 (t : Tensor3 R) (s0 s1 s2 s3 : nat)
  : lib_result (Tensor4 R) :=
  if t3_d0 t * t3_d1 t * t3_d2 t =? s0 * s1 * s2 * s3
  then Done (mkTensor4 s0 s1 s2 s3
               (fun a b c d =>
                  let off := ((a * s1 + b) * s2 + c) * s3 + d in
                  t3_at t (off / (t3_d1 t * t3_d2 t))
                    (off / t3_d2 t mod t3_d1 t) (off mod t3_d2 t)))
  else Fail RuntimeError.

(** [t.transpose(1, 2)] *)
Definition transpose_1_2 (t : Tensor4 R) : Tensor4 R :=
  mkTensor4 (t4_d0 t) (t4_d2 t) (t4_d1 t) (t4_d3 t)
    (fun a b c d => t4_at t a c b d).

(** [t.contiguous().view(s0, s1, -1)] on a tensor of rank 4: the last size
    is worked out from the number of entries, which fails when [s0 * s1]
    is 0 or does not divide that number. *)
Definition view_4_to_3_infer (t : Tensor4 R) (s0 s1 : nat)
  : lib_result (Tensor3 R) :=
  let numel := t4_d0 t * t4_d1 t * t4_d2 t * t4_d3 t in
  if (s0 * s1 =? 0) || negb (numel mod (s0 * s1) =? 0) then Fail RuntimeError
  else
    let s2 := numel / (s0 * s1) in
    Done (mkTensor3 s0 s1 s2
            (fun a b c =>
               let off := (a * s1 + b) * s2 + c in
               t4_at t (off / (t4_d1 t * t4_d2 t * t4_d3 t))
                 (off / (t4_d2 t * t4_d3 t) mod t4_d1 t)
                 (off / t4_d3 t mod t4_d2 t) (off mod t4_d3 t))).

(** Lines 88-93: a projection of shape (sz_b, len, n_head * d) viewed as
    (sz_b, len, n_head, d) and transposed to (sz_b, n_head, len, d). *)
Definition split_heads (projected : Tensor3 R) (sz_b len n_head d : nat)
  : lib_result (Tensor4 R) :=
  t ← view_3_to_4 projected sz_b len n_head d;
  Done (transpose_1_2 t).

(** Line 102: the attention output of shape (sz_b, n_head, len_q, d_v)
    transposed back and flattened to (sz_b, len_q, n_head * d_v). *)
Definition merge_heads (q : Tensor4 R) (sz_b len_q : nat)
  : lib_result (Tensor3 R) :=
  view_4_to_3_infer (transpose_1_2 q) sz_b len_q.

(** ** TransformerEncoder *)

(** [t * c] on a tensor of the encoder, its entries read as real numbers. *)
Definition scale_entries (t : Tensor3 R) (c : R) : Tensor3 R :=
  mkTensor3 (t3_d0 t) (t3_d1 t) (t3_d2 t) (fun b l d => (t3_at t b l d * c)%R).

(** A tensor of any rank: its shape and its entries by index list. *)
Record TensorN (A : Type) : Type := mkTensorN {
  tn_shape : list nat;
  tn_at : list nat → A
}.
Arguments mkTensorN {A} _ _.
Arguments tn_shape {A} _.
Arguments tn_at {A} _ _.

(** [t.unsqueeze(1)] *)
Definition unsqueeze_1 {A} (t : TensorN A) : TensorN A :=
  mkTensorN (take 1 (tn_shape t) ++ [1] ++ drop 1 (tn_shape t))
    (fun idx => tn_at t (take 1 idx ++ drop 2 idx)).

(** [B, L, D = shape] *)
Definition unpack3 (shape : list nat) : lib_result (nat * nat * nat) :=
  match shape with
  | [B; L; D] => Done (B, L, D)
  | _ => Fail ValueError
  end.

Definition as_tensor3 {A} (B L D : nat) (t : TensorN A) : Tensor3 A :=
  mkTensor3 B L D (fun b l d => tn_at t [b; l; d]).

Record EncoderLayer : Type := mkEncoderLayer {
  el_d_model : nat; el_d_inner : nat;
  el_n_head : nat; el_d_k : nat; el_d_v : nat;
  el_dropout : R;
  (** parameters of [slf_attn] and [pos_ffn] *)
  el_weights : list R
}.

Record TransformerEncoder : Type := mkTransformerEncoder {
  (** [None] is [lambda x: x] *)
  position_enc : option PositionalEncoding;
  enc_dropout : R;
  layer_stack : list EncoderLayer;
  (** parameters of [layer_norm] *)
  ln_weights : list R;
  scale_emb : bool;
  d_model : nat
}.

(** [__init__]; [layer_weights i] are the initial parameters of layer [i]. *)
Definition TransformerEncoder_init (d_word_vec : nat) (n_layers : Z)
  (n_head d_k d_v d_model d_inner : nat) (dropout : R) (n_position : Z)
  (scale_emb : bool) (layer_weights : nat → list R) (ln_weights : list R)
  : lib_result TransformerEncoder :=
  position_enc ←
    (if (0 <? n_position)%Z
     then pe ← PositionalEncoding_init d_word_vec n_position; Done (Some pe)
     else Done None);
  (** [nn.Dropout(p=dropout)] takes a probability *)
  _ ← (if Rlt_dec dropout 0 then Fail ValueError
       else if Rlt_dec 1 dropout then Fail ValueError
       else Done tt);
  let layer_stack :=
    (fun i => mkEncoderLayer d_model d_inner n_head d_k d_v dropout
                (layer_weights (Z.to_nat i))) <$> py_range 0 n_layers in
  Done (mkTransformerEncoder position_enc dropout layer_stack ln_weights
          scale_emb d_model).

(** What [forward] returns: the output alone, or with the attention maps. *)
Inductive encoder_return : Type :=
| OutputOnly (enc_output : Tensor3 R)
| WithAttns (enc_output : Tensor3 R) (enc_slf_attn_list : list (Tensor4 R)).

Section EncoderLibrary.

(** [nn.Dropout(p)]: entries of a tensor shaped like its input. *)
Variable dropout_values : R → Tensor3 R → nat → nat → nat → R.

(** The normalisation of [nn.LayerNorm] with its parameters: entries of a
    tensor shaped like its input. *)
Variable layer_norm_values : list R → Tensor3 R → nat → nat → nat → R.

(** [EncoderLayer.forward(enc_input, slf_attn_mask)] (lines 163-167, with
    the attention and feed-forward modules it calls): the output and the
    attention map, or an exception of the tensor library. *)
Variable EncoderLayer_forward :
  EncoderLayer → Tensor3 R → option (Tensor3 Z) →
  lib_result (Tensor3 R * Tensor4 R).

Definition Dropout (p : R) (x : Tensor3 R) : Tensor3 R :=
  mkTensor3 (t3_d0 x) (t3_d1 x) (t3_d2 x) (dropout_values p x).

(** [nn.LayerNorm(dim)(x)]: the last axis must have size [dim]. *)
Definition LayerNorm (dim : nat) (weights : list R) (x : Tensor3 R)
  : lib_result (Tensor3 R) :=
  if t3_d2 x =? dim
  then Done (mkTensor3 (t3_d0 x) (t3_d1 x) (t3_d2 x)
               (layer_norm_values weights x))
  else Fail RuntimeError.

Definition TransformerEncoder_forward (self : TransformerEncoder)
  (src_seq : TensorN R) (return_attns : bool) : lib_result encoder_return :=
  let src_seq :=
    if length (tn_shape src_seq) =? 2 then unsqueeze_1 src_seq else src_seq in
  '(B, L, D) ← unpack3 (tn_shape src_seq);
  let enc_slf_attn_list : list (Tensor4 R) := [] in
  let causal_mask : option (Tensor3 Z) := None in
  let enc_output := as_tensor3 B L D src_seq in
  let enc_output :=
    if scale_emb self
    then scale_entries enc_output (sqrt (INR (d_model self)))
    else enc_output in
  enc_output ←
    match position_enc self with
    | Some pe => PositionalEncoding_forward pe enc_output
    | None => Done enc_output
    end;
  let enc_output := Dropout (enc_dropout self) enc_output in
  enc_output ← LayerNorm (d_model self) (ln_weights self) enc_output;
  '(enc_output, enc_slf_attn_list) ←
    for_each (layer_stack self)
      (fun enc_layer '(enc_output, enc_slf_attn_list) =>
         '(enc_output, enc_slf_attn) ←
           EncoderLayer_forward enc_layer enc_output causal_mask;
         Done (enc_output,
               enc_slf_attn_list ++ (if return_attns then [enc_slf_attn] else [])))
      (enc_output, enc_slf_attn_list);
  if return_attns then Done (WithAttns enc_output enc_slf_attn_list)
  else Done (OutputOnly enc_output).

End EncoderLibrary.

(** ** Sample calls of the encoder side *)

(** A tensor of shape (2, L, 4) with distinct entries. *)
Definition sample_sequence (L : nat) : Tensor3 R :=
  mkTensor3 2 L 4 (fun b l f => INR (b * (L * 4) + l * 4 + f)).

(** An attention output of shape (B, 2, 3, 2). *)
Definition sample_heads (B : nat) : Tensor4 R :=
  mkTensor4 B 2 3 2 (fun b h l j => INR (b * 12 + h * 6 + l * 2 + j)).

(** A tensor of the given shape filled with zeros. *)
Definition sample_src (shape : list nat) : TensorN R :=
  mkTensorN shape (fun _ => 0%R).

(** Dropout with nothing dropped, a normalisation that leaves the entries,
    and a layer that hands its input on with an attention map of zeros. *)
Definition sample_dropout_values : R → Tensor3 R → nat → nat → nat → R :=
  fun _ x => t3_at x.
Definition sample_layer_norm_values
  : list R → Tensor3 R → nat → nat → nat → R :=
  fun _ x => t3_at x.
Definition sample_EncoderLayer_forward
  : EncoderLayer → Tensor3 R → option (Tensor3 Z) →
    lib_result (Tensor3 R * Tensor4 R) :=
  fun enc_layer x _ =>
    Done (x, mkTensor4 (t3_d0 x) (el_n_head enc_layer) (t3_d1 x) (t3_d1 x)
               (fun _ _ _ _ => 0%R)).

(** [TransformerEncoder(d_word_vec=4, n_layers=2, n_head=1, d_k=4, d_v=4,
    d_model=4, d_inner=8, dropout=0.0, n_position=0)] *)
Definition sample_encoder : TransformerEncoder :=
  mkTransformerEncoder None 0
    [mkEncoderLayer 4 8 1 4 4 0 []; mkEncoderLayer 4 8 1 4 4 0 []] [] true 4.

(** * Properties *)

(** ** Loops that only read [self] *)

Lemma for_each_run {Self I S} (xs : list I) (body : I → S → method Self S)
  (pbody : I → S → result S) (self : Self) :
  (∀ i s, body i s self = (self, pbody i s)) →
  ∀ s, for_each xs body s self = (self, for_each xs pbody s).
Proof.
  intros Hbody. induction xs as [|i xs IH]; intros s; [reflexivity|].
  cbn [for_each]. unfold mbind at 1, method_bind at 1.
  rewrite Hbody. unfold mbind, result_bind.
  destruct (pbody i s) as [s'|e]; [apply IH | reflexivity].
Qed.

Lemma mask_segments_run self T_txt batch_idx locs m :
  mask_segments T_txt batch_idx locs m self
  = (self, for_each (py_range (-1) (Z.of_nat (length locs)))
             (segment_step self T_txt batch_idx locs) m).
Proof.
  unfold mask_segments. apply for_each_run. intros i s.
  unfold segment_step, mbind, method_bind, result_bind, lift, getattr, mret,
    method_ret.
  destruct (text_span T_txt locs i) as [[ts te]|e]; [|reflexivity].
  destruct (only_attend_immediate_media self); reflexivity.
Qed.

Lemma build_few_shot_mask_run self ml B T_txt L :
  build_few_shot_mask ml B T_txt L self
  = (self, for_each (seq 0 B) (item_step self ml T_txt) (zeros B T_txt L)).
Proof.
  unfold build_few_shot_mask. apply for_each_run. intros b s.
  unfold item_step, mbind, method_bind, result_bind, lift.
  destruct (tensor_row ml b) as [row|e]; [|reflexivity].
  apply mask_segments_run.
Qed.

(** ** Slice assignment on the mask *)

Lemma zeros_shape B T L : mask_shape B T L (zeros B T L).
Proof.
  unfold zeros. split; [apply length_replicate|].
  intros b plane [-> _]%lookup_replicate.
  split; [apply length_replicate|].
  intros t row [-> _]%lookup_replicate. apply length_replicate.
Qed.

Lemma mask_get_zeros B T L b t s : mask_get (zeros B T L) b t s = false.
Proof.
  unfold mask_get, zeros.
  destruct (replicate B _ !! b) as [plane|] eqn:Hb; [|reflexivity].
  apply lookup_replicate in Hb as [-> _]. cbn.
  destruct (replicate T _ !! t) as [row|] eqn:Ht; [|reflexivity].
  apply lookup_replicate in Ht as [-> _]. cbn.
  destruct (replicate L false !! s) as [c|] eqn:Hs; [|reflexivity].
  apply lookup_replicate in Hs as [-> _]. reflexivity.
Qed.

Lemma setitem_true_shape B T L m b ts te ws we :
  mask_shape B T L m → mask_shape B T L (setitem_true m b ts te ws we).
Proof.
  intros [HB Hm]. unfold setitem_true. split; [by rewrite length_alter|].
  intros b' plane' Hb'.
  destruct (decide (b = b')) as [->|Hne].
  - rewrite list_lookup_alter_eq in Hb'.
    destruct (m !! b') as [plane|] eqn:Hplane; [|discriminate].
    injection Hb' as <-. destruct (Hm _ _ Hplane) as [HT HL].
    split; [by rewrite length_imap|].
    intros t row' Ht. rewrite list_lookup_imap in Ht.
    destruct (plane !! t) as [row|] eqn:Hrow; [|discriminate].
    injection Ht as <-. specialize (HL _ _ Hrow).
    destruct (in_slice _ ts te t); [by rewrite length_imap | done].
  - rewrite list_lookup_alter_ne in Hb' by done. eauto.
Qed.

Lemma mask_get_setitem_true B T L m b ts te ws we b' t s :
  mask_shape B T L m → b' < B → t < T → s < L →
  mask_get (setitem_true m b ts te ws we) b' t s
  = mask_get m b' t s
    || (bool_decide (b' = b) && in_slice T ts te t && in_slice L ws we s).
Proof.
  intros [HB Hm] Hb' Ht Hs. unfold mask_get, setitem_true.
  destruct (m !! b') as [plane|] eqn:Hplane;
    [|apply lookup_ge_None in Hplane; lia].
  destruct (Hm _ _ Hplane) as [HT HL].
  destruct (plane !! t) as [row|] eqn:Hrow;
    [|apply lookup_ge_None in Hrow; lia].
  specialize (HL _ _ Hrow).
  destruct (row !! s) as [c|] eqn:Hc; [|apply lookup_ge_None in Hc; lia].
  case_bool_decide as Heq.
  - subst b'. rewrite list_lookup_alter_eq, Hplane. cbn.
    rewrite list_lookup_imap, Hrow, HT. cbn.
    destruct (in_slice T ts te t); cbn.
    + rewrite list_lookup_imap, Hc, HL. cbn.
      destruct (in_slice L ws we s), c; reflexivity.
    + rewrite Hc. cbn. by rewrite orb_false_r.
  - rewrite list_lookup_alter_ne, Hplane by done. cbn.
    rewrite Hrow. cbn. rewrite Hc. cbn. by rewrite orb_false_r.
Qed.

(** ** Marker positions *)

Lemma nonzero_from_lb off row p : p ∈ nonzero_from off row → (off ≤ p)%Z.
Proof.
  revert off. induction row as [|v row IH]; intros off; cbn.
  - by intros ?%elem_of_nil.
  - case_decide.
    + intros ?%IH. lia.
    + intros [->|?%IH]%elem_of_cons; lia.
Qed.

Lemma nonzero_from_nil_iff off row :
  nonzero_from off row = [] ↔ ∀ v, v ∈ row → v = 0%Z.
Proof.
  revert off. induction row as [|v row IH]; intros off; cbn.
  - split; [intros _ v ?%elem_of_nil; done | done].
  - case_decide as Hv.
    + rewrite IH. split.
      * intros H w [->|?]%elem_of_cons; auto.
      * intros H w ?. apply H. by right.
    + split; [done|]. intros H. destruct Hv. apply H. by left.
Qed.

Lemma has_marker_nonzero ml b : has_marker ml b ↔ nonzero (row_of ml b) ≠ [].
Proof.
  unfold has_marker, nonzero, row_of. rewrite nonzero_from_nil_iff. split.
  - intros (j & Hj & Hne) Hall. apply Hne, Hall.
    apply list_elem_of_fmap. exists j. split; [done|].
    apply elem_of_seq. lia.
  - intros Hnot.
    destruct (decide (Exists (λ j, t2_at ml b j ≠ 0%Z) (seq 0 (t2_d1 ml))))
      as [Hex|Hno].
    + apply Exists_exists in Hex as (j & Hj%elem_of_seq & Hne).
      exists j. split; [lia | done].
    + destruct Hnot. intros v (j & -> & Hj)%list_elem_of_fmap.
      destruct (decide (t2_at ml b j = 0%Z)) as [|Hne]; [done|].
      destruct Hno. apply Exists_exists. eauto.
Qed.

Lemma nonzero_from_count off t row :
  length (filter (λ p, (p ≤ t)%Z) (nonzero_from off row))
  = count_markers (take (Z.to_nat (t + 1 - off)) row).
Proof.
  unfold count_markers. revert off.
  induction row as [|v row IH]; intros off; cbn.
  - by rewrite take_nil.
  - destruct (decide (off ≤ t)%Z) as [Hle|Hgt].
    + replace (Z.to_nat (t + 1 - off)) with (S (Z.to_nat (t + 1 - (off + 1))))
        by lia.
      cbn. case_decide as Hv; case_decide as Hv'; try congruence.
      * apply IH.
      * rewrite filter_cons_True by done. cbn. f_equal. apply IH.
    + replace (Z.to_nat (t + 1 - off)) with 0 by lia. cbn.
      assert (Hnone : ∀ l, (∀ p, p ∈ l → (off ≤ p)%Z) →
                 filter (λ p, (p ≤ t)%Z) l = []).
      { induction l as [|p l IHl]; intros Hl; [done|].
        rewrite filter_cons_False.
        - apply IHl. intros q ?. apply Hl. by right.
        - specialize (Hl p ltac:(by left)). lia. }
      rewrite Hnone; [done|].
      intros p Hp. case_decide.
      * apply nonzero_from_lb in Hp. lia.
      * apply elem_of_cons in Hp as [->|Hp%nonzero_from_lb]; lia.
Qed.

Lemma nonzero_from_le_iff off row t i p :
  nonzero_from off row !! i = Some p →
  (p ≤ t)%Z ↔ i < length (filter (λ p, (p ≤ t)%Z) (nonzero_from off row)).
Proof.
  revert off i. induction row as [|v row IH]; intros off i; cbn; [done|].
  case_decide as Hv; [apply IH|].
  destruct (decide (off ≤ t)%Z) as [Hle|Hgt].
  - rewrite filter_cons_True by done. destruct i as [|i]; cbn.
    + intros [= <-]. split; [lia | done].
    + intros Hi. rewrite (IH _ _ Hi). lia.
  - rewrite filter_cons_False by done.
    assert (Hnone : filter (λ p, (p ≤ t)%Z) (nonzero_from (off + 1) row) = []).
    { pose proof (nonzero_from_count (off + 1) t row) as Hc.
      replace (Z.to_nat (t + 1 - (off + 1))) with 0 in Hc by lia.
      rewrite take_0 in Hc. by apply length_zero_iff_nil. }
    rewrite Hnone. cbn. intros Hi. split; [|lia]. intros Hp.
    destruct i as [|i]; cbn in Hi.
    + injection Hi as <-. lia.
    + apply list_elem_of_lookup_2, nonzero_from_lb in Hi. lia.
Qed.

(** The number of markers at or before [t], read off the marker list. *)
Lemma marker_le_iff row t i p :
  nonzero row !! i = Some p →
  (p ≤ Z.of_nat t)%Z ↔ i < count_markers (take (S t) row).
Proof.
  intros Hi. unfold nonzero in *.
  rewrite (nonzero_from_le_iff _ _ (Z.of_nat t) _ _ Hi), nonzero_from_count.
  by replace (Z.to_nat (Z.of_nat t + 1 - 0)) with (S t) by lia.
Qed.

Lemma count_markers_le row t :
  count_markers (take (S t) row) ≤ length (nonzero row).
Proof.
  pose proof (nonzero_from_count 0 (Z.of_nat t) row) as Hc.
  replace (Z.to_nat (Z.of_nat t + 1 - 0)) with (S t) in Hc by lia.
  rewrite <- Hc. apply length_filter.
Qed.

(** [last_marker_index] is the index, in the list of marker positions, of
    the last marker at or before [t]. *)
Lemma last_marker_index_spec row t k p :
  nonzero row !! k = Some p → (p ≤ Z.of_nat t)%Z →
  (∀ q, nonzero row !! S k = Some q → (Z.of_nat t < q)%Z) →
  last_marker_index row t = k.
Proof.
  intros Hp Hle Hnext. unfold last_marker_index.
  pose proof (proj1 (marker_le_iff row t k p Hp) Hle) as Hk.
  pose proof (count_markers_le row t) as Hc.
  destruct (decide (S k < count_markers (take (S t) row))) as [Hlt|Hge];
    [|lia].
  destruct (lookup_lt_is_Some_2 (nonzero row) (S k)) as [q Hq]; [lia|].
  pose proof (proj2 (marker_le_iff row t (S k) q Hq) Hlt).
  specialize (Hnext q Hq). lia.
Qed.

Example nonzero_sample : nonzero [0; 1; 0; 1; 0; 0]%Z = [1; 3]%Z.
Proof. reflexivity. Qed.

Example last_marker_index_sample :
  last_marker_index [0; 1; 0; 1; 0; 0]%Z <$> [0; 1; 2; 3; 4; 5]
  = [0; 0; 0; 1; 1; 1].
Proof. reflexivity. Qed.

(** ** Indexing and slices *)

Lemma getitem_lookup locs k p :
  locs !! k = Some p → getitem locs (Z.of_nat k) = Ok p.
Proof.
  intros Hk. pose proof (lookup_lt_Some _ _ _ Hk) as Hlt. unfold getitem.
  replace (Z.of_nat k <? 0)%Z with false by lia. cbn zeta.
  replace ((0 <=? Z.of_nat k)%Z && (Z.of_nat k <? Z.of_nat (length locs))%Z)
    with true by lia.
  by rewrite Nat2Z.id, Hk.
Qed.

Lemma getitem_raises locs i e : getitem locs i = Raise e → e = IndexError.
Proof.
  unfold getitem. cbn zeta. destruct (_ && _); [|congruence].
  destruct (locs !! _); congruence.
Qed.

Lemma in_slice_nonneg len lo hi j :
  (0 ≤ lo)%Z → (0 ≤ hi)%Z → j < len →
  in_slice len lo hi j = true ↔ (lo ≤ Z.of_nat j < hi)%Z.
Proof.
  intros Hlo Hhi Hj. unfold in_slice, slice_bound.
  replace (lo <? 0)%Z with false by lia.
  replace (hi <? 0)%Z with false by lia.
  rewrite andb_true_iff. lia.
Qed.

(** ** Text spans *)

Lemma text_span_single T_txt p :
  text_span T_txt [p] (-1) = Ok (0%Z, Z.of_nat T_txt).
Proof. reflexivity. Qed.

Lemma text_span_first T_txt locs p :
  length locs ≠ 1 → locs !! 0 = Some p →
  text_span T_txt locs (-1) = Ok (0%Z, p).
Proof.
  intros Hn Hp. unfold text_span. cbn.
  replace (Z.of_nat (length locs) =? 1)%Z with false by lia.
  change (-1 + 1)%Z with (Z.of_nat 0). by rewrite (getitem_lookup _ _ _ Hp).
Qed.

Lemma text_span_last T_txt locs k p :
  S k = length locs → locs !! k = Some p →
  text_span T_txt locs (Z.of_nat k) = Ok (p, Z.of_nat T_txt).
Proof.
  intros Hn Hp. unfold text_span. cbn zeta.
  replace (Z.of_nat k =? -1)%Z with false by lia.
  replace (Z.of_nat k =? Z.of_nat (length locs) - 1)%Z with true by lia.
  by rewrite (getitem_lookup _ _ _ Hp).
Qed.

Lemma text_span_mid T_txt locs k p q :
  locs !! k = Some p → locs !! S k = Some q →
  text_span T_txt locs (Z.of_nat k) = Ok (p, q).
Proof.
  intros Hp Hq. pose proof (lookup_lt_Some _ _ _ Hq) as Hlt.
  unfold text_span. cbn zeta.
  replace (Z.of_nat k =? -1)%Z with false by lia.
  replace (Z.of_nat k =? Z.of_nat (length locs) - 1)%Z with false by lia.
  rewrite (getitem_lookup _ _ _ Hp). cbn.
  replace (Z.of_nat k + 1)%Z with (Z.of_nat (S k)) by lia.
  by rewrite (getitem_lookup _ _ _ Hq).
Qed.

Lemma text_span_raises T_txt locs i e :
  text_span T_txt locs i = Raise e → e = IndexError.
Proof.
  unfold text_span. cbn zeta. unfold mbind, result_bind.
  repeat match goal with
         | |- context [if ?c then _ else _] => destruct c
         | |- context [getitem ?l ?j] =>
             let H := fresh in
             destruct (getitem l j) eqn:H;
             [|apply getitem_raises in H; subst]
         end; congruence.
Qed.

Lemma text_span_nil T_txt : text_span T_txt [] (-1) = Raise IndexError.
Proof. reflexivity. Qed.

(** With at least one marker every pass of the segment loop finds its
    span. *)
Lemma text_span_ok T_txt locs i :
  locs ≠ [] → i ∈ py_range (-1) (Z.of_nat (length locs)) →
  ∃ span, text_span T_txt locs i = Ok span.
Proof.
  intros Hne Hi. unfold py_range in Hi. apply elem_of_seqZ in Hi.
  destruct (decide (i = -1)%Z) as [->|Hi'].
  - destruct locs as [|p [|q locs]]; [done|by eexists|].
    eexists. by apply text_span_first.
  - assert (Hk : i = Z.of_nat (Z.to_nat i)) by lia. rewrite Hk.
    destruct (lookup_lt_is_Some_2 locs (Z.to_nat i)) as [p Hp]; [lia|].
    destruct (decide (S (Z.to_nat i) = length locs)) as [Hlast|Hmid].
    + eexists. by apply text_span_last.
    + destruct (lookup_lt_is_Some_2 locs (S (Z.to_nat i))) as [q Hq]; [lia|].
      eexists. by eapply text_span_mid.
Qed.

Example text_span_sample :
  text_span 6 [1; 3]%Z <$> py_range (-1) 2
  = [Ok (0, 1); Ok (1, 3); Ok (3, 6)]%Z.
Proof. reflexivity. Qed.

Example py_mod_sample :
  py_mod 8 4 = Ok 0%Z ∧ py_mod 8 (-4) = Ok 0%Z ∧ py_mod 7 (-4) = Ok (-1)%Z ∧
  py_mod 8 0 = Raise ZeroDivisionError.
Proof. repeat split. Qed.

(** A slice end below zero counts from the end of the axis, which is why
    the statements about windows take the window size to be positive. *)
Example negative_slice_end_sample :
  in_slice 8 0 (-2) <$> [0; 5; 6; 7] = [true; true; false; false].
Proof. reflexivity. Qed.

(** ** The two loops of the mask construction *)

Lemma segment_step_ok self T_txt b locs i m ts te :
  text_span T_txt locs i = Ok (ts, te) →
  segment_step self T_txt b locs i m
  = Ok (setitem_true m b ts te
          (if only_attend_immediate_media self
           then Z.max i 0 * max_window_per_audio self else 0)%Z
          ((Z.max i 0 + 1) * max_window_per_audio self)%Z).
Proof. intros Hspan. unfold segment_step. by rewrite Hspan. Qed.

Lemma segment_step_raise self T_txt b locs i m e :
  text_span T_txt locs i = Raise e →
  segment_step self T_txt b locs i m = Raise e.
Proof. intros Hspan. unfold segment_step. by rewrite Hspan. Qed.

Lemma segment_loop self B T_txt L b locs segs m :
  mask_shape B T_txt L m →
  (∀ i, i ∈ segs → ∃ span, text_span T_txt locs i = Ok span) →
  ∃ m', for_each segs (segment_step self T_txt b locs) m = Ok m' ∧
        mask_shape B T_txt L m' ∧
        ∀ b' t s, b' < B → t < T_txt → s < L →
          mask_get m' b' t s
          = mask_get m b' t s
            || (bool_decide (b' = b) &&
                existsb (segment_covers self T_txt L locs t s) segs).
Proof.
  revert m. induction segs as [|i segs IH]; intros m Hm Hok.
  - exists m. split; [done|]. split; [done|]. intros b' t s _ _ _. cbn.
    by rewrite andb_false_r, orb_false_r.
  - destruct (Hok i ltac:(by left)) as [[ts te] Hspan].
    cbn [for_each]. rewrite (segment_step_ok _ _ _ _ _ _ _ _ Hspan). cbn.
    set (m1 := setitem_true _ _ _ _ _ _).
    destruct (IH m1) as (m' & Hrun & Hshape & Hget).
    { by apply setitem_true_shape. }
    { intros j Hj. apply Hok. by right. }
    exists m'. split; [done|]. split; [done|].
    intros b' t s Hb' Ht Hs. rewrite Hget by done. unfold m1.
    rewrite (mask_get_setitem_true B T_txt L) by done.
    unfold segment_covers at 2. rewrite Hspan. cbn zeta.
    destruct (mask_get m b' t s), (bool_decide (b' = b)),
      (in_slice T_txt ts te t), (in_slice L _ _ s), (existsb _ segs);
      reflexivity.
Qed.

Lemma item_step_ok self ml T_txt b m :
  b < t2_d0 ml →
  item_step self ml T_txt b m
  = for_each (py_range (-1) (Z.of_nat (length (nonzero (row_of ml b)))))
      (segment_step self T_txt b (nonzero (row_of ml b))) m.
Proof. intros Hb. unfold item_step, tensor_row. by rewrite decide_True. Qed.

Lemma item_loop self ml B T_txt L bs m :
  mask_shape B T_txt L m →
  (∀ b, b ∈ bs → b < t2_d0 ml ∧ has_marker ml b) →
  ∃ m', for_each bs (item_step self ml T_txt) m = Ok m' ∧
        mask_shape B T_txt L m' ∧
        ∀ b t s, b < B → t < T_txt → s < L →
          mask_get m' b t s
          = mask_get m b t s
            || (bool_decide (b ∈ bs) &&
                existsb (segment_covers self T_txt L (nonzero (row_of ml b)) t s)
                  (py_range (-1) (Z.of_nat (length (nonzero (row_of ml b)))))).
Proof.
  revert m. induction bs as [|b0 bs IH]; intros m Hm Hok.
  - exists m. split; [done|]. split; [done|]. intros b t s _ _ _.
    rewrite bool_decide_eq_false_2 by apply not_elem_of_nil.
    by rewrite orb_false_r.
  - destruct (Hok b0 ltac:(by left)) as [Hb0 Hmark%has_marker_nonzero].
    cbn [for_each]. rewrite item_step_ok by done.
    destruct (segment_loop self B T_txt L b0 (nonzero (row_of ml b0))
                (py_range (-1) (Z.of_nat (length (nonzero (row_of ml b0))))) m)
      as (m1 & Hrun1 & Hshape1 & Hget1); [done| |].
    { intros i Hi. by apply text_span_ok. }
    rewrite Hrun1. cbn.
    destruct (IH m1) as (m' & Hrun & Hshape & Hget); [done| |].
    { intros b Hb. apply Hok. by right. }
    exists m'. split; [done|]. split; [done|].
    intros b t s Hb Ht Hs. rewrite Hget, Hget1 by done.
    destruct (decide (b = b0)) as [->|Hne].
    + rewrite (bool_decide_eq_true_2 (b0 = b0)) by done.
      rewrite (bool_decide_eq_true_2 (b0 ∈ b0 :: bs)) by (by left).
      destruct (mask_get m b0 t s), (existsb _ _), (bool_decide _);
        reflexivity.
    + rewrite (bool_decide_eq_false_2 (b = b0)) by done.
      rewrite (bool_decide_ext (b ∈ b0 :: bs) (b ∈ bs)).
      * by rewrite andb_false_l, orb_false_r.
      * rewrite elem_of_cons. split; [by intros [?|?] | by right].
Qed.

(** Every exception of the mask construction is an [IndexError]. *)
Lemma segment_loop_raises self T_txt b locs segs m e :
  for_each segs (segment_step self T_txt b locs) m = Raise e → e = IndexError.
Proof.
  revert m. induction segs as [|i segs IH]; intros m; [done|].
  cbn [for_each].
  destruct (text_span T_txt locs i) as [[ts te]|e'] eqn:Hspan.
  - rewrite (segment_step_ok _ _ _ _ _ _ _ _ Hspan). apply IH.
  - rewrite (segment_step_raise _ _ _ _ _ _ _ Hspan).
    intros [= <-]. by eapply text_span_raises.
Qed.

Lemma item_step_raises self ml T_txt b m e :
  item_step self ml T_txt b m = Raise e → e = IndexError.
Proof.
  unfold item_step, tensor_row. case_decide; cbn; [|congruence].
  apply segment_loop_raises.
Qed.

(** A batch item whose row has no marker stops the construction. *)
Lemma item_step_no_marker self ml T_txt b m :
  ¬ has_marker ml b → item_step self ml T_txt b m = Raise IndexError.
Proof.
  intros Hno. unfold item_step, tensor_row. case_decide; [|done]. cbn.
  assert (Hnil : nonzero (row_of ml b) = []).
  { destruct (nonzero (row_of ml b)) eqn:Hnz; [done|].
    destruct Hno. apply has_marker_nonzero. by rewrite Hnz. }
  rewrite Hnil. reflexivity.
Qed.

Lemma item_loop_no_marker self ml T_txt bs b m :
  b ∈ bs → ¬ has_marker ml b →
  for_each bs (item_step self ml T_txt) m = Raise IndexError.
Proof.
  intros Hb Hno. revert m. induction bs as [|b0 bs IH]; intros m.
  - by apply elem_of_nil in Hb.
  - cbn [for_each]. unfold mbind, result_bind.
    destruct (item_step self ml T_txt b0 m) as [m1|e] eqn:Hstep.
    + apply elem_of_cons in Hb as [->|Hb]; [|by apply IH].
      by rewrite item_step_no_marker in Hstep.
    + f_equal. by eapply item_step_raises.
Qed.

(** Conversely, a construction that completes has read a marker in every
    row it visited. *)
Lemma item_loop_ok_inv self ml T_txt bs m m' :
  for_each bs (item_step self ml T_txt) m = Ok m' →
  ∀ b, b ∈ bs → b < t2_d0 ml ∧ has_marker ml b.
Proof.
  intros Hrun b Hb. split.
  - revert m Hrun. induction bs as [|b0 bs IH]; intros m Hrun.
    + by apply elem_of_nil in Hb.
    + cbn [for_each] in Hrun. unfold mbind, result_bind in Hrun.
      destruct (item_step self ml T_txt b0 m) as [m1|e] eqn:Hstep; [|done].
      apply elem_of_cons in Hb as [->|Hb]; [|by eapply IH].
      unfold item_step, tensor_row in Hstep. by case_decide.
  - destruct (decide (nonzero (row_of ml b) = [])) as [Hnil|Hne].
    + rewrite (item_loop_no_marker self ml T_txt bs b m) in Hrun; [done|done|].
      rewrite has_marker_nonzero. naive_solver.
    + by apply has_marker_nonzero.
Qed.

(** ** Which segment holds a text position *)

Lemma getitem_elem locs i v : getitem locs i = Ok v → v ∈ locs.
Proof.
  unfold getitem. cbn zeta. destruct (_ && _); [|done].
  destruct (locs !! _) as [w|] eqn:Hw; [|done].
  intros [= <-]. by eapply list_elem_of_lookup_2.
Qed.

Lemma text_span_nonneg T_txt locs i ts te :
  (∀ p, p ∈ locs → (0 ≤ p)%Z) →
  text_span T_txt locs i = Ok (ts, te) → (0 ≤ ts)%Z ∧ (0 ≤ te)%Z.
Proof.
  intros Hpos. unfold text_span. cbn zeta. unfold mbind, result_bind.
  repeat match goal with
         | |- context [if ?c then _ else _] => destruct c
         | |- context [getitem ?l ?j] =>
             let H := fresh in
             destruct (getitem l j) eqn:H;
             [apply getitem_elem, Hpos in H|]
         end; intros [= <- <-]; lia.
Qed.

Lemma nonzero_elem_nonneg row p : p ∈ nonzero row → (0 ≤ p)%Z.
Proof. apply nonzero_from_lb. Qed.

(** With two markers or more, position [t] lies in the span of segment
    [i] exactly when [i + 1] markers are at or before [t]. *)
Lemma span_contains_iff row T_txt t i ts te :
  2 ≤ length (nonzero row) →
  i ∈ py_range (-1) (Z.of_nat (length (nonzero row))) →
  text_span T_txt (nonzero row) i = Ok (ts, te) → t < T_txt →
  (ts ≤ Z.of_nat t < te)%Z
  ↔ Z.of_nat (count_markers (take (S t) row)) = (i + 1)%Z.
Proof.
  intros Hn Hi Hspan Ht. unfold py_range in Hi. apply elem_of_seqZ in Hi.
  pose proof (count_markers_le row t) as Hc.
  destruct (decide (i = -1)%Z) as [->|Hi'].
  - destruct (lookup_lt_is_Some_2 (nonzero row) 0) as [p Hp]; [lia|].
    rewrite (text_span_first _ _ p) in Hspan by (done || lia).
    injection Hspan as <- <-.
    pose proof (marker_le_iff row t 0 p Hp). lia.
  - assert (Hk : i = Z.of_nat (Z.to_nat i)) by lia.
    destruct (lookup_lt_is_Some_2 (nonzero row) (Z.to_nat i)) as [p Hp]; [lia|].
    pose proof (marker_le_iff row t _ p Hp) as Hple.
    rewrite Hk in Hspan.
    destruct (decide (S (Z.to_nat i) = length (nonzero row))) as [Hlast|Hmid].
    + rewrite (text_span_last _ _ _ p) in Hspan by done.
      injection Hspan as <- <-. lia.
    + destruct (lookup_lt_is_Some_2 (nonzero row) (S (Z.to_nat i)))
        as [q Hq]; [lia|].
      pose proof (marker_le_iff row t _ q Hq) as Hqle.
      rewrite (text_span_mid _ _ _ p q) in Hspan by done.
      injection Hspan as <- <-. lia.
Qed.

Lemma segment_covers_iff self T_txt L locs t s i ts te :
  only_attend_immediate_media self = false →
  (0 < max_window_per_audio self)%Z →
  (∀ p, p ∈ locs → (0 ≤ p)%Z) →
  text_span T_txt locs i = Ok (ts, te) → t < T_txt → s < L →
  segment_covers self T_txt L locs t s i = true
  ↔ (ts ≤ Z.of_nat t < te)%Z ∧
    (Z.of_nat s < (Z.max i 0 + 1) * max_window_per_audio self)%Z.
Proof.
  intros Hflag HW Hpos Hspan Ht Hs. unfold segment_covers.
  destruct (text_span_nonneg _ _ _ _ _ Hpos Hspan) as [Hts Hte].
  rewrite Hspan, Hflag. cbn zeta. rewrite andb_true_iff.
  rewrite !in_slice_nonneg by (done || nia). lia.
Qed.

(** Without the immediate-media restriction, text position [t] of a row
    with markers may attend slot [s] exactly when [s] lies in one of the
    windows up to that of the last marker at or before [t]. *)
Lemma segments_cover_slots_up_to_window self T_txt L row t s :
  only_attend_immediate_media self = false →
  (0 < max_window_per_audio self)%Z →
  nonzero row ≠ [] → t < T_txt → s < L →
  existsb (segment_covers self T_txt L (nonzero row) t s)
    (py_range (-1) (Z.of_nat (length (nonzero row))))
  = bool_decide (Z.of_nat s
                 < (Z.of_nat (last_marker_index row t) + 1)
                   * max_window_per_audio self)%Z.
Proof.
  intros Hflag HW Hne Ht Hs. unfold last_marker_index.
  set (c := count_markers (take (S t) row)).
  set (W := max_window_per_audio self) in *.
  pose proof (count_markers_le row t) as Hc. fold c in Hc.
  assert (Hlen : 1 ≤ length (nonzero row)).
  { destruct (nonzero row); [done | cbn; lia]. }
  assert (Hcover : ∀ i, i ∈ py_range (-1) (Z.of_nat (length (nonzero row))) →
    segment_covers self T_txt L (nonzero row) t s i = true
    ↔ ((length (nonzero row) = 1 ∧ i = (-1)%Z) ∨ Z.of_nat c = (i + 1)%Z) ∧
      (Z.of_nat s < (Z.max i 0 + 1) * W)%Z).
  { intros i Hi. destruct (text_span_ok T_txt _ i Hne Hi) as [[ts te] Hspan].
    rewrite (segment_covers_iff self T_txt L _ t s i ts te)
      by (done || apply nonzero_elem_nonneg). fold W.
    destruct (decide (length (nonzero row) = 1)) as [Hone|Hmany].
    - destruct (nonzero row) as [|p [|q l]] eqn:Hlocs; try done.
      unfold py_range in Hi. apply elem_of_seqZ in Hi. cbn in Hi.
      pose proof (marker_le_iff row t 0 p) as Hp. rewrite Hlocs in Hp.
      specialize (Hp eq_refl). fold c in Hp.
      destruct (decide (i = -1)%Z) as [->|Hi'].
      + rewrite text_span_single in Hspan. injection Hspan as <- <-. lia.
      + assert (i = Z.of_nat 0) as -> by lia.
        rewrite (text_span_last _ _ 0 p) in Hspan by done.
        injection Hspan as <- <-. cbn in Hc. lia.
    - rewrite (span_contains_iff row T_txt t i ts te) by (done || lia).
      fold c. lia. }
  destruct (existsb _ _) eqn:Hex; symmetry.
  - apply bool_decide_eq_true_2.
    apply existsb_exists in Hex as (i & Hi%list_elem_of_In & Hcov).
    apply Hcover in Hcov as [Hwhich Hslot]; [|done].
    unfold py_range in Hi. apply elem_of_seqZ in Hi. nia.
  - apply bool_decide_eq_false_2. intros Hslot.
    apply not_true_iff_false in Hex. apply Hex, existsb_exists.
    exists (Z.of_nat c - 1)%Z.
    assert (Hin : (Z.of_nat c - 1)%Z
                  ∈ py_range (-1) (Z.of_nat (length (nonzero row)))).
    { unfold py_range. apply elem_of_seqZ. lia. }
    split; [by apply list_elem_of_In|]. apply Hcover; [done|]. nia.
Qed.

Lemma existsb_unique {A} (f : A → bool) (l : list A) (i : A) :
  i ∈ l → (∀ j, j ∈ l → j ≠ i → f j = false) → existsb f l = f i.
Proof.
  intros Hi Hother. destruct (f i) eqn:Hfi.
  - apply existsb_exists. exists i. split; [by apply list_elem_of_In | done].
  - apply not_true_iff_false. intros (j & Hj%list_elem_of_In & Hfj)%existsb_exists.
    destruct (decide_rel (=) (f j) (f i)) as [Heq|Hne]; [congruence|].
    rewrite Hother in Hfj; [done|done|]. intros ->. congruence.
Qed.

Lemma segment_covers_span self T_txt L locs t s i ts te :
  only_attend_immediate_media self = false →
  (∀ p, p ∈ locs → (0 ≤ p)%Z) →
  text_span T_txt locs i = Ok (ts, te) → t < T_txt →
  segment_covers self T_txt L locs t s i
  = bool_decide (span_contains (ts, te) t)
    && in_slice L 0 ((Z.max i 0 + 1) * max_window_per_audio self) s.
Proof.
  intros Hflag Hpos Hspan Ht. unfold segment_covers, span_contains.
  destruct (text_span_nonneg _ _ _ _ _ Hpos Hspan) as [Hts Hte].
  rewrite Hspan, Hflag. cbn zeta. f_equal.
  pose proof (in_slice_nonneg T_txt ts te t Hts Hte Ht) as Hiff. cbn [fst snd].
  destruct (in_slice T_txt ts te t); symmetry.
  - apply bool_decide_eq_true_2. by apply Hiff.
  - apply bool_decide_eq_false_2. intros Hin. by apply Hiff in Hin.
Qed.

(** ** [forward] as a whole *)

Section Forward.

Variable finfo_max : R.
Variable similarity :
  MaskedCrossAttention → Tensor3 float → Tensor4 float → Tensor4 float.
Variable attend :
  MaskedCrossAttention → Tensor4 float → Tensor4 float → nat → nat → nat → float.
Variable feed_forward : list float → Tensor3 float → nat → nat → nat → float.

Local Abbreviation forward :=
  (MaskedCrossAttention_forward finfo_max similarity attend).
Local Abbreviation forward_value :=
  (forward_result finfo_max similarity attend).
Local Abbreviation padded_scores := (padded_sim finfo_max similarity).
Local Abbreviation block_forward :=
  (GatedCrossAttentionBlock_forward finfo_max similarity attend feed_forward).

(** [forward] only reads its module, and its outcome is [forward_result]. *)
Lemma forward_run self x media media_mask media_locations use_cached_media :
  forward x media media_mask media_locations use_cached_media self
  = (self, forward_value self x media media_mask media_locations
             use_cached_media).
Proof.
  unfold MaskedCrossAttention_forward, forward_result, entry_checks,
    padded_sim.
  unfold mbind at 1, method_bind at 1.
  assert (Hfirst :
    (if negb use_cached_media
     then match media_locations with
          | None => lift (Raise AttributeError)
          | Some ml => lift (py_assert (t2_d1 ml =? t3_d1 x))
          end
     else mret tt : method MaskedCrossAttention unit) self
    = (self, if negb use_cached_media
             then match media_locations with
                  | None => Raise AttributeError
                  | Some ml => py_assert (t2_d1 ml =? t3_d1 x)
                  end
             else Ok tt)).
  { destruct use_cached_media, media_locations; reflexivity. }
  rewrite Hfirst; clear Hfirst.
  set (first := if negb use_cached_media then _ else _).
  destruct first as [[]|e]; [|reflexivity].
  unfold mbind, method_bind, result_bind, lift, getself, getattr.
  destruct (py_assert (t4_d2 media =? 1)) as [[]|e]; [|reflexivity].
  destruct (py_mod _ _) as [r|e]; [|reflexivity].
  destruct (py_assert (r =? 0)%Z) as [[]|e]; [|reflexivity].
  destruct (py_assert (negb _)) as [[]|e]; [|reflexivity].
  destruct media_locations as [ml|].
  - rewrite build_few_shot_mask_run.
    destruct (for_each _ _ _) as [m|e]; [|reflexivity].
    unfold mret, method_ret.
    destruct (_ && _); reflexivity.
  - unfold mret, method_ret.
    destruct (_ && _); reflexivity.
Qed.

Lemma forward_outcome self x media media_mask media_locations use_cached_media :
  outcome (forward x media media_mask media_locations use_cached_media) self
  = forward_value self x media media_mask media_locations use_cached_media.
Proof. unfold outcome. by rewrite forward_run. Qed.

Lemma forward_module_after self x media media_mask media_locations
  use_cached_media :
  module_after (forward x media media_mask media_locations use_cached_media) self
  = self.
Proof. unfold module_after. by rewrite forward_run. Qed.

Lemma py_assert_ok cond : py_assert cond = Ok tt ↔ cond = true.
Proof. destruct cond; cbn; split; congruence. Qed.

Lemma py_assert_raises cond e : py_assert cond = Raise e → e = AssertionError.
Proof. destruct cond; cbn; congruence. Qed.

(** What passing the assertions at the head of [forward] means. *)
Lemma entry_checks_ok self x media media_locations use_cached_media :
  entry_checks self x media media_locations use_cached_media = Ok tt
  ↔ (use_cached_media = true ∨
     ∃ ml, media_locations = Some ml ∧ t2_d1 ml = t3_d1 x) ∧
    t4_d2 media = 1 ∧
    max_window_per_audio self ≠ 0%Z ∧
    (Z.of_nat (t4_d1 media) mod max_window_per_audio self = 0)%Z.
Proof.
  unfold entry_checks, py_mod, mbind, result_bind.
  destruct use_cached_media; cbn [negb].
  - destruct (t4_d2 media =? 1) eqn:Hd; cbn.
    + apply Nat.eqb_eq in Hd.
      destruct (max_window_per_audio self =? 0)%Z eqn:HW.
      * split; [done|]. lia.
      * rewrite py_assert_ok. split; [|lia]. intros ?. split; [by left|]. lia.
    + apply Nat.eqb_neq in Hd. split; [done|]. lia.
  - destruct media_locations as [ml|].
    + destruct (t2_d1 ml =? t3_d1 x) eqn:Hml; cbn.
      * apply Nat.eqb_eq in Hml.
        destruct (t4_d2 media =? 1) eqn:Hd; cbn.
        -- apply Nat.eqb_eq in Hd.
           destruct (max_window_per_audio self =? 0)%Z eqn:HW.
           ++ split; [done|]. lia.
           ++ rewrite py_assert_ok. split; [|lia].
              intros ?. split; [right; eauto|]. lia.
        -- apply Nat.eqb_neq in Hd. split; [done|]. lia.
      * apply Nat.eqb_neq in Hml. split; [done|].
        intros [[?|(ml' & [= <-] & ?)] _]; done.
    + split; [done|]. intros [[?|(ml' & ? & ?)] _]; done.
Qed.

(** [forward] returns exactly when the assertions pass, the flag is
    [False] and every batch item has a row with a marker; what it holds
    then is determined. *)
Lemma forward_result_ok self x media media_mask ml use_cached_media :
  entry_checks self x media (Some ml) use_cached_media = Ok tt →
  only_attend_immediate_media self = false →
  (∀ b, b < t4_d0 media → b < t2_d0 ml ∧ has_marker ml b) →
  ∃ m,
    forward_value self x media media_mask (Some ml) use_cached_media
    = Ok (mkLocals (Some m)
            (masked_fill (padded_scores self x media media_mask)
               (invert (unsqueeze1 m)) (Finite (- finfo_max)))
            (mkTensor3 (t3_d0 x) (t3_d1 x) (t3_d2 x)
               (attend self
                  (masked_fill (padded_scores self x media media_mask)
                     (invert (unsqueeze1 m)) (Finite (- finfo_max))) media))) ∧
    for_each (seq 0 (t4_d0 media)) (item_step self ml (t3_d1 x))
      (zeros (t4_d0 media) (t3_d1 x) (t4_d1 media)) = Ok m.
Proof.
  intros Hentry Hflag Hrows.
  destruct (item_loop self ml (t4_d0 media) (t3_d1 x) (t4_d1 media)
              (seq 0 (t4_d0 media))
              (zeros (t4_d0 media) (t3_d1 x) (t4_d1 media)))
    as (m & Hrun & _ & _).
  { apply zeros_shape. }
  { intros b Hb%elem_of_seq. apply Hrows. lia. }
  exists m. split; [|done].
  unfold forward_result. rewrite Hentry, Hflag. cbn.
  rewrite Hrun. reflexivity.
Qed.

Lemma forward_result_none self x media media_mask :
  entry_checks self x media None true = Ok tt →
  only_attend_immediate_media self = false →
  forward_value self x media media_mask None true
  = Ok (mkLocals None (padded_scores self x media media_mask)
          (mkTensor3 (t3_d0 x) (t3_d1 x) (t3_d2 x)
             (attend self (padded_scores self x media media_mask) media))).
Proof.
  intros Hentry Hflag. unfold forward_result.
  rewrite Hentry, Hflag. reflexivity.
Qed.

Lemma forward_result_inv self x media media_mask media_locations
  use_cached_media locals :
  forward_value self x media media_mask media_locations use_cached_media
  = Ok locals →
  entry_checks self x media media_locations use_cached_media = Ok tt ∧
  only_attend_immediate_media self = false ∧
  out_of locals = mkTensor3 (t3_d0 x) (t3_d1 x) (t3_d2 x)
                    (attend self (sim_of locals) media) ∧
  match media_locations with
  | Some ml =>
      ∃ m, few_shot_mask_of locals = Some m ∧
           for_each (seq 0 (t4_d0 media)) (item_step self ml (t3_d1 x))
             (zeros (t4_d0 media) (t3_d1 x) (t4_d1 media)) = Ok m ∧
           sim_of locals
           = masked_fill (padded_scores self x media media_mask)
               (invert (unsqueeze1 m)) (Finite (- finfo_max))
  | None =>
      few_shot_mask_of locals = None ∧
      sim_of locals = padded_scores self x media media_mask
  end.
Proof.
  unfold forward_result, mbind, result_bind.
  destruct (entry_checks _ _ _ _ _) as [[]|e]; [|done].
  destruct (only_attend_immediate_media self); [done|]. cbn [negb py_assert].
  rewrite andb_false_r.
  destruct media_locations as [ml|].
  - destruct (for_each _ _ _) as [m|e]; [|done].
    intros [= <-]. cbn. repeat split. by exists m.
  - intros [= <-]. cbn. repeat split.
Qed.

(** With the flag set, [forward] stops at its flag assertion at the
    latest. *)
Lemma forward_result_flag self x media media_mask media_locations
  use_cached_media :
  only_attend_immediate_media self = true →
  forward_value self x media media_mask media_locations use_cached_media
  = match entry_checks self x media media_locations use_cached_media with
    | Ok _ => Raise AssertionError
    | Raise e => Raise e
    end.
Proof.
  intros Hflag. unfold forward_result, mbind, result_bind.
  destruct (entry_checks _ _ _ _ _) as [[]|e]; [|done]. by rewrite Hflag.
Qed.

(** The entries of the mask [forward] builds. *)
Lemma few_shot_mask_entries self ml B T_txt L m :
  for_each (seq 0 B) (item_step self ml T_txt) (zeros B T_txt L) = Ok m →
  mask_shape B T_txt L m ∧
  (∀ b, b < B → b < t2_d0 ml ∧ has_marker ml b) ∧
  ∀ b t s, b < B → t < T_txt → s < L →
    mask_get m b t s
    = existsb (segment_covers self T_txt L (nonzero (row_of ml b)) t s)
        (py_range (-1) (Z.of_nat (length (nonzero (row_of ml b))))).
Proof.
  intros Hrun.
  assert (Hrows : ∀ b, b ∈ seq 0 B → b < t2_d0 ml ∧ has_marker ml b).
  { by eapply item_loop_ok_inv. }
  destruct (item_loop self ml B T_txt L (seq 0 B) (zeros B T_txt L))
    as (m' & Hrun' & Hshape & Hget); [apply zeros_shape | done |].
  rewrite Hrun in Hrun'. injection Hrun' as <-.
  split; [done|]. split.
  - intros b Hb. apply Hrows, elem_of_seq. lia.
  - intros b t s Hb Ht Hs. rewrite Hget, mask_get_zeros by done. cbn.
    rewrite bool_decide_eq_true_2; [done|]. apply elem_of_seq. lia.
Qed.

Lemma few_shot_mask_rule self ml B T_txt L m b t s :
  for_each (seq 0 B) (item_step self ml T_txt) (zeros B T_txt L) = Ok m →
  only_attend_immediate_media self = false →
  (0 < max_window_per_audio self)%Z →
  b < B → t < T_txt → s < L →
  mask_get m b t s = true
  ↔ (Z.of_nat s
     < (Z.of_nat (last_marker_index (row_of ml b) t) + 1)
       * max_window_per_audio self)%Z.
Proof.
  intros Hrun Hflag HW Hb Ht Hs.
  destruct (few_shot_mask_entries _ _ _ _ _ _ Hrun) as (_ & Hrows & Hget).
  rewrite Hget by done.
  rewrite segments_cover_slots_up_to_window; try done.
  - apply bool_decide_eq_true.
  - apply has_marker_nonzero, Hrows, Hb.
Qed.

(** C1, amended.  With [only_attend_immediate_media] set to [False] and a
    positive window size, in the mask that [forward] builds every text position [t]
    of a batch item whose row has a marker may attend audio slot [s]
    exactly when [s < (k + 1) * max_window_per_audio], [k] being the index
    of the last marker at or before [t] (0 when [t] precedes the first
    marker); every other slot is disallowed.  The mask is built whenever
    the entry assertions pass and every batch item has a row with a
    marker. *)
Theorem few_shot_mask_attends_windows_up_to_last_marker
  self x media media_mask ml use_cached_media :
  (0 < max_window_per_audio self)%Z →
  (∀ locals m,
     outcome (forward x media media_mask (Some ml) use_cached_media) self
     = Ok locals →
     few_shot_mask_of locals = Some m →
     only_attend_immediate_media self = false ∧
     ∀ b, b < t4_d0 media → has_marker ml b →
       ∀ t s, t < t3_d1 x → s < t4_d1 media →
         mask_get m b t s = true
         ↔ (Z.of_nat s
            < (Z.of_nat (last_marker_index (row_of ml b) t) + 1)
              * max_window_per_audio self)%Z) ∧
  (only_attend_immediate_media self = false →
   entry_checks self x media (Some ml) use_cached_media = Ok tt →
   (∀ b, b < t4_d0 media → b < t2_d0 ml ∧ has_marker ml b) →
   ∃ locals m,
     outcome (forward x media media_mask (Some ml) use_cached_media) self
     = Ok locals ∧
     few_shot_mask_of locals = Some m).
Proof.
  intros HW. split.
  - intros locals m Hout Hm. rewrite forward_outcome in Hout.
    apply forward_result_inv in Hout
      as (_ & Hflag & _ & m' & Hm' & Hrun & _).
    rewrite Hm in Hm'. injection Hm' as <-. split; [done|].
    intros b Hb _ t s Ht Hs. by eapply few_shot_mask_rule.
  - intros Hflag Hentry Hrows.
    destruct (forward_result_ok self x media media_mask ml use_cached_media)
      as (m & Hres & _); try done.
    eexists _, m. rewrite forward_outcome. split; [exact Hres | reflexivity].
Qed.

(** C2, amended.  For a batch item with at least two markers the passes of
    the segment loop cut the text into contiguous spans that do not overlap:
    the first runs from position 0 to the first marker, the span of marker
    [i] runs from that marker to the next one, the last one runs to the end
    of the sequence; every text position lies in exactly one span, and its
    row of the mask is the slice of slots assigned in the pass of that span.
    For an item with exactly one marker the two passes use the overlapping
    spans [0:T_txt] and [p:T_txt] and both assign the first window. *)
Theorem segments_partition_text_of_item_with_two_markers
  self x media media_mask ml use_cached_media locals m b :
  outcome (forward x media media_mask (Some ml) use_cached_media) self
  = Ok locals →
  few_shot_mask_of locals = Some m →
  b < t4_d0 media →
  let locs := nonzero (row_of ml b) in
  let T_txt := t3_d1 x in
  let L := t4_d1 media in
  let W := max_window_per_audio self in
  (2 ≤ length locs →
   (∀ p, locs !! 0 = Some p → text_span T_txt locs (-1) = Ok (0%Z, p)) ∧
   (∀ i p q, locs !! i = Some p → locs !! S i = Some q →
      text_span T_txt locs (Z.of_nat i) = Ok (p, q)) ∧
   (∀ i p, S i = length locs → locs !! i = Some p →
      text_span T_txt locs (Z.of_nat i) = Ok (p, Z.of_nat T_txt)) ∧
   ∀ t, t < T_txt →
     ∃ i span,
       i ∈ py_range (-1) (Z.of_nat (length locs)) ∧
       text_span T_txt locs i = Ok span ∧ span_contains span t ∧
       (∀ j span', j ∈ py_range (-1) (Z.of_nat (length locs)) →
          text_span T_txt locs j = Ok span' → span_contains span' t → j = i) ∧
       ∀ s, s < L →
         mask_get m b t s = in_slice L 0 ((Z.max i 0 + 1) * W) s) ∧
  (length locs = 1 →
   ∀ p, locs !! 0 = Some p →
     text_span T_txt locs (-1) = Ok (0%Z, Z.of_nat T_txt) ∧
     text_span T_txt locs 0 = Ok (p, Z.of_nat T_txt) ∧
     ∀ t s, t < T_txt → s < L → mask_get m b t s = in_slice L 0 W s).
Proof.
  intros Hout Hm Hb locs T_txt L W. rewrite forward_outcome in Hout.
  apply forward_result_inv in Hout as (_ & Hflag & _ & m' & Hm' & Hrun & _).
  rewrite Hm in Hm'. injection Hm' as <-.
  destruct (few_shot_mask_entries _ _ _ _ _ _ Hrun) as (_ & Hrows & Hget).
  assert (Hpos : ∀ p, p ∈ locs → (0 ≤ p)%Z) by apply nonzero_elem_nonneg.
  split.
  - intros Hn. split; [|split; [|split]].
    + intros p Hp. apply text_span_first; [lia | done].
    + intros i p q Hp Hq. by apply text_span_mid.
    + intros i p Hi Hp. by apply text_span_last.
    + intros t Ht.
      set (c := count_markers (take (S t) (row_of ml b))).
      pose proof (count_markers_le (row_of ml b) t) as Hc. fold c locs in Hc.
      assert (Hin : (Z.of_nat c - 1)%Z
                    ∈ py_range (-1) (Z.of_nat (length locs))).
      { unfold py_range. apply elem_of_seqZ. lia. }
      assert (Hne : locs ≠ []) by (intros Hnil; rewrite Hnil in Hn; cbn in Hn; lia).
      destruct (text_span_ok T_txt locs (Z.of_nat c - 1)%Z Hne Hin)
        as [[ts te] Hspan].
      assert (Hcont : span_contains (ts, te) t).
      { apply (span_contains_iff (row_of ml b) T_txt t (Z.of_nat c - 1) ts te);
          try done. fold c. lia. }
      exists (Z.of_nat c - 1)%Z, (ts, te).
      split; [done|]. split; [done|]. split; [done|]. split.
      * intros j [ts' te'] Hj Hspan' Hcont'.
        apply (span_contains_iff (row_of ml b) T_txt t j ts' te') in Hcont';
          try done. fold c in Hcont'. lia.
      * intros s Hs. rewrite Hget by done. fold locs.
        rewrite (existsb_unique _ _ (Z.of_nat c - 1)%Z); [|done|].
        -- rewrite (segment_covers_span _ _ _ _ _ _ _ ts te) by done.
           by rewrite bool_decide_eq_true_2.
        -- intros j Hj Hne'.
           destruct (text_span_ok T_txt locs j Hne Hj) as [[ts' te'] Hspan'].
           rewrite (segment_covers_span _ _ _ _ _ _ _ ts' te') by done.
           rewrite bool_decide_eq_false_2; [done|]. intros Hcont'.
           apply (span_contains_iff (row_of ml b) T_txt t j ts' te') in Hcont';
             try done. fold c in Hcont'. lia.
  - intros Hn p Hp.
    destruct locs as [|p' [|q l]] eqn:Hlocs; try done.
    injection Hp as ->. split; [apply text_span_single|].
    split; [by apply (text_span_last _ _ 0 p)|].
    intros t s Ht Hs. rewrite Hget by done. fold locs. rewrite Hlocs.
    change (py_range (-1) (Z.of_nat (length [p]))) with [(-1)%Z; 0%Z].
    cbn [existsb].
    rewrite (segment_covers_span _ _ _ _ _ _ _ 0%Z (Z.of_nat T_txt));
      [|done|exact Hpos|apply text_span_single|done].
    rewrite (segment_covers_span _ _ _ _ _ _ _ p (Z.of_nat T_txt));
      [|done|exact Hpos|by apply (text_span_last _ _ 0 p)|done].
    rewrite (bool_decide_eq_true_2 (span_contains (0%Z, Z.of_nat T_txt) t))
      by (unfold span_contains; cbn; lia).
    change ((Z.max (-1) 0 + 1) * max_window_per_audio self)%Z
      with (1 * W)%Z.
    change ((Z.max 0 0 + 1) * max_window_per_audio self)%Z with (1 * W)%Z.
    rewrite Z.mul_1_l. unfold L.
    destruct (in_slice (t4_d1 media) 0 W s), (bool_decide _); reflexivity.
Qed.

(** The scores [forward] hands to the softmax, by the two masks as the
    code reads them. *)
Lemma scores_after_both_masks
  self x media media_mask ml use_cached_media locals :
  outcome (forward x media media_mask (Some ml) use_cached_media) self
  = Ok locals →
  ∃ m, few_shot_mask_of locals = Some m ∧
       (∀ b h t s,
          t4_at (sim_of locals) b h t s
          = if rearrange_media_mask media_mask b h t s && mask_get m b t s
            then t4_at (similarity self x media) b h t s
            else Finite (- finfo_max)) ∧
       out_of locals
       = mkTensor3 (t3_d0 x) (t3_d1 x) (t3_d2 x)
           (attend self (sim_of locals) media).
Proof.
  intros Hout. rewrite forward_outcome in Hout.
  apply forward_result_inv in Hout as (_ & _ & Hattend & m & Hm & _ & Hsim).
  exists m. split; [done|]. split; [|done].
  intros b h t s. rewrite Hsim.
  unfold padded_sim, masked_fill, invert, unsqueeze1. cbn.
  destruct (mask_get m b t s), (rearrange_media_mask media_mask b h t s);
    reflexivity.
Qed.

(** With the extra axis of size 1, the rearranged padding mask at slot [s]
    is the entry [media_mask[b, s, 0]], read as a boolean. *)
Lemma rearrange_media_mask_entry media_mask b h t s :
  t3_d2 media_mask = 1 →
  rearrange_media_mask media_mask b h t s
  = bool_decide (t3_at media_mask b s 0 ≠ 0%Z).
Proof.
  intros Hn. unfold rearrange_media_mask.
  rewrite Hn, Nat.div_1_r, Nat.mod_1_r.
  destruct (Z.eqb_spec (t3_at media_mask b s 0) 0) as [Heq|Hne]; cbn.
  - by rewrite bool_decide_eq_false_2 by (by intros []).
  - by rewrite bool_decide_eq_true_2.
Qed.

(** C3. In a call with [media_locations] that returns, with a padding
    mask [media_mask] of shape (B, L, 1): the score of text position [t]
    and audio slot [s] reaches the softmax unchanged when the entry
    [media_mask[b, s, 0]] is not zero and the location mask allows the
    pair, and is replaced by [-torch.finfo(dtype).max] otherwise; the masked
    scores are the ones the softmax and the output are computed from. *)
Theorem masks_combined_by_and_before_softmax
  self x media media_mask ml use_cached_media locals :
  outcome (forward x media media_mask (Some ml) use_cached_media) self
  = Ok locals →
  t3_d0 media_mask = t4_d0 media → t3_d1 media_mask = t4_d1 media →
  t3_d2 media_mask = 1 →
  ∃ m, few_shot_mask_of locals = Some m ∧
       (∀ b h t s,
          b < t4_d0 media → t < t3_d1 x → s < t4_d1 media →
          t4_at (sim_of locals) b h t s
          = if bool_decide (t3_at media_mask b s 0 ≠ 0%Z ∧
                            mask_get m b t s = true)
            then t4_at (similarity self x media) b h t s
            else Finite (- finfo_max)) ∧
       out_of locals
       = mkTensor3 (t3_d0 x) (t3_d1 x) (t3_d2 x)
           (attend self (sim_of locals) media).
Proof.
  intros Hout _ _ Hn.
  destruct (scores_after_both_masks _ _ _ _ _ _ _ Hout)
    as (m & Hm & Hsim & Hattend).
  exists m. split; [done|]. split; [|done].
  intros b h t s _ _ _.
  rewrite Hsim, (rearrange_media_mask_entry _ _ _ _ _ Hn).
  destruct (decide (t3_at media_mask b s 0 ≠ 0%Z)) as [Hpad|Hpad].
  - rewrite (bool_decide_eq_true_2 _ Hpad). cbn [andb].
    destruct (mask_get m b t s).
    + by rewrite bool_decide_eq_true_2.
    + by rewrite bool_decide_eq_false_2 by (by intros [_ ?]).
  - rewrite (bool_decide_eq_false_2 _ Hpad). cbn [andb].
    by rewrite bool_decide_eq_false_2 by (by intros [? _]).
Qed.

(** C4, amended.  When the entry assertions pass,
    [only_attend_immediate_media] is [False] and, if [media_locations] is
    given, it has a row with at least one marker for every batch item, the
    assertions and the mask construction of [forward] raise nothing and
    [forward] returns (the calls into the tensor library being taken to
    succeed). *)
Theorem forward_returns_when_flag_clear_and_rows_marked
  self x media media_mask media_locations use_cached_media :
  entry_checks self x media media_locations use_cached_media = Ok tt →
  only_attend_immediate_media self = false →
  (∀ ml, media_locations = Some ml →
     ∀ b, b < t4_d0 media → b < t2_d0 ml ∧ has_marker ml b) →
  ∃ locals,
    outcome (forward x media media_mask media_locations use_cached_media) self
    = Ok locals.
Proof.
  intros Hentry Hflag Hrows. rewrite forward_outcome.
  destruct media_locations as [ml|].
  - destruct (forward_result_ok self x media media_mask ml use_cached_media)
      as (m & Hres & _); eauto.
  - assert (use_cached_media = true) as ->.
    { apply entry_checks_ok in Hentry as [[?|(ml & ? & _)] _]; done. }
    rewrite forward_result_none by done. eauto.
Qed.

Lemma count_markers_zero l : (∀ v, v ∈ l → v = 0%Z) → count_markers l = 0.
Proof.
  unfold count_markers. induction l as [|v l IH]; intros Hl; [done|].
  rewrite filter_cons_False.
  - apply IH. intros w ?. apply Hl. by right.
  - intros Hv. apply Hv, Hl. by left.
Qed.

Lemma last_marker_index_before_first ml b t :
  (∀ j, j ≤ t → j < t2_d1 ml → t2_at ml b j = 0%Z) →
  last_marker_index (row_of ml b) t = 0.
Proof.
  intros Hnone. unfold last_marker_index. rewrite count_markers_zero; [done|].
  intros v (i & Hi)%list_elem_of_lookup_1.
  apply lookup_take_Some in Hi as [Hi Hlt]. unfold row_of in Hi.
  rewrite list_lookup_fmap in Hi.
  destruct (seq 0 (t2_d1 ml) !! i) as [j|] eqn:Hj; [|done].
  apply lookup_seq in Hj as [-> Hj]. injection Hi as <-.
  apply Hnone; [lia | done].
Qed.

Lemma entry_checks_raises self x media media_locations use_cached_media e :
  entry_checks self x media media_locations use_cached_media = Raise e →
  use_cached_media = true ∨ is_Some media_locations →
  max_window_per_audio self ≠ 0%Z →
  e = AssertionError.
Proof.
  unfold entry_checks, py_mod, mbind, result_bind. intros Hraise Hloc HW.
  replace (max_window_per_audio self =? 0)%Z with false in Hraise by lia.
  assert (Hfirst : ∀ e',
    (if negb use_cached_media
     then match media_locations with
          | Some ml => py_assert (t2_d1 ml =? t3_d1 x)
          | None => Raise AttributeError
          end
     else Ok ()) = Raise e' → e' = AssertionError).
  { destruct use_cached_media; [done|]. cbn.
    destruct Hloc as [?|[ml ->]]; [done|]. apply py_assert_raises. }
  destruct (if negb use_cached_media then _ else _) as [[]|e1];
    [|injection Hraise as <-; by apply Hfirst].
  destruct (py_assert (t4_d2 media =? 1)) as [[]|e2] eqn:H2;
    [|injection Hraise as <-; by eapply py_assert_raises].
  by eapply py_assert_raises.
Qed.

(** C5, amended.  In the mask that [forward] builds (window size
    positive), a text position with no marker at or before it may attend
    exactly the first window, slots 0 to [max_window_per_audio - 1].  With
    [only_attend_immediate_media] set to [True], [forward] raises on every
    input, so no attention weights are produced. *)
Theorem positions_before_first_marker_attend_first_window
  self x media media_mask use_cached_media :
  (∀ ml locals m,
     outcome (forward x media media_mask (Some ml) use_cached_media) self
     = Ok locals →
     few_shot_mask_of locals = Some m →
     (0 < max_window_per_audio self)%Z →
     ∀ b t, b < t4_d0 media → t < t3_d1 x →
       (∀ j, j ≤ t → j < t2_d1 ml → t2_at ml b j = 0%Z) →
       ∀ s, s < t4_d1 media →
         mask_get m b t s = true
         ↔ (Z.of_nat s < max_window_per_audio self)%Z) ∧
  (only_attend_immediate_media self = true →
   ∀ media_locations,
     raises (outcome (forward x media media_mask media_locations
                        use_cached_media) self)).
Proof.
  split.
  - intros ml locals m Hout Hm HW b t Hb Ht Hnone s Hs.
    rewrite forward_outcome in Hout.
    apply forward_result_inv in Hout as (_ & Hflag & _ & m' & Hm' & Hrun & _).
    rewrite Hm in Hm'. injection Hm' as <-.
    rewrite (few_shot_mask_rule _ _ _ _ _ _ _ _ _ Hrun) by done.
    rewrite last_marker_index_before_first by done. lia.
  - intros Hflag media_locations. rewrite forward_outcome.
    rewrite forward_result_flag by done. unfold raises.
    destruct (entry_checks _ _ _ _ _); eauto.
Qed.

Lemma for_each_ext {I S} (xs : list I) (f g : I → S → result S) s :
  (∀ i s, f i s = g i s) → for_each xs f s = for_each xs g s.
Proof.
  intros Hfg. revert s. induction xs as [|i xs IH]; intros s; [done|].
  cbn [for_each]. rewrite Hfg. unfold mbind, result_bind.
  destruct (g i s); [apply IH | done].
Qed.

Lemma item_step_ext self1 self2 ml T_txt b m :
  max_window_per_audio self1 = max_window_per_audio self2 →
  only_attend_immediate_media self1 = only_attend_immediate_media self2 →
  item_step self1 ml T_txt b m = item_step self2 ml T_txt b m.
Proof.
  intros HW Hflag. unfold item_step, mbind, result_bind.
  destruct (tensor_row ml b) as [row|]; [|done].
  apply for_each_ext. intros i s. unfold segment_step. by rewrite HW, Hflag.
Qed.

(** C6, amended.  Two calls of [forward] with the same text length, the
    same [media_locations], the same [max_window_per_audio], the same flag
    and the same batch size and number of audio slots build the same
    [few_shot_mask], whatever the entries of [x], [media] and [media_mask]
    and the parameters of the module are; and a call leaves the module as it
    found it. *)
Theorem few_shot_mask_is_a_function_of_shapes_and_locations
  self1 self2 x1 x2 media1 media2 media_mask1 media_mask2 media_locations
  use_cached1 use_cached2 locals1 locals2 :
  t3_d1 x1 = t3_d1 x2 →
  t4_d0 media1 = t4_d0 media2 →
  t4_d1 media1 = t4_d1 media2 →
  max_window_per_audio self1 = max_window_per_audio self2 →
  only_attend_immediate_media self1 = only_attend_immediate_media self2 →
  outcome (forward x1 media1 media_mask1 media_locations use_cached1) self1
  = Ok locals1 →
  outcome (forward x2 media2 media_mask2 media_locations use_cached2) self2
  = Ok locals2 →
  few_shot_mask_of locals1 = few_shot_mask_of locals2 ∧
  module_after (forward x1 media1 media_mask1 media_locations use_cached1) self1
  = self1 ∧
  module_after (forward x2 media2 media_mask2 media_locations use_cached2) self2
  = self2.
Proof.
  intros HT HB HL HW Hflag Hout1 Hout2.
  rewrite !forward_module_after. split; [|done].
  rewrite forward_outcome in Hout1, Hout2.
  apply forward_result_inv in Hout1 as (_ & _ & _ & Hloc1).
  apply forward_result_inv in Hout2 as (_ & _ & _ & Hloc2).
  destruct media_locations as [ml|].
  - destruct Hloc1 as (m1 & -> & Hrun1 & _).
    destruct Hloc2 as (m2 & -> & Hrun2 & _).
    rewrite HT, HB, HL in Hrun1.
    rewrite (for_each_ext _ _ (item_step self2 ml (t3_d1 x2))) in Hrun1
      by (intros; by apply item_step_ext).
    congruence.
  - destruct Hloc1 as [-> _], Hloc2 as [-> _]. done.
Qed.

(** C8, amended.  A module built with [only_attend_immediate_media] equal
    to [True], which is what the constructor takes when the keyword is left
    out, has a [forward] that raises on every input; the exception is
    [AssertionError] whenever [media_locations] is given or
    [use_cached_media] is set, and [max_window_per_audio] is not zero. *)
Theorem forward_of_default_module_always_raises
  dim dim_audio W dim_head heads flag weights
  x media media_mask media_locations use_cached_media :
  flag = None ∨ flag = Some true →
  let self := MaskedCrossAttention_init dim dim_audio W dim_head heads flag
                weights in
  only_attend_immediate_media self = true ∧
  raises (outcome (forward x media media_mask media_locations use_cached_media)
            self) ∧
  (use_cached_media = true ∨ is_Some media_locations → W ≠ 0%Z →
   outcome (forward x media media_mask media_locations use_cached_media) self
   = Raise AssertionError).
Proof.
  intros Hdefault self.
  assert (Hflag : only_attend_immediate_media self = true).
  { destruct Hdefault as [->| ->]; reflexivity. }
  split; [done|]. rewrite forward_outcome, forward_result_flag by done.
  split.
  - unfold raises. destruct (entry_checks _ _ _ _ _); eauto.
  - intros Hloc HW.
    destruct (entry_checks _ _ _ _ _) as [[]|e] eqn:Hentry; [done|].
    f_equal. by eapply entry_checks_raises.
Qed.

(** C9. If the row of some batch item has no nonzero entry, [forward]
    raises instead of building a mask: reading position 0 of the empty
    marker list is an [IndexError], which is the outcome whenever the
    assertions before the mask construction pass. *)
Theorem forward_raises_on_item_without_marker
  self x media media_mask ml use_cached_media b :
  b < t4_d0 media → ¬ has_marker ml b →
  raises (outcome (forward x media media_mask (Some ml) use_cached_media) self) ∧
  (entry_checks self x media (Some ml) use_cached_media = Ok tt →
   only_attend_immediate_media self = false →
   outcome (forward x media media_mask (Some ml) use_cached_media) self
   = Raise IndexError) ∧
  nonzero (row_of ml b) = [] ∧
  text_span (t3_d1 x) (nonzero (row_of ml b)) (-1) = Raise IndexError.
Proof.
  intros Hb Hno.
  assert (Hloop :
    for_each (seq 0 (t4_d0 media)) (item_step self ml (t3_d1 x))
      (zeros (t4_d0 media) (t3_d1 x) (t4_d1 media)) = Raise IndexError).
  { apply (item_loop_no_marker _ _ _ _ b); [|done]. apply elem_of_seq. lia. }
  assert (Hnil : nonzero (row_of ml b) = []).
  { destruct (nonzero (row_of ml b)) eqn:Hnz; [done|].
    destruct Hno. apply has_marker_nonzero. by rewrite Hnz. }
  assert (Hindex :
    entry_checks self x media (Some ml) use_cached_media = Ok tt →
    only_attend_immediate_media self = false →
    forward_value self x media media_mask (Some ml) use_cached_media
    = Raise IndexError).
  { intros Hentry Hflag. unfold forward_result.
    rewrite Hentry, Hflag. cbn. by rewrite Hloop. }
  rewrite forward_outcome. split; [|split; [|split]].
  - unfold raises.
    destruct (only_attend_immediate_media self) eqn:Hflag.
    + rewrite forward_result_flag by done.
      destruct (entry_checks _ _ _ _ _); eauto.
    + destruct (entry_checks self x media (Some ml) use_cached_media)
        as [[]|e] eqn:Hentry; [rewrite Hindex by done; eauto|].
      unfold forward_result. rewrite Hentry. cbn. eauto.
  - done.
  - done.
  - rewrite Hnil. apply text_span_nil.
Qed.

(** ** The gated block *)

Lemma block_forward_run self x media media_mask media_locations use_cached_media :
  block_forward x media media_mask media_locations use_cached_media self
  = (self,
     locals ← forward_value (attn self) x media media_mask media_locations
                use_cached_media;
     let y := tensor_add (tensor_scale (out_of locals) (ftanh (attn_gate self)))
                x in
     Ok (tensor_add
           (tensor_scale (FeedForward feed_forward (ff_weights self) y)
              (ftanh (ff_gate self))) y)).
Proof.
  unfold GatedCrossAttentionBlock_forward, call_attn.
  unfold mbind at 1, method_bind at 1. rewrite forward_run.
  destruct self as [attn0 g0 w1 g1]. cbn [attn attn_gate ff_weights ff_gate].
  unfold mbind, result_bind.
  destruct (forward_value attn0 x media media_mask media_locations
              use_cached_media); reflexivity.
Qed.

(** The gating on finite values, read as real numbers. *)
Lemma gated_sum_finite a g v :
  fadd (fmul (Finite a) (ftanh (Finite g))) (Finite v)
  = Finite (a * tanh g + v).
Proof. reflexivity. Qed.

Lemma tanh_0 : tanh 0 = 0%R.
Proof. unfold tanh. rewrite sinh_0. unfold Rdiv. apply Rmult_0_l. Qed.

(** A finite value times a closed gate leaves the other summand. *)
Lemma closed_gate_finite a v :
  is_finite a → fadd (fmul a (ftanh (Finite 0))) v = v.
Proof.
  intros [r ->]. cbn [ftanh fmul]. rewrite tanh_0, Rmult_0_r.
  destruct v as [r'| |]; cbn [fadd]; [|done..].
  by rewrite Rplus_0_l.
Qed.

(** A value that is not finite times a closed gate is NaN, and so is the
    sum. *)
Lemma closed_gate_non_finite a v :
  ¬ is_finite a → fadd (fmul a (ftanh (Finite 0))) v = NaN.
Proof.
  intros Hnot. destruct a as [r|s|].
  - destruct Hnot. by exists r.
  - cbn [ftanh fmul]. rewrite tanh_0.
    destruct (Req_dec_T 0 0) as [_|Hne]; [reflexivity | done].
  - reflexivity.
Qed.

Lemma fadd_nan_r a : fadd a NaN = NaN.
Proof. by destruct a. Qed.

Lemma tensor_add_closed_gate a x :
  (∀ b n d, is_finite (t3_at a b n d)) →
  tensor_add (tensor_scale a (ftanh (Finite 0))) x = x.
Proof.
  intros Hfin. destruct x as [d0 d1 d2 f].
  unfold tensor_add, tensor_scale. cbn. f_equal.
  do 3 (apply functional_extensionality; intros ?).
  by apply closed_gate_finite.
Qed.

(** C7. [GatedCrossAttentionBlock.forward] returns
    [ff(y) * tanh(ff_gate) + y] with
    [y = attn(x, media, ...) * tanh(attn_gate) + x], entry by entry and in
    the shape of [x]: each sublayer output is scaled by the tanh of its gate
    and added to the residual stream; finite values are read as real
    numbers, rounding left out, and NaN and the infinities follow IEEE 754.
    An exception of the attention call is the exception of the block. *)
Theorem block_forward_adds_gated_sublayers_to_residual
  self x media media_mask media_locations use_cached_media :
  (∀ locals,
     outcome (forward x media media_mask media_locations use_cached_media)
       (attn self) = Ok locals →
     ∃ y result,
       outcome (block_forward x media media_mask media_locations
                  use_cached_media) self = Ok result ∧
       (t3_d0 y, t3_d1 y, t3_d2 y) = (t3_d0 x, t3_d1 x, t3_d2 x) ∧
       (t3_d0 result, t3_d1 result, t3_d2 result)
       = (t3_d0 x, t3_d1 x, t3_d2 x) ∧
       (∀ b n d,
          t3_at y b n d
          = fadd (fmul (t3_at (out_of locals) b n d) (ftanh (attn_gate self)))
              (t3_at x b n d)) ∧
       (∀ b n d,
          t3_at result b n d
          = fadd (fmul (feed_forward (ff_weights self) y b n d)
                    (ftanh (ff_gate self)))
              (t3_at y b n d)) ∧
       (∀ b n d a g v,
          t3_at (out_of locals) b n d = Finite a →
          attn_gate self = Finite g → t3_at x b n d = Finite v →
          t3_at y b n d = Finite (a * tanh g + v)) ∧
       (∀ b n d f g v,
          feed_forward (ff_weights self) y b n d = Finite f →
          ff_gate self = Finite g → t3_at y b n d = Finite v →
          t3_at result b n d = Finite (f * tanh g + v))) ∧
  (∀ e,
     outcome (forward x media media_mask media_locations use_cached_media)
       (attn self) = Raise e →
     outcome (block_forward x media media_mask media_locations use_cached_media)
       self = Raise e).
Proof.
  unfold outcome at 2 4. rewrite block_forward_run. cbn [snd].
  split.
  - intros locals Hout. rewrite forward_outcome in Hout. rewrite Hout.
    cbn [mbind result_bind].
    exists (tensor_add
              (tensor_scale (out_of locals) (ftanh (attn_gate self))) x).
    eexists. split; [reflexivity|].
    cbn [tensor_add tensor_scale FeedForward t3_d0 t3_d1 t3_d2 t3_at].
    split; [done|]. split; [done|]. split; [done|]. split; [done|]. split.
    + intros b n d a g v -> -> ->. apply gated_sum_finite.
    + intros b n d f g v -> -> ->. apply gated_sum_finite.
  - intros e Hout. rewrite forward_outcome in Hout. by rewrite Hout.
Qed.

(** C10, amended.  A freshly constructed block is the identity on its text
    input as long as the two sublayers give finite values: both gates are 0
    and [tanh 0 = 0], so whenever the attention call returns a finite
    output and the feed-forward output on [x] is finite, [forward] returns
    a tensor with the shape and the entries of [x]. *)
Theorem block_is_identity_at_initialization
  dim dim_audio W dim_head heads ff_mult flag attn_weights ff_weights
  x media media_mask media_locations use_cached_media locals :
  let self := GatedCrossAttentionBlock_init dim dim_audio W dim_head heads
                ff_mult flag attn_weights ff_weights in
  outcome (forward x media media_mask media_locations use_cached_media)
    (attn self) = Ok locals →
  (∀ b n d, is_finite (t3_at (out_of locals) b n d)) →
  (∀ b n d, is_finite (feed_forward ff_weights x b n d)) →
  attn_gate self = Finite 0 ∧ ff_gate self = Finite 0 ∧
  ∃ y,
    outcome (block_forward x media media_mask media_locations use_cached_media)
      self = Ok y ∧
    tensor_eq y x.
Proof.
  intros self Hout Hattn Hff. split; [done|]. split; [done|].
  rewrite forward_outcome in Hout.
  unfold outcome. rewrite block_forward_run. cbn [snd].
  rewrite Hout. cbn [mbind result_bind]. eexists. split; [reflexivity|].
  subst self. cbn -[tensor_add tensor_scale ftanh FeedForward].
  rewrite (tensor_add_closed_gate (out_of locals) x Hattn).
  rewrite tensor_add_closed_gate by exact Hff.
  done.
Qed.

End Forward.

(** ** The statements on sample calls *)

(** A window size of -2 with 8 slots passes the assertions
    ([8 % -2 == 0]); the slice end [(0 + 1) * -2] then counts from the last
    slot, so text position 0, before the first marker, attends slots 0 to
    5 and not the empty range [0 .. (0 + 1) * -2 - 1] (against C1). *)
Lemma negative_window_counts_slots_from_the_end :
  ∃ locals m,
    outcome
      (MaskedCrossAttention_forward sample_finfo_max sample_similarity
         sample_attend (sample_x 6) (sample_media 8) (sample_media_mask 8)
         (Some two_marker_locations) false)
      negative_window_module = Ok locals ∧
    few_shot_mask_of locals = Some m ∧
    only_attend_immediate_media negative_window_module = false ∧
    max_window_per_audio negative_window_module = (-2)%Z ∧
    has_marker two_marker_locations 0 ∧
    last_marker_index (row_of two_marker_locations 0) 0 = 0 ∧
    (mask_get m 0 0 <$> seq 0 8)
    = [true; true; true; true; true; true; false; false] ∧
    ¬ (∀ s, s < 8 →
         mask_get m 0 0 s = true
         ↔ (Z.of_nat s
            < (Z.of_nat (last_marker_index (row_of two_marker_locations 0) 0)
               + 1)
              * max_window_per_audio negative_window_module)%Z).
Proof.
  eexists _, _. split; [reflexivity|]. split; [reflexivity|].
  split; [reflexivity|]. split; [reflexivity|].
  split; [exists 1; split; [cbn; lia | cbn; lia]|].
  split; [reflexivity|]. split; [reflexivity|].
  intros Hclaim. destruct (Hclaim 0) as [Hlt _]; [lia|].
  specialize (Hlt eq_refl). vm_compute in Hlt. discriminate Hlt.
Qed.

Lemma attends_windows_up_to_last_marker_witness :
  ∃ locals m,
    sample_forward 6 8 (Some two_marker_locations) false (Some false)
    = Ok locals ∧
    few_shot_mask_of locals = Some m ∧
    (mask_get m 0 4 3 = true
     ↔ (Z.of_nat 3
        < (Z.of_nat (last_marker_index (row_of two_marker_locations 0) 4) + 1)
          * 2)%Z).
Proof.
  destruct (few_shot_mask_attends_windows_up_to_last_marker
              sample_finfo_max sample_similarity sample_attend
              (sample_module (Some false)) (sample_x 6) (sample_media 8)
              (sample_media_mask 8) two_marker_locations false)
    as [Hrule Htotal].
  { vm_compute. reflexivity. }
  destruct Htotal as (locals & m & Hout & Hm).
  { reflexivity. }
  { reflexivity. }
  { intros b Hb. assert (b = 0) as -> by (cbn in Hb; lia).
    split; [cbn; lia|]. exists 1. split; [cbn; lia | cbn; lia]. }
  exists locals, m. split; [exact Hout|]. split; [exact Hm|].
  destruct (Hrule locals m Hout Hm) as [_ Hget].
  apply (Hget 0); [cbn; lia | | cbn; lia | cbn; lia].
  exists 1. split; [cbn; lia | cbn; lia].
Defined.

(** A single marker: the two passes of the segment loop take spans that
    overlap, and the span before the marker runs to the end of the text
    instead of ending before the marker (against C2). *)
Lemma single_marker_spans_overlap :
  let locs := nonzero (row_of one_marker_locations 0) in
  (∃ locals, sample_forward 3 8 (Some one_marker_locations) false (Some false)
             = Ok locals) ∧
  locs = [1%Z] ∧
  text_span 3 locs (-1) = Ok (0%Z, 3%Z) ∧
  text_span 3 locs 0 = Ok (1%Z, 3%Z) ∧
  ¬ (∀ t i j span span',
       t < 3 →
       i ∈ py_range (-1) (Z.of_nat (length locs)) →
       j ∈ py_range (-1) (Z.of_nat (length locs)) →
       text_span 3 locs i = Ok span → text_span 3 locs j = Ok span' →
       span_contains span t → span_contains span' t → i = j).
Proof.
  assert (Hlocs : nonzero (row_of one_marker_locations 0) = [1%Z])
    by reflexivity.
  cbv zeta. rewrite Hlocs. split; [eexists; reflexivity|].
  split; [reflexivity|]. split; [reflexivity|]. split; [reflexivity|].
  intros Hdisjoint.
  specialize (Hdisjoint 1 (-1)%Z 0%Z (0%Z, 3%Z) (1%Z, 3%Z)).
  assert (Hin : ∀ i, i = (-1)%Z ∨ i = 0%Z →
            i ∈ py_range (-1) (Z.of_nat (length [1%Z]))).
  { intros i Hi. unfold py_range. apply elem_of_seqZ. cbn. lia. }
  discriminate Hdisjoint;
    [lia | apply Hin; by left | apply Hin; by right | reflexivity | reflexivity
    | unfold span_contains; cbn; lia | unfold span_contains; cbn; lia].
Qed.

Lemma segments_partition_text_witness :
  ∃ locals m,
    sample_forward 6 8 (Some two_marker_locations) false (Some false)
    = Ok locals ∧
    few_shot_mask_of locals = Some m ∧
    ∀ t, t < 6 →
      ∃ i span,
        i ∈ py_range (-1) 2 ∧
        text_span 6 (nonzero (row_of two_marker_locations 0)) i = Ok span ∧
        span_contains span t ∧
        (∀ j span', j ∈ py_range (-1) 2 →
           text_span 6 (nonzero (row_of two_marker_locations 0)) j = Ok span' →
           span_contains span' t → j = i) ∧
        ∀ s, s < 8 → mask_get m 0 t s = in_slice 8 0 ((Z.max i 0 + 1) * 2) s.
Proof.
  eexists _, _. split; [reflexivity|]. split; [reflexivity|].
  refine (proj2 (proj2 (proj2
    (proj1 (segments_partition_text_of_item_with_two_markers
              sample_finfo_max sample_similarity sample_attend
              (sample_module (Some false)) (sample_x 6) (sample_media 8)
              (sample_media_mask 8) two_marker_locations false _ _ 0
              eq_refl eq_refl _) _)))).
  - vm_compute. lia.
  - vm_compute. lia.
Defined.

Lemma masks_combined_witness :
  ∃ locals m,
    outcome
      (MaskedCrossAttention_forward sample_finfo_max sample_similarity
         sample_attend (sample_x 6) (sample_media 8) (other_media_mask 8)
         (Some two_marker_locations) false)
      (sample_module (Some false)) = Ok locals ∧
    few_shot_mask_of locals = Some m ∧
    ∀ b h t s,
      b < 1 → t < 6 → s < 8 →
      t4_at (sim_of locals) b h t s
      = if bool_decide (t3_at (other_media_mask 8) b s 0 ≠ 0%Z ∧
                        mask_get m b t s = true)
        then t4_at (sample_similarity (sample_module (Some false)) (sample_x 6)
                      (sample_media 8)) b h t s
        else Finite (- sample_finfo_max).
Proof.
  eexists.
  destruct (masks_combined_by_and_before_softmax
              sample_finfo_max sample_similarity sample_attend
              (sample_module (Some false)) (sample_x 6) (sample_media 8)
              (other_media_mask 8) two_marker_locations false _ eq_refl
              eq_refl eq_refl eq_refl)
    as (m & Hm & Hsim & _).
  exists m. split; [reflexivity|]. split; [exact Hm | exact Hsim].
Defined.

(** With the flag left at its default the assertions at the head of
    [forward] pass and every row has a marker, yet [forward] raises
    (against C4). *)
Lemma default_flag_raises_past_entry_assertions :
  entry_checks (sample_module None) (sample_x 6) (sample_media 8)
    (Some two_marker_locations) false = Ok tt ∧
  sample_forward 6 8 (Some two_marker_locations) false None
  = Raise AssertionError.
Proof. split; reflexivity. Qed.

Lemma forward_returns_witness :
  ∃ locals,
    sample_forward 6 8 (Some two_marker_locations) false (Some false)
    = Ok locals.
Proof.
  apply (forward_returns_when_flag_clear_and_rows_marked
           sample_finfo_max sample_similarity sample_attend
           (sample_module (Some false)) (sample_x 6) (sample_media 8)
           (sample_media_mask 8) (Some two_marker_locations) false).
  - reflexivity.
  - reflexivity.
  - intros ml [= <-] b Hb. assert (b = 0) as -> by (cbn in Hb; lia).
    split; [cbn; lia|]. exists 1. split; [cbn; lia | cbn; lia].
Defined.

(** With [only_attend_immediate_media] set to [True], position 0 of the
    sample row precedes the first marker, and [forward] raises: there are
    no attention weights to set to zero (against C5). *)
Lemma flag_set_yields_no_attention_weights :
  only_attend_immediate_media (sample_module (Some true)) = true ∧
  t2_at two_marker_locations 0 0 = 0%Z ∧
  sample_forward 6 8 (Some two_marker_locations) false (Some true)
  = Raise AssertionError ∧
  ¬ ∃ locals,
      sample_forward 6 8 (Some two_marker_locations) false (Some true)
      = Ok locals.
Proof.
  split; [reflexivity|]. split; [reflexivity|]. split; [reflexivity|].
  intros [locals Hout]. discriminate Hout.
Qed.

Lemma before_first_marker_witness :
  (∃ locals m,
     sample_forward 6 8 (Some two_marker_locations) false (Some false)
     = Ok locals ∧
     few_shot_mask_of locals = Some m ∧
     (mask_get m 0 0 1 = true ↔ (Z.of_nat 1 < 2)%Z)) ∧
  raises (sample_forward 6 8 (Some two_marker_locations) false (Some true)).
Proof.
  split.
  - eexists _, _. split; [reflexivity|]. split; [reflexivity|].
    refine (proj1 (positions_before_first_marker_attend_first_window
                     sample_finfo_max sample_similarity sample_attend
                     (sample_module (Some false)) (sample_x 6) (sample_media 8)
                     (sample_media_mask 8) false)
              two_marker_locations _ _ eq_refl eq_refl _ 0 0 _ _ _ 1 _).
    + vm_compute. reflexivity.
    + cbn. lia.
    + cbn. lia.
    + intros j Hj _. assert (j = 0) as -> by lia. reflexivity.
    + cbn. lia.
  - apply (proj2 (positions_before_first_marker_attend_first_window
                    sample_finfo_max sample_similarity sample_attend
                    (sample_module (Some true)) (sample_x 6) (sample_media 8)
                    (sample_media_mask 8) false)).
    reflexivity.
Defined.

(** Two calls with the same text length, [media_locations],
    [max_window_per_audio] and flag, one with 4 audio slots and one with 8:
    the masks differ (against C6). *)
Lemma mask_depends_on_number_of_slots :
  few_shot_mask_of
    <$> sample_forward 6 4 (Some two_marker_locations) false (Some false)
  = Ok (Some [[[true; true; false; false]; [true; true; false; false];
               [true; true; false; false]; [true; true; true; true];
               [true; true; true; true]; [true; true; true; true]]]) ∧
  few_shot_mask_of
    <$> sample_forward 6 8 (Some two_marker_locations) false (Some false)
  = Ok (Some [[[true; true; false; false; false; false; false; false];
               [true; true; false; false; false; false; false; false];
               [true; true; false; false; false; false; false; false];
               [true; true; true; true; false; false; false; false];
               [true; true; true; true; false; false; false; false];
               [true; true; true; true; false; false; false; false]]]) ∧
  few_shot_mask_of
    <$> sample_forward 6 4 (Some two_marker_locations) false (Some false)
  ≠ few_shot_mask_of
    <$> sample_forward 6 8 (Some two_marker_locations) false (Some false).
Proof.
  split; [vm_compute; reflexivity|]. split; [vm_compute; reflexivity|].
  vm_compute. discriminate.
Qed.

Lemma mask_function_of_shapes_witness :
  ∃ locals1 locals2,
    sample_forward 6 8 (Some two_marker_locations) false (Some false)
    = Ok locals1 ∧
    outcome
      (MaskedCrossAttention_forward sample_finfo_max sample_similarity
         sample_attend (other_x 6) (other_media 8) (other_media_mask 8)
         (Some two_marker_locations) true)
      other_module = Ok locals2 ∧
    few_shot_mask_of locals1 = few_shot_mask_of locals2 ∧
    module_after
      (MaskedCrossAttention_forward sample_finfo_max sample_similarity
         sample_attend (sample_x 6) (sample_media 8) (sample_media_mask 8)
         (Some two_marker_locations) false)
      (sample_module (Some false)) = sample_module (Some false) ∧
    module_after
      (MaskedCrossAttention_forward sample_finfo_max sample_similarity
         sample_attend (other_x 6) (other_media 8) (other_media_mask 8)
         (Some two_marker_locations) true)
      other_module = other_module.
Proof.
  eexists _, _. split; [reflexivity|]. split; [reflexivity|].
  apply (few_shot_mask_is_a_function_of_shapes_and_locations
           sample_finfo_max sample_similarity sample_attend
           (sample_module (Some false)) other_module (sample_x 6) (other_x 6)
           (sample_media 8) (other_media 8) (sample_media_mask 8)
           (other_media_mask 8) (Some two_marker_locations) false true);
    reflexivity.
Defined.

Lemma block_forward_witness :
  (∃ locals y result,
     sample_forward 6 8 (Some two_marker_locations) false (Some false)
     = Ok locals ∧
     sample_block_forward 6 8 (Some two_marker_locations) false (Some false)
     = Ok result ∧
     (t3_d0 result, t3_d1 result, t3_d2 result) = (1, 6, 4) ∧
     (∀ b n d, t3_at y b n d = Finite (0 * tanh 0 + 0)) ∧
     (∀ b n d, t3_at result b n d = Finite (0 * tanh 0 + (0 * tanh 0 + 0)))) ∧
  sample_block_forward 6 8 (Some two_marker_locations) false None
  = Raise AssertionError.
Proof.
  split.
  - eexists.
    destruct (proj1 (block_forward_adds_gated_sublayers_to_residual
                       sample_finfo_max sample_similarity sample_attend
                       sample_feed_forward
                       (GatedCrossAttentionBlock_init 4 4 2 64 8 4 (Some false)
                          [] [])
                       (sample_x 6) (sample_media 8) (sample_media_mask 8)
                       (Some two_marker_locations) false) _ eq_refl)
      as (y & result & Hrun & _ & Hshape & _ & _ & Hy & Hresult).
    exists y, result. split; [reflexivity|]. split; [exact Hrun|].
    split; [exact Hshape|].
    assert (Hys : ∀ b n d, t3_at y b n d = Finite (0 * tanh 0 + 0))
      by (intros b n d; apply Hy; reflexivity).
    split; [exact Hys|].
    intros b n d. apply Hresult; [reflexivity | reflexivity | apply Hys].
  - apply (proj2 (block_forward_adds_gated_sublayers_to_residual
                    sample_finfo_max sample_similarity sample_attend
                    sample_feed_forward
                    (GatedCrossAttentionBlock_init 4 4 2 64 8 4 None [] [])
                    (sample_x 6) (sample_media 8) (sample_media_mask 8)
                    (Some two_marker_locations) false)).
    reflexivity.
Defined.

(** A call that leaves [media_locations] and [use_cached_media] at their
    defaults on a module with the flag at its default: the exception is an
    [AttributeError], not an [AssertionError] (against C8). *)
Lemma default_call_raises_attribute_error :
  only_attend_immediate_media (sample_module None) = true ∧
  sample_forward 6 8 None false None = Raise AttributeError ∧
  sample_forward 6 8 None false None ≠ Raise AssertionError.
Proof. split; [reflexivity|]. split; [reflexivity | discriminate]. Qed.

Lemma default_module_witness :
  only_attend_immediate_media (sample_module None) = true ∧
  raises (sample_forward 6 8 (Some two_marker_locations) false None) ∧
  sample_forward 6 8 (Some two_marker_locations) false None
  = Raise AssertionError.
Proof.
  destruct (forward_of_default_module_always_raises
              sample_finfo_max sample_similarity sample_attend
              4 4 2 64 8 None [] (sample_x 6) (sample_media 8)
              (sample_media_mask 8) (Some two_marker_locations) false)
    as (Hflag & Hraises & Hassert).
  { left. reflexivity. }
  split; [exact Hflag|]. split; [exact Hraises|].
  apply Hassert; [right; eexists; reflexivity | lia].
Defined.

Lemma item_without_marker_witness :
  raises (sample_forward 3 8 (Some no_marker_locations) false (Some false)) ∧
  sample_forward 3 8 (Some no_marker_locations) false (Some false)
  = Raise IndexError ∧
  nonzero (row_of no_marker_locations 0) = [].
Proof.
  destruct (forward_raises_on_item_without_marker
              sample_finfo_max sample_similarity sample_attend
              (sample_module (Some false)) (sample_x 3) (sample_media 8)
              (sample_media_mask 8) no_marker_locations false 0)
    as (Hraises & Hindex & Hnil & _).
  { cbn. lia. }
  { intros (j & Hj & Hne). cbn in Hj.
    assert (j = 0 ∨ j = 1 ∨ j = 2) as [->|[->| ->]] by lia;
      by apply Hne. }
  split; [exact Hraises|]. split; [|exact Hnil].
  apply Hindex; reflexivity.
Defined.

(** A block as constructed, on an all-finite [x], with a tensor library
    whose attention output is NaN, or infinite: the attention call does not
    raise, the closed gate gives [NaN * 0 = NaN] and [inf * 0 = NaN], and
    the block returns NaN instead of [x] (against C10). *)
Lemma initial_block_returns_nan_for_non_finite_attention_output :
  let self := GatedCrossAttentionBlock_init 4 4 2 64 8 4 (Some false) [] [] in
  attn_gate self = Finite 0 ∧ ff_gate self = Finite 0 ∧
  (∀ b n d, t3_at (sample_x 6) b n d = Finite 0) ∧
  ∀ attend, attend = nan_attend ∨ attend = inf_attend →
    (∃ locals,
       outcome
         (MaskedCrossAttention_forward sample_finfo_max sample_similarity
            attend (sample_x 6) (sample_media 8) (sample_media_mask 8)
            (Some two_marker_locations) false)
         (attn self) = Ok locals) ∧
    ∃ y,
      outcome
        (GatedCrossAttentionBlock_forward sample_finfo_max sample_similarity
           attend sample_feed_forward (sample_x 6) (sample_media 8)
           (sample_media_mask 8) (Some two_marker_locations) false)
        self = Ok y ∧
      t3_at y 0 0 0 = NaN ∧
      ¬ tensor_eq y (sample_x 6).
Proof.
  cbv zeta. split; [reflexivity|]. split; [reflexivity|].
  split; [reflexivity|].
  intros attend [->| ->].
  - split; [by eexists|]. eexists. split; [reflexivity|].
    split; [reflexivity|].
    intros (_ & _ & _ & Hentries). specialize (Hentries 0 0 0).
    discriminate Hentries.
  - split; [by eexists|]. eexists. split; [reflexivity|].
    match goal with |- ?P ∧ _ => assert (Hnan : P) end.
    { cbn [tensor_add tensor_scale t3_at].
      rewrite (closed_gate_non_finite (Inf false)); [apply fadd_nan_r|].
      intros [r Hr]. discriminate Hr. }
    split; [exact Hnan|].
    intros (_ & _ & _ & Hentries). specialize (Hentries 0 0 0).
    rewrite Hnan in Hentries. discriminate Hentries.
Qed.

Lemma block_identity_witness :
  ∃ y,
    sample_block_forward 6 8 (Some two_marker_locations) false (Some false)
    = Ok y ∧
    tensor_eq y (sample_x 6).
Proof.
  eapply (block_is_identity_at_initialization
            sample_finfo_max sample_similarity sample_attend
            sample_feed_forward 4 4 2 64 8 4 (Some false) [] []
            (sample_x 6) (sample_media 8) (sample_media_mask 8)
            (Some two_marker_locations) false).
  - reflexivity.
  - intros b n d. eexists. reflexivity.
  - intros b n d. eexists. reflexivity.
Defined.

(** * Further properties of the mask construction *)

Lemma count_markers_app l1 l2 :
  count_markers (l1 ++ l2) = count_markers l1 + count_markers l2.
Proof. unfold count_markers. by rewrite filter_app, length_app. Qed.

Lemma count_markers_take_le n l : count_markers (take n l) ≤ count_markers l.
Proof.
  rewrite <- (take_drop n l) at 2. rewrite count_markers_app. lia.
Qed.

Lemma count_markers_take_mono n n' l :
  n ≤ n' → count_markers (take n l) ≤ count_markers (take n' l).
Proof.
  intros Hle. replace (take n l) with (take n (take n' l)).
  - apply count_markers_take_le.
  - rewrite take_take. f_equal. lia.
Qed.

Lemma nonzero_from_ub off row q :
  q ∈ nonzero_from off row → (q < off + Z.of_nat (length row))%Z.
Proof.
  revert off. induction row as [|v row IH]; intros off; cbn.
  - by intros ?%elem_of_nil.
  - case_decide.
    + intros ?%IH. lia.
    + intros [->|?%IH]%elem_of_cons; lia.
Qed.

Lemma filter_all {A} (P : A → Prop) `{!∀ x, Decision (P x)} (l : list A) :
  (∀ x, x ∈ l → P x) → filter P l = l.
Proof.
  induction l as [|x l IH]; intros Hl; [done|].
  rewrite filter_cons_True by (apply Hl; by left).
  f_equal. apply IH. intros y ?. apply Hl. by right.
Qed.

(** The markers of a row are the entries of its marker list. *)
Lemma count_markers_nonzero row : count_markers row = length (nonzero row).
Proof.
  pose proof (nonzero_from_count 0 (Z.of_nat (length row)) row) as Hc.
  rewrite take_ge in Hc by lia. rewrite <- Hc. unfold nonzero.
  rewrite filter_all; [done|]. intros q Hq%nonzero_from_ub. lia.
Qed.

Lemma last_marker_index_mono row t t' :
  t ≤ t' → last_marker_index row t ≤ last_marker_index row t'.
Proof.
  intros Hle. unfold last_marker_index.
  pose proof (count_markers_take_mono (S t) (S t') row ltac:(lia)). lia.
Qed.

Lemma last_marker_index_lt row t :
  nonzero row ≠ [] → last_marker_index row t < length (nonzero row).
Proof.
  intros Hne. unfold last_marker_index.
  pose proof (count_markers_le row t).
  destruct (nonzero row); [done | cbn in *; lia].
Qed.

Lemma segment_covers_span_any_flag self T_txt L locs t s i ts te :
  (∀ p, p ∈ locs → (0 ≤ p)%Z) →
  text_span T_txt locs i = Ok (ts, te) → t < T_txt →
  segment_covers self T_txt L locs t s i
  = bool_decide (span_contains (ts, te) t)
    && in_slice L
         (if only_attend_immediate_media self
          then Z.max i 0 * max_window_per_audio self else 0)%Z
         ((Z.max i 0 + 1) * max_window_per_audio self) s.
Proof.
  intros Hpos Hspan Ht. unfold segment_covers, span_contains.
  destruct (text_span_nonneg _ _ _ _ _ Hpos Hspan) as [Hts Hte].
  rewrite Hspan. cbn zeta. f_equal.
  pose proof (in_slice_nonneg T_txt ts te t Hts Hte Ht) as Hiff. cbn [fst snd].
  destruct (in_slice T_txt ts te t); symmetry.
  - apply bool_decide_eq_true_2. by apply Hiff.
  - apply bool_decide_eq_false_2. intros Hin. by apply Hiff in Hin.
Qed.

(** Whatever the flag and the window size, the passes of the segment loop
    leave in the row of text position [t] the one slice of slots that
    belongs to the last marker at or before [t]. *)
Lemma segments_cover_slice self T_txt L row t s :
  nonzero row ≠ [] → t < T_txt →
  existsb (segment_covers self T_txt L (nonzero row) t s)
    (py_range (-1) (Z.of_nat (length (nonzero row))))
  = in_slice L
      (if only_attend_immediate_media self
       then Z.of_nat (last_marker_index row t) * max_window_per_audio self
       else 0)%Z
      ((Z.of_nat (last_marker_index row t) + 1) * max_window_per_audio self) s.
Proof.
  intros Hne Ht. unfold last_marker_index.
  set (c := count_markers (take (S t) row)).
  pose proof (count_markers_le row t) as Hc. fold c in Hc.
  assert (Hpos : ∀ p, p ∈ nonzero row → (0 ≤ p)%Z)
    by apply nonzero_elem_nonneg.
  destruct (decide (length (nonzero row) = 1)) as [Hone|Hmany].
  - destruct (nonzero row) as [|p [|q l]] eqn:Hlocs; try done.
    change (py_range (-1) (Z.of_nat (length [p]))) with [(-1)%Z; 0%Z].
    cbn [existsb].
    rewrite (segment_covers_span_any_flag _ _ _ _ _ _ _ 0%Z (Z.of_nat T_txt));
      [|exact Hpos|apply text_span_single|done].
    rewrite (segment_covers_span_any_flag _ _ _ _ _ _ _ p (Z.of_nat T_txt));
      [|exact Hpos|by apply (text_span_last _ _ 0 p)|done].
    rewrite (bool_decide_eq_true_2 (span_contains (0%Z, Z.of_nat T_txt) t))
      by (unfold span_contains; cbn; lia).
    assert (Nat.pred c = 0) as -> by (cbn in Hc; lia).
    change (Z.max (-1) 0) with 0%Z. change (Z.max 0 0) with 0%Z.
    change (Z.of_nat 0) with 0%Z.
    destruct (in_slice L _ _ s), (bool_decide _); reflexivity.
  - assert (Hlen : 2 ≤ length (nonzero row)).
    { destruct (nonzero row) as [|p [|q l]]; cbn in *; try done; lia. }
    assert (Hin : (Z.of_nat c - 1)%Z
                  ∈ py_range (-1) (Z.of_nat (length (nonzero row)))).
    { unfold py_range. apply elem_of_seqZ. lia. }
    destruct (text_span_ok T_txt (nonzero row) (Z.of_nat c - 1)%Z Hne Hin)
      as [[ts te] Hspan].
    rewrite (existsb_unique _ _ (Z.of_nat c - 1)%Z); [|done|].
    + rewrite (segment_covers_span_any_flag _ _ _ _ _ _ _ ts te) by done.
      rewrite bool_decide_eq_true_2.
      * replace (Z.max (Z.of_nat c - 1) 0) with (Z.of_nat (Nat.pred c)) by lia.
        reflexivity.
      * apply (span_contains_iff row T_txt t (Z.of_nat c - 1) ts te);
          try done. fold c. lia.
    + intros j Hj Hne'.
      destruct (text_span_ok T_txt (nonzero row) j Hne Hj)
        as [[ts' te'] Hspan'].
      rewrite (segment_covers_span_any_flag _ _ _ _ _ _ _ ts' te') by done.
      rewrite bool_decide_eq_false_2; [done|]. intros Hcont'.
      apply (span_contains_iff row T_txt t j ts' te') in Hcont'; try done.
      fold c in Hcont'. lia.
Qed.

Lemma mask_row_is_slice self ml B T_txt L m b t s :
  for_each (seq 0 B) (item_step self ml T_txt) (zeros B T_txt L) = Ok m →
  b < B → t < T_txt → s < L →
  mask_get m b t s
  = in_slice L
      (if only_attend_immediate_media self
       then Z.of_nat (last_marker_index (row_of ml b) t)
            * max_window_per_audio self
       else 0)%Z
      ((Z.of_nat (last_marker_index (row_of ml b) t) + 1)
       * max_window_per_audio self) s.
Proof.
  intros Hrun Hb Ht Hs.
  destruct (few_shot_mask_entries _ _ _ _ _ _ Hrun) as (_ & Hrows & Hget).
  rewrite Hget by done. apply segments_cover_slice; [|done].
  apply has_marker_nonzero, Hrows, Hb.
Qed.

Lemma segment_loop_returns self T_txt b locs segs m :
  (∀ i, i ∈ segs → ∃ span, text_span T_txt locs i = Ok span) →
  ∃ m', for_each segs (segment_step self T_txt b locs) m = Ok m'.
Proof.
  revert m. induction segs as [|i segs IH]; intros m Hok; [by exists m|].
  destruct (Hok i ltac:(by left)) as [[ts te] Hspan].
  cbn [for_each]. rewrite (segment_step_ok _ _ _ _ _ _ _ _ Hspan). cbn.
  apply IH. intros j Hj. apply Hok. by right.
Qed.

(** A loop over the batch that stops names a batch item without a row or
    without a marker. *)
Lemma item_loop_raise_inv self ml T_txt bs m e :
  for_each bs (item_step self ml T_txt) m = Raise e →
  ∃ b, b ∈ bs ∧ (t2_d0 ml ≤ b ∨ ¬ has_marker ml b).
Proof.
  revert m. induction bs as [|b0 bs IH]; intros m; [done|].
  cbn [for_each]. unfold mbind, result_bind.
  destruct (item_step self ml T_txt b0 m) as [m1|e1] eqn:Hstep.
  - intros (b & Hb & Hbad)%IH. exists b. split; [by right | done].
  - intros _. exists b0. split; [by left|].
    destruct (decide (b0 < t2_d0 ml)) as [Hlt|Hge]; [|left; lia]. right.
    intros Hmark%has_marker_nonzero.
    rewrite item_step_ok in Hstep by done.
    destruct (segment_loop_returns self T_txt b0 (nonzero (row_of ml b0))
                (py_range (-1) (Z.of_nat (length (nonzero (row_of ml b0))))) m)
      as [m' Hrun]; [|congruence].
    intros i Hi. by apply text_span_ok.
Qed.

Lemma entry_checks_raise_cases self x media media_locations use_cached_media e :
  entry_checks self x media media_locations use_cached_media = Raise e →
  (e = AttributeError ∧ use_cached_media = false ∧ media_locations = None) ∨
  (e = AssertionError ∧
   ((use_cached_media = false ∧
     ∃ ml, media_locations = Some ml ∧ t2_d1 ml ≠ t3_d1 x) ∨
    t4_d2 media ≠ 1 ∨
    (max_window_per_audio self ≠ 0%Z ∧
     (Z.of_nat (t4_d1 media) mod max_window_per_audio self ≠ 0)%Z))) ∨
  (e = ZeroDivisionError ∧ max_window_per_audio self = 0%Z).
Proof.
  unfold entry_checks, py_mod, py_assert, mbind, result_bind.
  destruct use_cached_media, media_locations as [ml|]; cbn [negb];
    repeat match goal with
           | |- context [if ?c then _ else _] => destruct c eqn:?
           end;
    intros Heq; try discriminate Heq; injection Heq as <-;
    repeat match goal with
           | H : (_ =? _) = true |- _ => apply Nat.eqb_eq in H
           | H : (_ =? _) = false |- _ => apply Nat.eqb_neq in H
           | H : (_ =? _)%Z = true |- _ => apply Z.eqb_eq in H
           | H : (_ =? _)%Z = false |- _ => apply Z.eqb_neq in H
           end;
    first
      [ left; done
      | right; right; done
      | right; left; split; [done|]; right; left; done
      | right; left; split; [done|]; right; right; done
      | right; left; split; [done|]; left; split; [done|]; by eexists ].
Qed.

Section MaskProperties.

Variable finfo_max : R.
Variable similarity :
  MaskedCrossAttention → Tensor3 float → Tensor4 float → Tensor4 float.
Variable attend :
  MaskedCrossAttention → Tensor4 float → Tensor4 float → nat → nat → nat → float.
Variable feed_forward : list float → Tensor3 float → nat → nat → nat → float.

Local Abbreviation forward :=
  (MaskedCrossAttention_forward finfo_max similarity attend).
Local Abbreviation block_forward :=
  (GatedCrossAttentionBlock_forward finfo_max similarity attend feed_forward).

Lemma forward_mask_run self x media media_mask ml use_cached_media locals m :
  outcome (forward x media media_mask (Some ml) use_cached_media) self
  = Ok locals →
  few_shot_mask_of locals = Some m →
  only_attend_immediate_media self = false ∧
  for_each (seq 0 (t4_d0 media)) (item_step self ml (t3_d1 x))
    (zeros (t4_d0 media) (t3_d1 x) (t4_d1 media)) = Ok m.
Proof.
  intros Hout Hm. rewrite forward_outcome in Hout.
  apply forward_result_inv in Hout as (_ & Hflag & _ & m' & Hm' & Hrun & _).
  rewrite Hm in Hm'. by injection Hm' as <-.
Qed.

(** X1. The mask [forward] builds has the shape (B, T_txt, L) of the batch,
    the text and the audio slots: the slice assignments never change it. *)
Theorem few_shot_mask_has_shape_of_text_and_slots
  self x media media_mask ml use_cached_media locals m :
  outcome (forward x media media_mask (Some ml) use_cached_media) self
  = Ok locals →
  few_shot_mask_of locals = Some m →
  mask_shape (t4_d0 media) (t3_d1 x) (t4_d1 media) m.
Proof.
  intros Hout Hm.
  destruct (forward_mask_run _ _ _ _ _ _ _ _ Hout Hm) as [_ Hrun].
  by destruct (few_shot_mask_entries _ _ _ _ _ _ Hrun) as (Hshape & _).
Qed.

(** X2. The calls into the tensor library (layer norm, projections,
    einsum, [masked_fill], [amax], softmax) being taken to succeed,
    [forward] returns exactly when the text length matches
    [media_locations] (or [use_cached_media] is set), [media] has the unit
    dimension, the number of slots is a multiple of a nonzero
    [max_window_per_audio], the flag is [False] and, if [media_locations]
    is given, every batch item has a row in it with at least one marker. *)
Theorem forward_returns_exactly_when
  self x media media_mask media_locations use_cached_media :
  (∃ locals,
     outcome (forward x media media_mask media_locations use_cached_media) self
     = Ok locals)
  ↔ (use_cached_media = true ∨
     ∃ ml, media_locations = Some ml ∧ t2_d1 ml = t3_d1 x) ∧
    t4_d2 media = 1 ∧
    max_window_per_audio self ≠ 0%Z ∧
    (Z.of_nat (t4_d1 media) mod max_window_per_audio self = 0)%Z ∧
    only_attend_immediate_media self = false ∧
    (∀ ml, media_locations = Some ml →
       ∀ b, b < t4_d0 media → b < t2_d0 ml ∧ has_marker ml b).
Proof.
  rewrite forward_outcome. split.
  - intros [locals Hres].
    apply forward_result_inv in Hres as (Hentry & Hflag & _ & Hloc).
    apply entry_checks_ok in Hentry as (H1 & H2 & H3 & H4).
    repeat (split; [done|]).
    intros ml ->. destruct Hloc as (m & _ & Hrun & _).
    by destruct (few_shot_mask_entries _ _ _ _ _ _ Hrun) as (_ & Hrows & _).
  - intros (H1 & H2 & H3 & H4 & Hflag & Hrows).
    assert (Hentry : entry_checks self x media media_locations use_cached_media
                     = Ok tt) by (by apply entry_checks_ok).
    destruct media_locations as [ml|].
    + destruct (forward_result_ok finfo_max similarity attend self x media
                  media_mask ml use_cached_media) as (m & Hres & _); eauto.
    + assert (use_cached_media = true) as ->.
      { destruct H1 as [?|(ml & ? & _)]; done. }
      rewrite forward_result_none by done. eauto.
Qed.

(** X3. The exceptions raised by the assertions and the mask construction
    of [forward] (the layer norm, projections, einsum, [masked_fill], [amax]
    and softmax calls being taken to succeed), by cause: [AttributeError]
    for a call without [media_locations] and without [use_cached_media];
    [AssertionError] for a shape assertion or for the flag;
    [ZeroDivisionError] for a zero window size; [IndexError] for a batch
    item without a row or without a marker.  The [NameError] that line 313
    would give is never raised. *)
Theorem forward_exception_has_one_of_four_causes
  self x media media_mask media_locations use_cached_media e :
  outcome (forward x media media_mask media_locations use_cached_media) self
  = Raise e →
  (e = AttributeError ∧ use_cached_media = false ∧ media_locations = None) ∨
  (e = AssertionError ∧
   ((use_cached_media = false ∧
     ∃ ml, media_locations = Some ml ∧ t2_d1 ml ≠ t3_d1 x) ∨
    t4_d2 media ≠ 1 ∨
    (max_window_per_audio self ≠ 0%Z ∧
     (Z.of_nat (t4_d1 media) mod max_window_per_audio self ≠ 0)%Z) ∨
    only_attend_immediate_media self = true)) ∨
  (e = ZeroDivisionError ∧ max_window_per_audio self = 0%Z) ∨
  (e = IndexError ∧ only_attend_immediate_media self = false ∧
   ∃ ml b, media_locations = Some ml ∧ b < t4_d0 media ∧
           (t2_d0 ml ≤ b ∨ ¬ has_marker ml b)).
Proof.
  rewrite forward_outcome. unfold forward_result, mbind, result_bind.
  destruct (entry_checks self x media media_locations use_cached_media)
    as [[]|e0] eqn:Hentry.
  - destruct (only_attend_immediate_media self) eqn:Hflag; cbn [negb py_assert].
    + intros [= <-]. right; left. split; [done|]. by repeat right.
    + rewrite andb_false_r. destruct media_locations as [ml|]; [|done].
      destruct (for_each _ _ _) as [m|e1] eqn:Hrun; [done|].
      intros [= <-]. do 3 right.
      pose proof (item_loop_raise_inv _ _ _ _ _ _ Hrun) as (b & Hb & Hbad).
      apply elem_of_seq in Hb.
      assert (e1 = IndexError) as ->.
      { clear -Hrun. revert Hrun.
        generalize (zeros (t4_d0 media) (t3_d1 x) (t4_d1 media)) as m.
        induction (seq 0 (t4_d0 media)) as [|b0 bs IH]; intros m; [done|].
        cbn [for_each]. unfold mbind, result_bind.
        destruct (item_step self ml (t3_d1 x) b0 m) as [m1|e2] eqn:Hstep.
        - apply IH.
        - intros [= <-]. by eapply item_step_raises. }
      split; [done|]. split; [done|]. exists ml, b.
      split; [done|]. split; [lia | done].
  - intros [= <-].
    destruct (entry_checks_raise_cases _ _ _ _ _ _ Hentry)
      as [?|[(-> & Hwhy)|?]]; [by left| |by right; right; left].
    right; left. split; [done|].
    destruct Hwhy as [?|[?|?]]; [by left | by right; left | by right; right; left].
Qed.

(** X4. With a positive window size the mask grows along the text and is
    closed downwards along the slots: what text position [t] may attend,
    every later position may attend too, and a position that may attend
    slot [s] may attend every earlier slot. *)
Theorem few_shot_mask_grows_along_text
  self x media media_mask ml use_cached_media locals m b t t' s s' :
  outcome (forward x media media_mask (Some ml) use_cached_media) self
  = Ok locals →
  few_shot_mask_of locals = Some m →
  (0 < max_window_per_audio self)%Z →
  b < t4_d0 media → t ≤ t' → t' < t3_d1 x → s' ≤ s → s < t4_d1 media →
  mask_get m b t s = true → mask_get m b t' s' = true.
Proof.
  intros Hout Hm HW Hb Htt Ht' Hss Hs.
  destruct (forward_mask_run _ _ _ _ _ _ _ _ Hout Hm) as [Hflag Hrun].
  rewrite !(few_shot_mask_rule _ _ _ _ _ _ _ _ _ Hrun) by (done || lia).
  pose proof (last_marker_index_mono (row_of ml b) t t' Htt). nia.
Qed.

(** X5. With a positive window size no text position is cut off by the
    location mask: every position of every batch item may attend the whole
    first window, and so slot 0 whenever there is a slot at all. *)
Theorem every_position_attends_first_window
  self x media media_mask ml use_cached_media locals m b t :
  outcome (forward x media media_mask (Some ml) use_cached_media) self
  = Ok locals →
  few_shot_mask_of locals = Some m →
  (0 < max_window_per_audio self)%Z →
  b < t4_d0 media → t < t3_d1 x →
  (∀ s, s < t4_d1 media → (Z.of_nat s < max_window_per_audio self)%Z →
        mask_get m b t s = true) ∧
  (0 < t4_d1 media → mask_get m b t 0 = true).
Proof.
  intros Hout Hm HW Hb Ht.
  destruct (forward_mask_run _ _ _ _ _ _ _ _ Hout Hm) as [Hflag Hrun].
  split.
  - intros s Hs HsW.
    rewrite (few_shot_mask_rule _ _ _ _ _ _ _ _ _ Hrun) by (done || lia). nia.
  - intros HL.
    rewrite (few_shot_mask_rule _ _ _ _ _ _ _ _ _ Hrun) by (done || lia). nia.
Qed.

(** X6. With a positive window size, a batch item with [n] markers never
    attends past its first [n] windows: slots from [n * max_window_per_audio]
    on are disallowed for every text position. *)
Theorem windows_without_marker_are_never_attended
  self x media media_mask ml use_cached_media locals m b t s :
  outcome (forward x media media_mask (Some ml) use_cached_media) self
  = Ok locals →
  few_shot_mask_of locals = Some m →
  (0 < max_window_per_audio self)%Z →
  b < t4_d0 media → t < t3_d1 x → s < t4_d1 media →
  (Z.of_nat (count_markers (row_of ml b)) * max_window_per_audio self
   ≤ Z.of_nat s)%Z →
  mask_get m b t s = false.
Proof.
  intros Hout Hm HW Hb Ht Hs Hbeyond.
  destruct (forward_mask_run _ _ _ _ _ _ _ _ Hout Hm) as [Hflag Hrun].
  apply not_true_iff_false.
  rewrite (few_shot_mask_rule _ _ _ _ _ _ _ _ _ Hrun) by done.
  destruct (few_shot_mask_entries _ _ _ _ _ _ Hrun) as (_ & Hrows & _).
  pose proof (last_marker_index_lt (row_of ml b) t
                (proj1 (has_marker_nonzero ml b) (proj2 (Hrows b Hb)))) as Hk.
  rewrite count_markers_nonzero in Hbeyond. nia.
Qed.

(** X7. For every window size the code accepts, also a negative one, the
    row of text position [t] is the Python slice
    [0 : (k + 1) * max_window_per_audio] of the slot axis, [k] the index of
    the last marker at or before [t]; a negative end counts from the last
    slot. *)
Theorem few_shot_mask_row_is_slice_of_slots
  self x media media_mask ml use_cached_media locals m b t s :
  outcome (forward x media media_mask (Some ml) use_cached_media) self
  = Ok locals →
  few_shot_mask_of locals = Some m →
  b < t4_d0 media → t < t3_d1 x → s < t4_d1 media →
  mask_get m b t s
  = in_slice (t4_d1 media) 0
      ((Z.of_nat (last_marker_index (row_of ml b) t) + 1)
       * max_window_per_audio self) s.
Proof.
  intros Hout Hm Hb Ht Hs.
  destruct (forward_mask_run _ _ _ _ _ _ _ _ Hout Hm) as [Hflag Hrun].
  rewrite (mask_row_is_slice _ _ _ _ _ _ _ _ _ Hrun) by done.
  by rewrite Hflag.
Qed.

(** X8. The rows of the mask do not mix batch items: two calls whose
    [media_locations] agree on the row of batch item [b] (same text length,
    window size and number of slots) build the same row [b] of the mask. *)
Theorem few_shot_mask_row_depends_on_its_item_only
  self1 self2 x1 x2 media1 media2 media_mask1 media_mask2 ml1 ml2
  use_cached1 use_cached2 locals1 locals2 m1 m2 b :
  outcome (forward x1 media1 media_mask1 (Some ml1) use_cached1) self1
  = Ok locals1 →
  few_shot_mask_of locals1 = Some m1 →
  outcome (forward x2 media2 media_mask2 (Some ml2) use_cached2) self2
  = Ok locals2 →
  few_shot_mask_of locals2 = Some m2 →
  t3_d1 x1 = t3_d1 x2 → t4_d1 media1 = t4_d1 media2 →
  max_window_per_audio self1 = max_window_per_audio self2 →
  b < t4_d0 media1 → b < t4_d0 media2 →
  row_of ml1 b = row_of ml2 b →
  ∀ t s, t < t3_d1 x1 → s < t4_d1 media1 →
    mask_get m1 b t s = mask_get m2 b t s.
Proof.
  intros Hout1 Hm1 Hout2 Hm2 HT HL HW Hb1 Hb2 Hrow t s Ht Hs.
  destruct (forward_mask_run _ _ _ _ _ _ _ _ Hout1 Hm1) as [Hflag1 Hrun1].
  destruct (forward_mask_run _ _ _ _ _ _ _ _ Hout2 Hm2) as [Hflag2 Hrun2].
  rewrite (mask_row_is_slice _ _ _ _ _ _ _ _ _ Hrun1) by done.
  rewrite (mask_row_is_slice _ _ _ _ _ _ _ _ _ Hrun2) by (done || lia).
  by rewrite Hflag1, Hflag2, Hrow, HW, HL.
Qed.

(** X9. The loop of lines 281-305 run with
    [only_attend_immediate_media] set ([forward] itself stops at line 276
    before reaching it): with a positive window size and a marker in every
    row it completes, keeps the shape, and lets text position [t] attend
    exactly the window of the last marker at or before [t], slots
    [k * max_window_per_audio] to [(k + 1) * max_window_per_audio - 1]. *)
Theorem immediate_media_loop_keeps_one_window
  self ml B T_txt L :
  only_attend_immediate_media self = true →
  (0 < max_window_per_audio self)%Z →
  (∀ b, b < B → b < t2_d0 ml ∧ has_marker ml b) →
  ∃ m,
    outcome (build_few_shot_mask ml B T_txt L) self = Ok m ∧
    mask_shape B T_txt L m ∧
    ∀ b t s, b < B → t < T_txt → s < L →
      mask_get m b t s = true
      ↔ (Z.of_nat (last_marker_index (row_of ml b) t)
         * max_window_per_audio self
         ≤ Z.of_nat s
         < (Z.of_nat (last_marker_index (row_of ml b) t) + 1)
           * max_window_per_audio self)%Z.
Proof.
  intros Hflag HW Hrows. unfold outcome. rewrite build_few_shot_mask_run.
  cbn [snd].
  destruct (item_loop self ml B T_txt L (seq 0 B) (zeros B T_txt L))
    as (m & Hrun & Hshape & _).
  { apply zeros_shape. }
  { intros b Hb%elem_of_seq. apply Hrows. lia. }
  exists m. split; [done|]. split; [done|].
  intros b t s Hb Ht Hs.
  rewrite (mask_row_is_slice _ _ _ _ _ _ _ _ _ Hrun) by done.
  rewrite Hflag. apply in_slice_nonneg; [nia | nia | done].
Qed.

(** X10. A call with [use_cached_media] set and no [media_locations]
    builds no location mask: the two remaining assertions and the flag
    decide whether it returns (the calls into the tensor library being taken
    to succeed), and with a padding mask of shape (B, L, 1) the score of
    slot [s] reaches the softmax unchanged when [media_mask[b, s, 0]] is
    not zero and is replaced by [-torch.finfo(dtype).max] otherwise,
    whatever the text position. *)
Theorem cached_call_without_locations_masks_padding_only
  self x media media_mask :
  t4_d2 media = 1 →
  max_window_per_audio self ≠ 0%Z →
  (Z.of_nat (t4_d1 media) mod max_window_per_audio self = 0)%Z →
  only_attend_immediate_media self = false →
  t3_d0 media_mask = t4_d0 media → t3_d1 media_mask = t4_d1 media →
  t3_d2 media_mask = 1 →
  ∃ locals,
    outcome (forward x media media_mask None true) self = Ok locals ∧
    few_shot_mask_of locals = None ∧
    ∀ b h t s,
      b < t4_d0 media → s < t4_d1 media →
      t4_at (sim_of locals) b h t s
      = if bool_decide (t3_at media_mask b s 0 ≠ 0%Z)
        then t4_at (similarity self x media) b h t s
        else Finite (- finfo_max).
Proof.
  intros Hd HW Hmod Hflag _ _ Hn. rewrite forward_outcome.
  rewrite forward_result_none; [|apply entry_checks_ok; eauto 6|done].
  eexists. split; [reflexivity|]. split; [reflexivity|].
  intros b h t s _ _. unfold padded_sim, masked_fill, invert. cbn.
  rewrite (rearrange_media_mask_entry _ _ _ _ _ Hn).
  by destruct (bool_decide (t3_at media_mask b s 0 ≠ 0%Z)).
Qed.

End MaskProperties.

(** * Further properties of the gated block *)

Section BlockProperties.

Variable finfo_max : R.
Variable similarity :
  MaskedCrossAttention → Tensor3 float → Tensor4 float → Tensor4 float.
Variable attend :
  MaskedCrossAttention → Tensor4 float → Tensor4 float → nat → nat → nat → float.
Variable feed_forward : list float → Tensor3 float → nat → nat → nat → float.

Local Abbreviation forward :=
  (MaskedCrossAttention_forward finfo_max similarity attend).
Local Abbreviation block_forward :=
  (GatedCrossAttentionBlock_forward finfo_max similarity attend feed_forward).

(** X11. A [GatedCrossAttentionBlock] built without the
    [only_attend_immediate_media] keyword, or with it set to [True], hands
    the set flag to its attention module, so its [forward] raises on every
    input; the exception is the attention module's [AssertionError] whenever
    [media_locations] is given or [use_cached_media] is set, and the window
    size is not zero (the calls into the tensor library that come before
    the flag assertion being taken to succeed). *)
Theorem forward_of_default_block_always_raises
  dim dim_audio W dim_head heads ff_mult flag attn_weights ff_weights
  x media media_mask media_locations use_cached_media :
  flag = None ∨ flag = Some true →
  let self := GatedCrossAttentionBlock_init dim dim_audio W dim_head heads
                ff_mult flag attn_weights ff_weights in
  raises (outcome (block_forward x media media_mask media_locations
                     use_cached_media) self) ∧
  (use_cached_media = true ∨ is_Some media_locations → W ≠ 0%Z →
   outcome (block_forward x media media_mask media_locations use_cached_media)
     self = Raise AssertionError).
Proof.
  intros Hdefault self. unfold outcome.
  rewrite (block_forward_run finfo_max similarity attend feed_forward).
  cbn [snd].
  assert (Hflag : only_attend_immediate_media (attn self) = true).
  { destruct Hdefault as [->| ->]; reflexivity. }
  rewrite forward_result_flag by done. unfold raises.
  destruct (entry_checks (attn self) x media media_locations use_cached_media)
    as [[]|e] eqn:Hentry; cbn.
  - split; [eauto | done].
  - split; [eauto|]. intros Hloc HW. f_equal.
    by eapply entry_checks_raises.
Qed.

(** X12. With the attention gate at 0, a finite attention output has no
    part in the result: whenever the attention call returns finite values,
    the block returns [ff(x) * tanh(ff_gate) + x], entry by entry and in the
    shape of [x], whatever [media], [media_mask] and [media_locations] are
    (finite values read as real numbers, rounding left out). *)
Theorem closed_attention_gate_leaves_feed_forward_residual
  self x media media_mask media_locations use_cached_media locals :
  attn_gate self = Finite 0 →
  outcome (forward x media media_mask media_locations use_cached_media)
    (attn self) = Ok locals →
  (∀ b n d, is_finite (t3_at (out_of locals) b n d)) →
  ∃ y,
    outcome (block_forward x media media_mask media_locations use_cached_media)
      self = Ok y ∧
    (t3_d0 y, t3_d1 y, t3_d2 y) = (t3_d0 x, t3_d1 x, t3_d2 x) ∧
    (∀ b n d,
       t3_at y b n d
       = fadd (fmul (feed_forward (ff_weights self) x b n d)
                 (ftanh (ff_gate self)))
           (t3_at x b n d)) ∧
    (∀ b n d f g v,
       feed_forward (ff_weights self) x b n d = Finite f →
       ff_gate self = Finite g → t3_at x b n d = Finite v →
       t3_at y b n d = Finite (f * tanh g + v)).
Proof.
  intros Hgate Hout Hfin. rewrite forward_outcome in Hout. unfold outcome.
  rewrite (block_forward_run finfo_max similarity attend feed_forward).
  cbn [snd]. rewrite Hout. cbn [mbind result_bind].
  rewrite Hgate, (tensor_add_closed_gate (out_of locals) x Hfin).
  eexists. split; [reflexivity|].
  cbn [tensor_add tensor_scale FeedForward t3_d0 t3_d1 t3_d2 t3_at].
  split; [done|]. split; [done|].
  intros b n d f g v -> -> ->. apply gated_sum_finite.
Qed.

(** X27. A closed gate does not hide a value that is not finite: with the
    attention gate at 0, an entry of the attention output that is infinite
    or NaN makes the same entry of the block's result NaN
    ([inf * 0 = NaN], and NaN goes through both sums). *)
Theorem non_finite_attention_output_leaks_through_closed_gate
  self x media media_mask media_locations use_cached_media locals b n d :
  attn_gate self = Finite 0 →
  outcome (forward x media media_mask media_locations use_cached_media)
    (attn self) = Ok locals →
  ¬ is_finite (t3_at (out_of locals) b n d) →
  ∃ y,
    outcome (block_forward x media media_mask media_locations use_cached_media)
      self = Ok y ∧
    t3_at y b n d = NaN.
Proof.
  intros Hgate Hout Hnot. rewrite forward_outcome in Hout. unfold outcome.
  rewrite (block_forward_run finfo_max similarity attend feed_forward).
  cbn [snd]. rewrite Hout. cbn [mbind result_bind]. rewrite Hgate.
  eexists. split; [reflexivity|].
  cbn [tensor_add tensor_scale t3_at].
  rewrite (closed_gate_non_finite _ _ Hnot). apply fadd_nan_r.
Qed.

End BlockProperties.

(** * Properties of the positional encoding *)

Lemma np_array_rows cols rows :
  rows ≠ [] →
  np_array cols rows
  = Array2 (mkMatrix (length rows) cols
              (fun p j => default 0%R (row ← rows !! p; row !! j))).
Proof. by destruct rows. Qed.

Lemma py_range_0_nil n : (n ≤ 0)%Z → py_range 0 n = [].
Proof. intros Hn. unfold py_range. apply seqZ_nil. lia. Qed.

Lemma py_range_0_length n : length (py_range 0 n) = Z.to_nat n.
Proof. unfold py_range. rewrite length_seqZ. f_equal. lia. Qed.

Lemma py_range_0_lookup n p :
  (Z.of_nat p < n)%Z → py_range 0 n !! p = Some (Z.of_nat p).
Proof.
  intros Hp. unfold py_range. rewrite lookup_seqZ_lt by lia. done.
Qed.

(** The table before it is wrapped into the module. *)
Lemma sinusoid_table_built n_position d_hid :
  (0 < n_position)%Z →
  get_sinusoid_encoding_table n_position d_hid
  = Done (mkTensor3 1 (Z.to_nat n_position) d_hid
            (fun _ p j =>
               m_at (map_columns_from 1 cos
                       (map_columns_from 0 sin
                          (mkMatrix (Z.to_nat n_position) d_hid
                             (fun p j =>
                                default 0%R
                                  (row ← (get_position_angle_vec d_hid
                                            <$> py_range 0 n_position) !! p;
                                   row !! j))))) p j)).
Proof.
  intros Hn. unfold get_sinusoid_encoding_table.
  rewrite np_array_rows.
  - cbn. by rewrite length_fmap, py_range_0_length.
  - intros Hnil%(f_equal length).
    rewrite length_fmap, py_range_0_length in Hnil. cbn in Hnil. lia.
Qed.

Lemma Done_inj {A} (a b : A) : Done a = Done b → a = b.
Proof. congruence. Qed.

Lemma map_columns_sin_cos m p j :
  m_at (map_columns_from 1 cos (map_columns_from 0 sin m)) p j
  = if decide (j mod 2 = 0) then sin (m_at m p j) else cos (m_at m p j).
Proof.
  unfold map_columns_from. cbn [m_at].
  pose proof (Nat.div_mod_eq j 2) as Hj0.
  pose proof (Nat.mod_upper_bound j 2 ltac:(lia)) as Hj0'.
  pose proof (Nat.div_mod_eq (j - 1) 2) as Hj1.
  pose proof (Nat.mod_upper_bound (j - 1) 2 ltac:(lia)) as Hj1'.
  rewrite Nat.sub_0_r.
  repeat case_decide; try done; lia.
Qed.

Lemma sinusoid_table_entry n_position d_hid table p j :
  get_sinusoid_encoding_table n_position d_hid = Done table →
  (Z.of_nat p < n_position)%Z → j < d_hid →
  ∀ b, t3_at table b p j
       = if decide (j mod 2 = 0)
         then sin (position_angle d_hid (Z.of_nat p) j)
         else cos (position_angle d_hid (Z.of_nat p) j).
Proof.
  intros Htable Hp Hj b.
  rewrite sinusoid_table_built in Htable by lia.
  apply Done_inj in Htable. rewrite <- Htable.
  cbn [t3_at]. rewrite map_columns_sin_cos. cbn [m_at].
  rewrite list_lookup_fmap, py_range_0_lookup by done.
  unfold get_position_angle_vec. cbn [fmap option_fmap option_map mbind
    option_bind].
  rewrite list_lookup_fmap, lookup_seq_lt by done. reflexivity.
Qed.

Lemma init_table d_hid n_position self :
  PositionalEncoding_init d_hid n_position = Done self →
  (0 < n_position)%Z ∧
  get_sinusoid_encoding_table n_position d_hid = Done (pos_table self) ∧
  t3_d0 (pos_table self) = 1 ∧
  t3_d1 (pos_table self) = Z.to_nat n_position ∧
  t3_d2 (pos_table self) = d_hid.
Proof.
  intros Hinit. unfold PositionalEncoding_init in Hinit.
  destruct (decide (0 < n_position)%Z) as [Hn|Hn].
  - split; [done|].
    rewrite sinusoid_table_built in * by done. cbn in Hinit.
    injection Hinit as <-. done.
  - unfold get_sinusoid_encoding_table in Hinit.
    rewrite py_range_0_nil in Hinit by lia. done.
Qed.

(** X13. [PositionalEncoding(d_hid, n_position)] needs a positive
    [n_position]: without positions numpy builds an array of one axis and
    the column indexing raises [IndexError]; with [n_position > 0] the
    module holds a table of shape (1, n_position, d_hid). *)
Theorem positional_encoding_needs_a_position d_hid n_position :
  ((n_position ≤ 0)%Z →
   PositionalEncoding_init d_hid n_position = Fail (Builtin IndexError)) ∧
  ((0 < n_position)%Z →
   ∃ self,
     PositionalEncoding_init d_hid n_position = Done self ∧
     t3_d0 (pos_table self) = 1 ∧
     t3_d1 (pos_table self) = Z.to_nat n_position ∧
     t3_d2 (pos_table self) = d_hid).
Proof.
  unfold PositionalEncoding_init. split; intros Hn.
  - unfold get_sinusoid_encoding_table. by rewrite py_range_0_nil.
  - rewrite sinusoid_table_built by done. cbn. eauto.
Qed.

Lemma even_index_angle d_hid position i :
  position_angle d_hid position (2 * i)
  = (IZR position / Rpower 10000 (INR (2 * i) / INR d_hid))%R.
Proof.
  unfold position_angle.
  replace (2 * i / 2) with i; [done|].
  by rewrite Nat.mul_comm, Nat.div_mul.
Qed.

Lemma odd_index_angle d_hid position i :
  position_angle d_hid position (2 * i + 1)
  = (IZR position / Rpower 10000 (INR (2 * i) / INR d_hid))%R.
Proof.
  unfold position_angle.
  replace ((2 * i + 1) / 2) with i; [done|].
  replace (2 * i + 1) with (1 + i * 2) by lia.
  by rewrite Nat.div_add.
Qed.

(** X14. The table is the sinusoid encoding: at position [pos], feature
    [2i] is [sin(pos / 10000^(2i/d_hid))] and feature [2i+1] is
    [cos(pos / 10000^(2i/d_hid))] (entries read as real numbers). *)
Theorem pos_table_is_sinusoid_encoding d_hid n_position self pos i :
  PositionalEncoding_init d_hid n_position = Done self →
  (Z.of_nat pos < n_position)%Z →
  (2 * i < d_hid →
   t3_at (pos_table self) 0 pos (2 * i)
   = sin (INR pos / Rpower 10000 (INR (2 * i) / INR d_hid))) ∧
  (2 * i + 1 < d_hid →
   t3_at (pos_table self) 0 pos (2 * i + 1)
   = cos (INR pos / Rpower 10000 (INR (2 * i) / INR d_hid))).
Proof.
  intros (_ & Htable & _)%init_table Hpos. rewrite INR_IZR_INZ. split; intros Hi.
  - rewrite (sinusoid_table_entry _ _ _ _ _ Htable) by done.
    rewrite decide_True by (rewrite Nat.mul_comm; apply Nat.Div0.mod_mul).
    by rewrite even_index_angle.
  - rewrite (sinusoid_table_entry _ _ _ _ _ Htable) by done.
    rewrite decide_False.
    + by rewrite odd_index_angle.
    + replace (2 * i + 1) with (1 + i * 2) by lia.
      rewrite Nat.Div0.mod_add. done.
Qed.

(** X15. Position 0 is encoded as 0 at the even features and 1 at the odd
    ones. *)
Theorem pos_table_at_position_zero d_hid n_position self j :
  PositionalEncoding_init d_hid n_position = Done self →
  j < d_hid →
  t3_at (pos_table self) 0 0 j = if decide (j mod 2 = 0) then 0%R else 1%R.
Proof.
  intros (Hn & Htable & _)%init_table Hj.
  rewrite (sinusoid_table_entry _ _ _ 0 _ Htable) by (done || lia).
  assert (Hangle : position_angle d_hid (Z.of_nat 0) j = 0%R).
  { unfold position_angle. cbn. unfold Rdiv. apply Rmult_0_l. }
  rewrite Hangle. case_decide; [apply sin_0 | apply cos_0].
Qed.

(** ** Adding the table *)

Lemma broadcast_dim_compatible a b :
  a = b ∨ a = 1 ∨ b = 1 →
  broadcast_dim a b = Done (if a =? 1 then b else a).
Proof.
  intros Hc. unfold broadcast_dim.
  destruct (a =? b) eqn:Hab, (a =? 1) eqn:Ha, (b =? 1) eqn:Hb;
    try reflexivity;
    repeat match goal with
           | H : (_ =? _) = true |- _ => apply Nat.eqb_eq in H
           | H : (_ =? _) = false |- _ => apply Nat.eqb_neq in H
           end; first [f_equal; lia | lia].
Qed.

Lemma broadcast_dim_incompatible a b :
  ¬ (a = b ∨ a = 1 ∨ b = 1) → broadcast_dim a b = Fail RuntimeError.
Proof.
  intros Hc. unfold broadcast_dim.
  destruct (a =? b) eqn:Hab, (a =? 1) eqn:Ha, (b =? 1) eqn:Hb;
    try reflexivity;
    repeat match goal with
           | H : (_ =? _) = true |- _ => apply Nat.eqb_eq in H
           | H : (_ =? _) = false |- _ => apply Nat.eqb_neq in H
           end; lia.
Qed.

Lemma broadcast_index_in_range dim i : i < dim → broadcast_index dim i = i.
Proof.
  intros Hi. unfold broadcast_index.
  destruct (dim =? 1) eqn:Hd; [|done]. apply Nat.eqb_eq in Hd. lia.
Qed.

Lemma slice1_dim t L :
  t3_d1 (tensor3_slice1 t (Z.of_nat L)) = Nat.min L (t3_d1 t).
Proof.
  unfold tensor3_slice1, slice_bound. cbn [t3_d1].
  destruct (Z.ltb_spec (Z.of_nat L) 0); lia.
Qed.

(** For a module built with [n_position] positions: the sizes the sum
    compares. *)
Lemma positional_forward_dims d_hid n_position self x :
  PositionalEncoding_init d_hid n_position = Done self →
  PositionalEncoding_forward self x
  = (d1 ← broadcast_dim (t3_d1 x) (Nat.min (t3_d1 x) (Z.to_nat n_position));
     d2 ← broadcast_dim (t3_d2 x) d_hid;
     Done (mkTensor3 (t3_d0 x) d1 d2
             (fun i j k =>
                (t3_at x (broadcast_index (t3_d0 x) i)
                   (broadcast_index (t3_d1 x) j) (broadcast_index (t3_d2 x) k)
                 + t3_at (pos_table self) 0
                     (broadcast_index
                        (Nat.min (t3_d1 x) (Z.to_nat n_position)) j)
                     (broadcast_index d_hid k))%R))).
Proof.
  intros (_ & _ & H0 & H1 & H2)%init_table.
  unfold PositionalEncoding_forward, torch_add.
  rewrite slice1_dim, H1. cbn [tensor3_slice1 t3_d0 t3_d2 t3_at].
  rewrite H0, H2.
  rewrite (broadcast_dim_compatible (t3_d0 x) 1) by lia.
  cbn [mbind lib_result_bind].
  assert (Hd0 : (if t3_d0 x =? 1 then 1 else t3_d0 x) = t3_d0 x).
  { destruct (t3_d0 x =? 1) eqn:H; [apply Nat.eqb_eq in H; lia | done]. }
  rewrite Hd0. reflexivity.
Qed.

(** The shape of what [forward] returns. *)
Lemma positional_forward_shape d_hid n_position self x y :
  PositionalEncoding_init d_hid n_position = Done self →
  PositionalEncoding_forward self x = Done y →
  (t3_d1 x ≤ Z.to_nat n_position ∨ n_position = 1%Z) ∧
  (t3_d2 x = d_hid ∨ t3_d2 x = 1 ∨ d_hid = 1) ∧
  t3_d0 y = t3_d0 x ∧
  t3_d2 y = (if t3_d2 x =? 1 then d_hid else t3_d2 x).
Proof.
  intros Hinit. rewrite (positional_forward_dims _ _ _ _ Hinit).
  apply init_table in Hinit as (Hn & _).
  destruct (decide (t3_d1 x ≤ Z.to_nat n_position ∨ n_position = 1%Z))
    as [HL|HL].
  - rewrite (broadcast_dim_compatible (t3_d1 x)) by lia.
    cbn [mbind lib_result_bind].
    destruct (decide (t3_d2 x = d_hid ∨ t3_d2 x = 1 ∨ d_hid = 1)) as [HD|HD].
    + rewrite broadcast_dim_compatible by done. cbn [mbind lib_result_bind].
      intros [= <-]. done.
    + by rewrite broadcast_dim_incompatible.
  - rewrite (broadcast_dim_incompatible (t3_d1 x)); [done|].
    intros Hc. apply HL. lia.
Qed.

Lemma positional_forward_misfit d_hid n_position self x :
  PositionalEncoding_init d_hid n_position = Done self →
  ¬ ((t3_d1 x ≤ Z.to_nat n_position ∨ n_position = 1%Z) ∧
     (t3_d2 x = d_hid ∨ t3_d2 x = 1 ∨ d_hid = 1)) →
  PositionalEncoding_forward self x = Fail RuntimeError.
Proof.
  intros Hinit Hnot. rewrite (positional_forward_dims _ _ _ _ Hinit).
  apply init_table in Hinit as (Hn & _).
  destruct (decide (t3_d1 x ≤ Z.to_nat n_position ∨ n_position = 1%Z))
    as [HL|HL].
  - rewrite (broadcast_dim_compatible (t3_d1 x)) by lia.
    cbn [mbind lib_result_bind].
    rewrite broadcast_dim_incompatible; [done|]. intros HD. by apply Hnot.
  - rewrite (broadcast_dim_incompatible (t3_d1 x)); [done|].
    intros Hc. apply HL. lia.
Qed.

(** X17. For a module built with [n_position] positions and [d_hid]
    features, [forward] accepts [x] of shape (B, L, D) exactly when
    [L ≤ n_position] or [n_position = 1], and [D = d_hid] or one of the two
    is 1; any other shape is a [RuntimeError] of the sum. *)
Theorem positional_forward_accepts_exactly d_hid n_position self x :
  PositionalEncoding_init d_hid n_position = Done self →
  let fits :=
    (t3_d1 x ≤ Z.to_nat n_position ∨ n_position = 1%Z) ∧
    (t3_d2 x = d_hid ∨ t3_d2 x = 1 ∨ d_hid = 1) in
  (fits → ∃ y, PositionalEncoding_forward self x = Done y) ∧
  (¬ fits → PositionalEncoding_forward self x = Fail RuntimeError).
Proof.
  intros Hinit fits. subst fits. split.
  - intros [HL HD]. rewrite (positional_forward_dims _ _ _ _ Hinit).
    apply init_table in Hinit as (Hn & _).
    rewrite broadcast_dim_compatible by lia. cbn [mbind lib_result_bind].
    rewrite broadcast_dim_compatible by lia. cbn [mbind lib_result_bind].
    eauto.
  - intros Hnot. by apply (positional_forward_misfit d_hid n_position).
Qed.

(** X18. On a sequence no longer than the table, with [d_hid] features,
    [forward] keeps the shape of [x] and adds to the entry at position [l],
    feature [j] of every batch item the table entry of that position and
    feature (the sum read as that of real numbers). *)
Theorem positional_forward_adds_table_entries d_hid n_position self x :
  PositionalEncoding_init d_hid n_position = Done self →
  t3_d1 x ≤ Z.to_nat n_position → t3_d2 x = d_hid →
  ∃ y,
    PositionalEncoding_forward self x = Done y ∧
    t3_d0 y = t3_d0 x ∧ t3_d1 y = t3_d1 x ∧ t3_d2 y = t3_d2 x ∧
    ∀ b l j, b < t3_d0 x → l < t3_d1 x → j < t3_d2 x →
      t3_at y b l j = (t3_at x b l j + t3_at (pos_table self) 0 l j)%R.
Proof.
  intros Hinit HL HD. rewrite (positional_forward_dims _ _ _ _ Hinit).
  rewrite broadcast_dim_compatible by lia. cbn [mbind lib_result_bind].
  rewrite broadcast_dim_compatible by lia. cbn [mbind lib_result_bind].
  eexists. split; [reflexivity|]. cbn [t3_d0 t3_d1 t3_d2 t3_at].
  split; [done|]. split.
  { destruct (t3_d1 x =? 1) eqn:H; [apply Nat.eqb_eq in H; lia | done]. }
  split.
  { destruct (t3_d2 x =? 1) eqn:H; [apply Nat.eqb_eq in H; lia | done]. }
  intros b l j Hb Hl Hj.
  by rewrite !broadcast_index_in_range by lia.
Qed.

(** X19. A table with a single position is broadcast along the sequence:
    [forward] then accepts every length and adds the encoding of position
    0, that is 0 at the even features and 1 at the odd ones, at every
    position. *)
Theorem single_position_table_is_broadcast d_hid self x :
  PositionalEncoding_init d_hid 1 = Done self →
  t3_d2 x = d_hid →
  ∃ y,
    PositionalEncoding_forward self x = Done y ∧
    t3_d0 y = t3_d0 x ∧ t3_d1 y = t3_d1 x ∧ t3_d2 y = t3_d2 x ∧
    ∀ b l j, b < t3_d0 x → l < t3_d1 x → j < t3_d2 x →
      t3_at y b l j
      = (t3_at x b l j + if decide (j mod 2 = 0)%nat then 0 else 1)%R.
Proof.
  intros Hinit HD. rewrite (positional_forward_dims _ _ _ _ Hinit).
  change (Z.to_nat 1) with 1.
  rewrite broadcast_dim_compatible by lia. cbn [mbind lib_result_bind].
  rewrite broadcast_dim_compatible by lia. cbn [mbind lib_result_bind].
  eexists. split; [reflexivity|]. cbn [t3_d0 t3_d1 t3_d2 t3_at].
  split; [done|]. split.
  { destruct (t3_d1 x =? 1) eqn:H; [apply Nat.eqb_eq in H; lia | done]. }
  split.
  { destruct (t3_d2 x =? 1) eqn:H; [apply Nat.eqb_eq in H; lia | done]. }
  intros b l j Hb Hl Hj.
  rewrite (broadcast_index_in_range (t3_d0 x)),
    (broadcast_index_in_range (t3_d1 x)),
    (broadcast_index_in_range (t3_d2 x)),
    (broadcast_index_in_range d_hid) by lia.
  assert (Hmin : broadcast_index (Nat.min (t3_d1 x) 1) l = 0).
  { unfold broadcast_index. replace (Nat.min (t3_d1 x) 1) with 1 by lia.
    reflexivity. }
  rewrite Hmin. f_equal.
  apply init_table in Hinit as (Hn & Htable & _).
  rewrite (sinusoid_table_entry _ _ _ 0 j Htable) by lia.
  assert (Hangle : position_angle d_hid (Z.of_nat 0) j = 0%R).
  { unfold position_angle. cbn. unfold Rdiv. apply Rmult_0_l. }
  rewrite Hangle. case_decide; [apply sin_0 | apply cos_0].
Qed.

(** * TransformerEncoder *)

Section EncoderProperties.

Variable dropout_values : R → Tensor3 R → nat → nat → nat → R.
Variable layer_norm_values : list R → Tensor3 R → nat → nat → nat → R.
Variable EncoderLayer_forward :
  EncoderLayer → Tensor3 R → option (Tensor3 Z) →
  lib_result (Tensor3 R * Tensor4 R).

Local Abbreviation encoder_forward :=
  (TransformerEncoder_forward dropout_values layer_norm_values
     EncoderLayer_forward).

(** What [__init__] leaves in the module. *)
Lemma encoder_init_inv d_word_vec n_layers n_head d_k d_v dm d_inner dropout
    n_position se layer_weights lnw self :
  TransformerEncoder_init d_word_vec n_layers n_head d_k d_v dm d_inner
    dropout n_position se layer_weights lnw = Done self →
  (0 <= dropout <= 1)%R ∧
  (if (0 <? n_position)%Z
   then ∃ pe, PositionalEncoding_init d_word_vec n_position = Done pe ∧
              position_enc self = Some pe
   else position_enc self = None) ∧
  length (layer_stack self) = Z.to_nat n_layers ∧
  d_model self = dm ∧ scale_emb self = se.
Proof.
  unfold TransformerEncoder_init.
  destruct (0 <? n_position)%Z eqn:Hn.
  - destruct (PositionalEncoding_init d_word_vec n_position) as [pe|e] eqn:Hpe;
      [|done].
    cbn [mbind lib_result_bind].
    destruct (Rlt_dec dropout 0) as [Hlo|Hlo]; [done|].
    destruct (Rlt_dec 1 dropout) as [Hhi|Hhi]; [done|].
    cbn [mbind lib_result_bind]. intros [= <-]. cbn.
    split; [split; by apply Rnot_lt_le|]. split; [by exists pe|].
    split; [|done]. rewrite length_fmap. unfold py_range.
    rewrite length_seqZ. f_equal. lia.
  - cbn [mbind lib_result_bind].
    destruct (Rlt_dec dropout 0) as [Hlo|Hlo]; [done|].
    destruct (Rlt_dec 1 dropout) as [Hhi|Hhi]; [done|].
    cbn [mbind lib_result_bind]. intros [= <-]. cbn.
    split; [split; by apply Rnot_lt_le|]. split; [done|].
    split; [|done]. rewrite length_fmap. unfold py_range.
    rewrite length_seqZ. f_equal. lia.
Qed.

(** [__init__] returns for every probability. *)
Lemma encoder_built d_word_vec n_layers n_head d_k d_v dm d_inner dropout
    n_position se layer_weights lnw :
  (0 <= dropout <= 1)%R →
  ∃ self,
    TransformerEncoder_init d_word_vec n_layers n_head d_k d_v dm d_inner
      dropout n_position se layer_weights lnw = Done self.
Proof.
  intros [Hlo Hhi]. unfold TransformerEncoder_init.
  destruct (0 <? n_position)%Z eqn:Hn.
  - unfold PositionalEncoding_init.
    rewrite sinusoid_table_built by lia. cbn [mbind lib_result_bind].
    destruct (Rlt_dec dropout 0) as [H|_]; [by apply Rlt_not_le in H|].
    destruct (Rlt_dec 1 dropout) as [H|_]; [by apply Rlt_not_le in H|].
    cbn [mbind lib_result_bind]. eauto.
  - cbn [mbind lib_result_bind].
    destruct (Rlt_dec dropout 0) as [H|_]; [by apply Rlt_not_le in H|].
    destruct (Rlt_dec 1 dropout) as [H|_]; [by apply Rlt_not_le in H|].
    cbn [mbind lib_result_bind]. eauto.
Qed.

Lemma sample_encoder_built :
  TransformerEncoder_init 4 2 1 4 4 4 8 0 0 true (fun _ => []) []
  = Done sample_encoder.
Proof.
  unfold TransformerEncoder_init. cbn [Z.ltb Z.compare mbind lib_result_bind].
  destruct (Rlt_dec 0 0) as [H|_]; [by apply Rlt_irrefl in H|].
  destruct (Rlt_dec 1 0) as [H|_].
  { apply Rlt_not_le in H. destruct H. apply Rle_0_1. }
  reflexivity.
Qed.

(** The layer loop appends one attention map per layer when asked to, and
    none otherwise. *)
Lemma layer_loop_attns (flag : bool) layers out attns out' attns' :
  for_each layers
    (fun enc_layer '(enc_output, enc_slf_attn_list) =>
       '(enc_output, enc_slf_attn) ←
         EncoderLayer_forward enc_layer enc_output (@None (Tensor3 Z));
       Done (enc_output,
             enc_slf_attn_list ++ (if flag then [enc_slf_attn] else [])))
    (out, attns) = Done (out', attns') →
  length attns' = length attns + (if flag then length layers else 0).
Proof.
  revert out attns. induction layers as [|layer layers IH]; intros out attns.
  - cbn. intros [= _ <-]. destruct flag; lia.
  - cbn [for_each].
    destruct (EncoderLayer_forward layer out None) as [[o a]|e]; [|done].
    cbn [mbind lib_result_bind]. intros H%IH. rewrite H, length_app.
    destruct flag; cbn [length]; lia.
Qed.

(** What a call that returns has gone through. *)
Lemma encoder_forward_inv self src flag r :
  encoder_forward self src flag = Done r →
  ∃ B L D x out attns,
    (tn_shape src = [B; L; D] ∨ (tn_shape src = [B; D] ∧ L = 1)) ∧
    t3_d0 x = B ∧ t3_d1 x = L ∧ t3_d2 x = D ∧
    match position_enc self with
    | Some pe => ∃ y, PositionalEncoding_forward pe x = Done y ∧
                      t3_d2 y = d_model self
    | None => D = d_model self
    end ∧
    length attns = (if flag then length (layer_stack self) else 0) ∧
    r = if flag then WithAttns out attns else OutputOnly out.
Proof.
  unfold TransformerEncoder_forward.
  set (src' := if length (tn_shape src) =? 2 then unsqueeze_1 src else src).
  assert (Hshape : ∀ B L D, tn_shape src' = [B; L; D] →
            tn_shape src = [B; L; D] ∨ (tn_shape src = [B; D] ∧ L = 1)).
  { intros B L D. subst src'.
    destruct (tn_shape src) as [|a [|b [|c [|d rest]]]] eqn:Hs;
      cbn; rewrite ?Hs; cbn; try done.
    - intros [= <- <- <-]. by right.
    - intros [= <- <- <-]. by left. }
  destruct (tn_shape src') as [|B [|L [|D [|d rest]]]] eqn:Hs'; try done.
  cbn [unpack3 mbind lib_result_bind].
  set (x := if scale_emb self
            then scale_entries (as_tensor3 B L D src')
                   (sqrt (INR (d_model self)))
            else as_tensor3 B L D src').
  assert (Hx : t3_d0 x = B ∧ t3_d1 x = L ∧ t3_d2 x = D).
  { subst x. by destruct (scale_emb self). }
  destruct (match position_enc self with
            | Some pe => PositionalEncoding_forward pe x
            | None => Done x
            end) as [y|e] eqn:Hpe; [|done].
  cbn [mbind lib_result_bind]. unfold LayerNorm, Dropout. cbn [t3_d2].
  destruct (t3_d2 y =? d_model self) eqn:Hln; [|done].
  apply Nat.eqb_eq in Hln. cbn [mbind lib_result_bind].
  match goal with
  | |- context [for_each ?ls ?body ?s] =>
      destruct (for_each ls body s) as [[out attns]|e] eqn:Hloop; [|done]
  end.
  apply layer_loop_attns in Hloop. cbn [length] in Hloop.
  cbn [mbind lib_result_bind]. intros Hr.
  exists B, L, D, x, out, attns.
  split; [by apply Hshape|]. destruct Hx as (Hx0 & Hx1 & Hx2).
  split; [done|]. split; [done|]. split; [done|]. split.
  { destruct (position_enc self) as [pe|].
    - by exists y.
    - injection Hpe as <-. by rewrite <- Hx2. }
  split; [done|]. destruct flag; by injection Hr as <-.
Qed.

(** X20. [forward] takes tensors of two or three axes: on any other rank
    the unpacking of the shape raises [ValueError], whatever the module. *)
Theorem encoder_forward_rejects_other_ranks self src flag :
  length (tn_shape src) ≠ 2 → length (tn_shape src) ≠ 3 →
  TransformerEncoder_forward dropout_values layer_norm_values
    EncoderLayer_forward self src flag = Fail ValueError.
Proof.
  intros H2 H3. unfold TransformerEncoder_forward.
  destruct (length (tn_shape src) =? 2) eqn:Hlen.
  { apply Nat.eqb_eq in Hlen. done. }
  destruct (tn_shape src) as [|a [|b [|c [|d rest]]]]; cbn in *; done.
Qed.

(** X21. An encoder built with a table of at least two positions rejects
    every sequence that is longer than the table: the sum with the table
    raises [RuntimeError] before any layer runs. *)
Theorem encoder_forward_rejects_sequences_longer_than_table
    d_word_vec n_layers n_head d_k d_v dm d_inner dropout n_position se
    layer_weights lnw self src flag B L D :
  TransformerEncoder_init d_word_vec n_layers n_head d_k d_v dm d_inner
    dropout n_position se layer_weights lnw = Done self →
  (2 ≤ n_position)%Z →
  tn_shape src = [B; L; D] → Z.to_nat n_position < L →
  encoder_forward self src flag = Fail RuntimeError.
Proof.
  intros Hinit Hn Hs HL.
  apply encoder_init_inv in Hinit as (_ & Hpe & _).
  replace (0 <? n_position)%Z with true in Hpe by lia.
  destruct Hpe as (pe & Hpe & Hself).
  unfold TransformerEncoder_forward. rewrite Hs. cbn [length Nat.eqb].
  rewrite Hs, Hself. cbn [unpack3 mbind lib_result_bind].
  rewrite (positional_forward_misfit _ _ _ _ Hpe); [done|].
  intros [Hfit _].
  assert (Hd1 : t3_d1 (if scale_emb self
                       then scale_entries (as_tensor3 B L D src)
                              (sqrt (INR (d_model self)))
                       else as_tensor3 B L D src) = L)
    by by destruct (scale_emb self).
  rewrite Hd1 in Hfit. lia.
Qed.

(** X22. An encoder built with a position table, and with a word vector
    size that is neither 1 nor the model size, is unusable: [forward]
    raises on every input. *)
Theorem encoder_needs_equal_word_and_model_sizes
    d_word_vec n_layers n_head d_k d_v dm d_inner dropout n_position se
    layer_weights lnw self :
  TransformerEncoder_init d_word_vec n_layers n_head d_k d_v dm d_inner
    dropout n_position se layer_weights lnw = Done self →
  (0 < n_position)%Z → d_word_vec ≠ 1 → d_word_vec ≠ dm →
  ∀ src flag, ∃ e, encoder_forward self src flag = Fail e.
Proof.
  intros Hinit Hn H1 Hdm src flag.
  apply encoder_init_inv in Hinit as (_ & Hpe & _ & Hmodel & _).
  replace (0 <? n_position)%Z with true in Hpe by lia.
  destruct Hpe as (pe & Hpe & Hself).
  destruct (encoder_forward self src flag) as [r|e] eqn:Hrun; [|by exists e].
  apply encoder_forward_inv in Hrun
    as (B & L & D & x & out & attns & _ & _ & _ & HD & Hpos & _).
  rewrite Hself in Hpos. destruct Hpos as (y & Hy & Hlast).
  destruct (positional_forward_shape _ _ _ _ _ Hpe Hy) as (_ & Hfit & _ & Hd2).
  rewrite Hlast, Hmodel in Hd2.
  destruct (t3_d2 x =? 1) eqn:Hone; [done|].
  apply Nat.eqb_neq in Hone. lia.
Qed.

(** X23. When [forward] returns, it returns the output alone if
    [return_attns] is false, and otherwise the output with a list of
    attention maps that has one entry per layer of the encoder. *)
Theorem encoder_returns_one_attention_map_per_layer
    d_word_vec n_layers n_head d_k d_v dm d_inner dropout n_position se
    layer_weights lnw self src flag r :
  TransformerEncoder_init d_word_vec n_layers n_head d_k d_v dm d_inner
    dropout n_position se layer_weights lnw = Done self →
  encoder_forward self src flag = Done r →
  if flag
  then ∃ out attns, r = WithAttns out attns ∧
                    length attns = Z.to_nat n_layers
  else ∃ out, r = OutputOnly out.
Proof.
  intros Hinit Hrun.
  apply encoder_init_inv in Hinit as (_ & _ & Hlayers & _).
  apply encoder_forward_inv in Hrun
    as (B & L & D & x & out & attns & _ & _ & _ & _ & _ & Hlen & ->).
  destruct flag.
  - exists out, attns. by rewrite Hlen.
  - by exists out.
Qed.

End EncoderProperties.

(** * The head reshaping of MultiHeadAttention *)

Lemma div_mul_add q m r : r < m → (q * m + r) / m = q.
Proof. intros Hr. symmetry. apply (Nat.div_unique _ m q r); lia. Qed.

Lemma mod_mul_add q m r : r < m → (q * m + r) mod m = r.
Proof. intros Hr. symmetry. apply (Nat.mod_unique _ m q r); lia. Qed.

Lemma head_feature_lt n d h j : h < n → j < d → h * d + j < n * d.
Proof. intros Hh Hj. nia. Qed.

(** Where the entry (b, l, h, j) of the four-axis view lies in a tensor of
    shape (B, L, n * d). *)
Lemma split_offset L n d b h l j :
  h < n → l < L → j < d →
  let off := ((b * L + l) * n + h) * d + j in
  off / (L * (n * d)) = b ∧ off / (n * d) mod L = l ∧
  off mod (n * d) = h * d + j.
Proof.
  intros Hh Hl Hj off.
  pose proof (head_feature_lt n d h j Hh Hj) as Hf.
  assert (Hoff : off = (b * L + l) * (n * d) + (h * d + j))
    by (subst off; ring).
  split; [|split].
  - replace off with (b * (L * (n * d)) + (l * (n * d) + (h * d + j)))
      by (subst off; ring).
    apply div_mul_add. nia.
  - rewrite Hoff, div_mul_add by done. by apply mod_mul_add.
  - rewrite Hoff. by apply mod_mul_add.
Qed.

(** Where the entry (b, l, f) of the three-axis view lies in a tensor of
    shape (B, L, n, d). *)
Lemma merge_offset L n d b l f :
  l < L → f < n * d →
  let off := (b * L + l) * (n * d) + f in
  off / (L * n * d) = b ∧ off / (n * d) mod L = l ∧
  off / d mod n = f / d ∧ off mod d = f mod d.
Proof.
  intros Hl Hf off.
  assert (Hd : d ≠ 0) by (intros ->; lia).
  assert (Hfd : f / d < n).
  { apply Nat.Div0.div_lt_upper_bound. lia. }
  split; [|split; [|split]].
  - replace off with (b * (L * n * d) + (l * (n * d) + f))
      by (subst off; ring).
    apply div_mul_add. nia.
  - subst off. rewrite div_mul_add by done. by apply mod_mul_add.
  - replace off with ((b * L + l) * n * d + f) by (subst off; ring).
    rewrite Nat.div_add_l by done. by apply mod_mul_add.
  - replace off with (f + (b * L + l) * n * d) by (subst off; ring).
    apply Nat.Div0.mod_add.
Qed.

Lemma split_heads_run projected B L n d :
  t3_d0 projected = B → t3_d1 projected = L → t3_d2 projected = n * d →
  split_heads projected B L n d
  = Done (mkTensor4 B n L d
            (fun b h l j =>
               let off := ((b * L + l) * n + h) * d + j in
               t3_at projected (off / (L * (n * d)))
                 (off / (n * d) mod L) (off mod (n * d)))).
Proof.
  intros H0 H1 H2. unfold split_heads, view_3_to_4. rewrite H0, H1, H2.
  replace (B * L * (n * d) =? B * L * n * d) with true
    by (symmetry; apply Nat.eqb_eq; ring).
  reflexivity.
Qed.

Lemma merge_heads_run q B L n d :
  t4_d0 q = B → t4_d1 q = n → t4_d2 q = L → t4_d3 q = d →
  0 < B → 0 < L →
  merge_heads q B L
  = Done (mkTensor3 B L (n * d)
            (fun b l f =>
               let off := (b * L + l) * (n * d) + f in
               t4_at q (off / (L * n * d)) (off / d mod n)
                 (off / (n * d) mod L) (off mod d))).
Proof.
  intros H0 H1 H2 H3 HB HL. unfold merge_heads, view_4_to_3_infer.
  cbn [transpose_1_2 t4_d0 t4_d1 t4_d2 t4_d3 t4_at]. rewrite H0, H1, H2, H3.
  replace (B * L * n * d) with (n * d * (B * L)) by ring.
  rewrite Nat.Div0.mod_mul, Nat.div_mul by nia.
  replace (B * L =? 0) with false by (symmetry; apply Nat.eqb_neq; nia).
  reflexivity.
Qed.

(** X24. Splitting a projection of shape (B, L, n * d) gives a tensor of
    shape (B, n, L, d) in which head [h] holds, at position [l], the
    features [h * d .. h * d + d - 1] of that position. *)
Theorem split_heads_takes_consecutive_features projected B L n d :
  t3_d0 projected = B → t3_d1 projected = L → t3_d2 projected = n * d →
  ∃ t,
    split_heads projected B L n d = Done t ∧
    t4_d0 t = B ∧ t4_d1 t = n ∧ t4_d2 t = L ∧ t4_d3 t = d ∧
    ∀ b h l j, b < B → h < n → l < L → j < d →
      t4_at t b h l j = t3_at projected b l (h * d + j).
Proof.
  intros H0 H1 H2. rewrite (split_heads_run projected B L n d) by done.
  eexists. split; [reflexivity|]. cbn [t4_d0 t4_d1 t4_d2 t4_d3 t4_at].
  do 4 (split; [done|]). intros b h l j Hb Hh Hl Hj.
  destruct (split_offset L n d b h l j Hh Hl Hj) as (-> & -> & ->). done.
Qed.

(** X25. Merging the heads of a tensor of shape (B, n, L, d) raises
    [RuntimeError] when the batch or the sequence is empty, since the last
    size cannot be worked out; otherwise it gives a tensor of shape
    (B, L, n * d) that holds at each position the features of head 0, then
    those of head 1, and so on. *)
Theorem merge_heads_concatenates_heads q B L n d :
  t4_d0 q = B → t4_d1 q = n → t4_d2 q = L → t4_d3 q = d →
  (B = 0 ∨ L = 0 → merge_heads q B L = Fail RuntimeError) ∧
  (0 < B → 0 < L →
   ∃ t,
     merge_heads q B L = Done t ∧
     t3_d0 t = B ∧ t3_d1 t = L ∧ t3_d2 t = n * d ∧
     ∀ b l f, b < B → l < L → f < n * d →
       t3_at t b l f = t4_at q b (f / d) l (f mod d)).
Proof.
  intros H0 H1 H2 H3. split.
  - intros Hempty. unfold merge_heads, view_4_to_3_infer.
    replace (B * L =? 0) with true by (symmetry; apply Nat.eqb_eq; nia).
    reflexivity.
  - intros HB HL. rewrite (merge_heads_run q B L n d) by done.
    eexists. split; [reflexivity|]. cbn [t3_d0 t3_d1 t3_d2 t3_at].
    do 3 (split; [done|]). intros b l f Hb Hl Hf.
    destruct (merge_offset L n d b l f Hl Hf) as (-> & -> & -> & ->). done.
Qed.

(** X26. Splitting a non-empty projection into heads and merging the heads
    again gives back the projection: same shape, same entries. *)
Theorem merge_heads_undoes_split_heads projected B L n d :
  t3_d0 projected = B → t3_d1 projected = L → t3_d2 projected = n * d →
  0 < B → 0 < L →
  ∃ t merged,
    split_heads projected B L n d = Done t ∧
    merge_heads t B L = Done merged ∧
    t3_d0 merged = B ∧ t3_d1 merged = L ∧ t3_d2 merged = n * d ∧
    ∀ b l f, b < B → l < L → f < n * d →
      t3_at merged b l f = t3_at projected b l f.
Proof.
  intros H0 H1 H2 HB HL.
  rewrite (split_heads_run projected B L n d) by done.
  eexists. eexists. split; [reflexivity|].
  rewrite (merge_heads_run _ B L n d) by done.
  split; [reflexivity|]. cbn [t3_d0 t3_d1 t3_d2 t3_at t4_at].
  do 3 (split; [done|]). intros b l f Hb Hl Hf.
  assert (Hd : d ≠ 0) by (intros ->; lia).
  assert (Hfd : f / d < n) by (apply Nat.Div0.div_lt_upper_bound; lia).
  assert (Hfm : f mod d < d) by (by apply Nat.mod_upper_bound).
  destruct (merge_offset L n d b l f Hl Hf) as (-> & -> & -> & ->).
  destruct (split_offset L n d b (f / d) l (f mod d) Hfd Hl Hfm)
    as (-> & -> & ->).
  f_equal. rewrite (Nat.div_mod_eq f d) at 3. lia.
Qed.

(** * The further properties on sample calls *)

Lemma mask_shape_witness :
  ∃ locals m,
    sample_forward 6 8 (Some two_marker_locations) false (Some false)
    = Ok locals ∧
    few_shot_mask_of locals = Some m ∧
    mask_shape 1 6 8 m.
Proof.
  eexists _, _. split; [reflexivity|]. split; [reflexivity|].
  exact (few_shot_mask_has_shape_of_text_and_slots
           sample_finfo_max sample_similarity sample_attend
           (sample_module (Some false)) (sample_x 6) (sample_media 8)
           (sample_media_mask 8) two_marker_locations false _ _
           eq_refl eq_refl).
Defined.

Lemma forward_returns_exactly_when_witness :
  ∃ locals,
    sample_forward 6 8 (Some two_marker_locations) false (Some false)
    = Ok locals.
Proof.
  apply (proj2 (forward_returns_exactly_when
                  sample_finfo_max sample_similarity sample_attend
                  (sample_module (Some false)) (sample_x 6) (sample_media 8)
                  (sample_media_mask 8) (Some two_marker_locations) false)).
  split; [right; eexists; split; reflexivity|].
  split; [reflexivity|]. split; [cbn; lia|]. split; [reflexivity|].
  split; [reflexivity|].
  intros ml [= <-] b Hb. assert (b = 0) as -> by (cbn in Hb; lia).
  split; [cbn; lia|]. exists 1. split; [cbn; lia | cbn; lia].
Defined.

Lemma forward_exception_witness :
  sample_forward 3 8 (Some no_marker_locations) false (Some false)
  = Raise IndexError ∧
  ∃ ml b, Some no_marker_locations = Some ml ∧ b < 1 ∧
          (t2_d0 ml ≤ b ∨ ¬ has_marker ml b).
Proof.
  split; [reflexivity|].
  destruct (forward_exception_has_one_of_four_causes
              sample_finfo_max sample_similarity sample_attend
              (sample_module (Some false)) (sample_x 3) (sample_media 8)
              (sample_media_mask 8) (Some no_marker_locations) false
              IndexError eq_refl)
    as [[H _]|[[H _]|[[H _]|(_ & _ & H)]]];
    [discriminate H | discriminate H | discriminate H | exact H].
Defined.

Lemma mask_grows_witness :
  ∃ locals m,
    sample_forward 6 8 (Some two_marker_locations) false (Some false)
    = Ok locals ∧
    few_shot_mask_of locals = Some m ∧
    mask_get m 0 1 1 = true ∧ mask_get m 0 4 0 = true.
Proof.
  eexists _, _. split; [reflexivity|]. split; [reflexivity|].
  split; [reflexivity|].
  apply (few_shot_mask_grows_along_text
           sample_finfo_max sample_similarity sample_attend
           (sample_module (Some false)) (sample_x 6) (sample_media 8)
           (sample_media_mask 8) two_marker_locations false _ _ 0 1 4 1 0
           eq_refl eq_refl).
  - vm_compute. reflexivity.
  - cbn. lia.
  - lia.
  - cbn. lia.
  - lia.
  - cbn. lia.
  - reflexivity.
Defined.

Lemma first_window_witness :
  ∃ locals m,
    sample_forward 6 8 (Some two_marker_locations) false (Some false)
    = Ok locals ∧
    few_shot_mask_of locals = Some m ∧
    (∀ s, s < 8 → (Z.of_nat s < 2)%Z → mask_get m 0 0 s = true) ∧
    mask_get m 0 0 0 = true.
Proof.
  eexists _, _. split; [reflexivity|]. split; [reflexivity|].
  destruct (every_position_attends_first_window
              sample_finfo_max sample_similarity sample_attend
              (sample_module (Some false)) (sample_x 6) (sample_media 8)
              (sample_media_mask 8) two_marker_locations false _ _ 0 0
              eq_refl eq_refl) as [Hwindow Hslot].
  - vm_compute. reflexivity.
  - cbn. lia.
  - cbn. lia.
  - split; [exact Hwindow|]. apply Hslot. cbn. lia.
Defined.

Lemma windows_without_marker_witness :
  ∃ locals m,
    sample_forward 6 8 (Some two_marker_locations) false (Some false)
    = Ok locals ∧
    few_shot_mask_of locals = Some m ∧
    count_markers (row_of two_marker_locations 0) = 2 ∧
    mask_get m 0 5 5 = false.
Proof.
  eexists _, _. split; [reflexivity|]. split; [reflexivity|].
  split; [reflexivity|].
  apply (windows_without_marker_are_never_attended
           sample_finfo_max sample_similarity sample_attend
           (sample_module (Some false)) (sample_x 6) (sample_media 8)
           (sample_media_mask 8) two_marker_locations false _ _ 0 5 5
           eq_refl eq_refl).
  - vm_compute. reflexivity.
  - cbn. lia.
  - cbn. lia.
  - cbn. lia.
  - vm_compute. discriminate.
Defined.

Lemma mask_row_is_slice_witness :
  ∃ locals m,
    sample_forward 6 8 (Some two_marker_locations) false (Some false)
    = Ok locals ∧
    few_shot_mask_of locals = Some m ∧
    mask_get m 0 4 3
    = in_slice 8 0
        ((Z.of_nat (last_marker_index (row_of two_marker_locations 0) 4) + 1)
         * 2) 3.
Proof.
  eexists _, _. split; [reflexivity|]. split; [reflexivity|].
  apply (few_shot_mask_row_is_slice_of_slots
           sample_finfo_max sample_similarity sample_attend
           (sample_module (Some false)) (sample_x 6) (sample_media 8)
           (sample_media_mask 8) two_marker_locations false _ _ 0 4 3
           eq_refl eq_refl).
  - cbn. lia.
  - cbn. lia.
  - cbn. lia.
Defined.

Lemma mask_row_of_item_witness :
  ∃ locals1 locals2 m1 m2,
    sample_forward 6 8 (Some two_marker_locations) false (Some false)
    = Ok locals1 ∧
    few_shot_mask_of locals1 = Some m1 ∧
    outcome
      (MaskedCrossAttention_forward sample_finfo_max sample_similarity
         sample_attend (other_x 6) (other_media 8) (other_media_mask 8)
         (Some two_marker_locations) true)
      other_module = Ok locals2 ∧
    few_shot_mask_of locals2 = Some m2 ∧
    ∀ t s, t < 6 → s < 8 → mask_get m1 0 t s = mask_get m2 0 t s.
Proof.
  eexists _, _, _, _. split; [reflexivity|]. split; [reflexivity|].
  split; [reflexivity|]. split; [reflexivity|].
  apply (few_shot_mask_row_depends_on_its_item_only
           sample_finfo_max sample_similarity sample_attend
           (sample_module (Some false)) other_module (sample_x 6) (other_x 6)
           (sample_media 8) (other_media 8) (sample_media_mask 8)
           (other_media_mask 8) two_marker_locations two_marker_locations
           false true _ _ _ _ 0 eq_refl eq_refl eq_refl eq_refl).
  - reflexivity.
  - reflexivity.
  - reflexivity.
  - cbn. lia.
  - cbn. lia.
  - reflexivity.
Defined.

Lemma immediate_media_loop_witness :
  ∃ m,
    outcome (build_few_shot_mask two_marker_locations 1 6 8)
      (sample_module (Some true)) = Ok m ∧
    mask_shape 1 6 8 m ∧
    ∀ b t s, b < 1 → t < 6 → s < 8 →
      mask_get m b t s = true
      ↔ (Z.of_nat (last_marker_index (row_of two_marker_locations b) t) * 2
         ≤ Z.of_nat s
         < (Z.of_nat (last_marker_index (row_of two_marker_locations b) t) + 1)
           * 2)%Z.
Proof.
  apply (immediate_media_loop_keeps_one_window
           (sample_module (Some true)) two_marker_locations 1 6 8).
  - reflexivity.
  - vm_compute. reflexivity.
  - intros b Hb. assert (b = 0) as -> by lia.
    split; [cbn; lia|]. exists 1. split; [cbn; lia | cbn; lia].
Defined.

Lemma cached_call_witness :
  ∃ locals,
    outcome
      (MaskedCrossAttention_forward sample_finfo_max sample_similarity
         sample_attend (sample_x 6) (sample_media 8) (other_media_mask 8)
         None true)
      (sample_module (Some false)) = Ok locals ∧
    few_shot_mask_of locals = None ∧
    ∀ b h t s,
      b < 1 → s < 8 →
      t4_at (sim_of locals) b h t s
      = if bool_decide (t3_at (other_media_mask 8) b s 0 ≠ 0%Z)
        then t4_at (sample_similarity (sample_module (Some false)) (sample_x 6)
                      (sample_media 8)) b h t s
        else Finite (- sample_finfo_max).
Proof.
  apply (cached_call_without_locations_masks_padding_only
           sample_finfo_max sample_similarity sample_attend
           (sample_module (Some false)) (sample_x 6) (sample_media 8)
           (other_media_mask 8)).
  - reflexivity.
  - cbn. lia.
  - reflexivity.
  - reflexivity.
  - reflexivity.
  - reflexivity.
  - reflexivity.
Defined.

Lemma default_block_witness :
  raises (sample_block_forward 6 8 (Some two_marker_locations) false None) ∧
  sample_block_forward 6 8 (Some two_marker_locations) false None
  = Raise AssertionError.
Proof.
  destruct (forward_of_default_block_always_raises
              sample_finfo_max sample_similarity sample_attend
              sample_feed_forward 4 4 2 64 8 4 None [] []
              (sample_x 6) (sample_media 8) (sample_media_mask 8)
              (Some two_marker_locations) false)
    as [Hraises Hassert].
  { left. reflexivity. }
  split; [exact Hraises|].
  apply Hassert; [right; eexists; reflexivity | lia].
Defined.

Lemma closed_attention_gate_witness :
  ∃ y,
    sample_block_forward 6 8 (Some two_marker_locations) false (Some false)
    = Ok y ∧
    (t3_d0 y, t3_d1 y, t3_d2 y) = (1, 6, 4) ∧
    ∀ b n d, t3_at y b n d = Finite (0 * tanh 0 + 0).
Proof.
  destruct (closed_attention_gate_leaves_feed_forward_residual
              sample_finfo_max sample_similarity sample_attend
              sample_feed_forward
              (GatedCrossAttentionBlock_init 4 4 2 64 8 4 (Some false) [] [])
              (sample_x 6) (sample_media 8) (sample_media_mask 8)
              (Some two_marker_locations) false _ eq_refl eq_refl)
    as (y & Hrun & Hshape & _ & Hfinite).
  { intros b n d. eexists. reflexivity. }
  exists y. split; [exact Hrun|]. split; [exact Hshape|].
  intros b n d. apply Hfinite; reflexivity.
Defined.

Lemma positional_encoding_init_witness :
  PositionalEncoding_init 4 0 = Fail (Builtin IndexError) ∧
  ∃ self,
    PositionalEncoding_init 4 3 = Done self ∧
    t3_d0 (pos_table self) = 1 ∧
    t3_d1 (pos_table self) = 3 ∧
    t3_d2 (pos_table self) = 4.
Proof.
  split.
  - apply (proj1 (positional_encoding_needs_a_position 4 0)). lia.
  - apply (proj2 (positional_encoding_needs_a_position 4 3)). lia.
Defined.

Lemma sinusoid_encoding_witness :
  ∃ self,
    PositionalEncoding_init 4 3 = Done self ∧
    t3_at (pos_table self) 0 2 2
    = sin (INR 2 / Rpower 10000 (INR 2 / INR 4)) ∧
    t3_at (pos_table self) 0 2 3
    = cos (INR 2 / Rpower 10000 (INR 2 / INR 4)).
Proof.
  eexists. split; [reflexivity|].
  destruct (pos_table_is_sinusoid_encoding 4 3 _ 2 1 eq_refl) as [Hsin Hcos].
  { lia. }
  split; [apply Hsin; lia | apply Hcos; lia].
Defined.

Lemma position_zero_witness :
  ∃ self,
    PositionalEncoding_init 4 3 = Done self ∧
    t3_at (pos_table self) 0 0 1 = 1%R.
Proof.
  eexists. split; [reflexivity|].
  apply (pos_table_at_position_zero 4 3 _ 1 eq_refl). lia.
Defined.

Lemma positional_forward_accepts_witness :
  ∃ self,
    PositionalEncoding_init 4 3 = Done self ∧
    (∃ y, PositionalEncoding_forward self (sample_sequence 3) = Done y) ∧
    PositionalEncoding_forward self (sample_sequence 5) = Fail RuntimeError.
Proof.
  eexists. split; [reflexivity|]. split.
  - apply (proj1 (positional_forward_accepts_exactly 4 3 _ (sample_sequence 3)
                    eq_refl)).
    split; [left; cbn; lia | left; reflexivity].
  - apply (proj2 (positional_forward_accepts_exactly 4 3 _ (sample_sequence 5)
                    eq_refl)).
    cbn. lia.
Defined.

Lemma positional_forward_adds_witness :
  ∃ self y,
    PositionalEncoding_init 4 3 = Done self ∧
    PositionalEncoding_forward self (sample_sequence 3) = Done y ∧
    t3_d0 y = 2 ∧ t3_d1 y = 3 ∧ t3_d2 y = 4 ∧
    ∀ b l j, b < 2 → l < 3 → j < 4 →
      t3_at y b l j
      = (t3_at (sample_sequence 3) b l j + t3_at (pos_table self) 0 l j)%R.
Proof.
  eexists.
  destruct (positional_forward_adds_table_entries 4 3 _ (sample_sequence 3)
              eq_refl) as (y & Hy);
    [cbn; lia | reflexivity |].
  exists y. split; [reflexivity | exact Hy].
Defined.

Lemma single_position_witness :
  ∃ self y,
    PositionalEncoding_init 4 1 = Done self ∧
    PositionalEncoding_forward self (sample_sequence 3) = Done y ∧
    t3_d0 y = 2 ∧ t3_d1 y = 3 ∧ t3_d2 y = 4 ∧
    ∀ b l j, b < 2 → l < 3 → j < 4 →
      t3_at y b l j
      = (t3_at (sample_sequence 3) b l j
         + if decide (j mod 2 = 0)%nat then 0 else 1)%R.
Proof.
  eexists.
  destruct (single_position_table_is_broadcast 4 _ (sample_sequence 3)
              eq_refl) as (y & Hy);
    [reflexivity |].
  exists y. split; [reflexivity | exact Hy].
Defined.

Lemma encoder_other_ranks_witness :
  TransformerEncoder_forward sample_dropout_values sample_layer_norm_values
    sample_EncoderLayer_forward sample_encoder (sample_src [4]) false
  = Fail ValueError.
Proof.
  apply (encoder_forward_rejects_other_ranks
           sample_dropout_values sample_layer_norm_values
           sample_EncoderLayer_forward sample_encoder (sample_src [4]) false).
  - cbn. lia.
  - cbn. lia.
Defined.

Lemma encoder_longer_than_table_witness :
  ∃ self,
    TransformerEncoder_init 4 2 1 4 4 4 8 0 3 true (fun _ => []) []
    = Done self ∧
    TransformerEncoder_forward sample_dropout_values sample_layer_norm_values
      sample_EncoderLayer_forward self (sample_src [1; 5; 4]) false
    = Fail RuntimeError.
Proof.
  destruct (encoder_built 4 2 1 4 4 4 8 0 3 true (fun _ => []) [])
    as [self Hself].
  { split; [apply Rle_refl | apply Rle_0_1]. }
  exists self. split; [exact Hself|].
  apply (encoder_forward_rejects_sequences_longer_than_table
           sample_dropout_values sample_layer_norm_values
           sample_EncoderLayer_forward 4 2 1 4 4 4 8 0 3 true (fun _ => []) []
           self (sample_src [1; 5; 4]) false 1 5 4 Hself).
  - lia.
  - reflexivity.
  - cbn. lia.
Defined.

Lemma encoder_sizes_witness :
  ∃ self,
    TransformerEncoder_init 4 2 1 4 4 8 8 0 3 true (fun _ => []) []
    = Done self ∧
    ∀ src flag, ∃ e,
      TransformerEncoder_forward sample_dropout_values
        sample_layer_norm_values sample_EncoderLayer_forward self src flag
      = Fail e.
Proof.
  destruct (encoder_built 4 2 1 4 4 8 8 0 3 true (fun _ => []) [])
    as [self Hself].
  { split; [apply Rle_refl | apply Rle_0_1]. }
  exists self. split; [exact Hself|].
  apply (encoder_needs_equal_word_and_model_sizes
           sample_dropout_values sample_layer_norm_values
           sample_EncoderLayer_forward 4 2 1 4 4 8 8 0 3 true (fun _ => []) []
           self Hself).
  - lia.
  - lia.
  - lia.
Defined.

Lemma encoder_attention_maps_witness :
  ∃ out attns,
    TransformerEncoder_forward sample_dropout_values sample_layer_norm_values
      sample_EncoderLayer_forward sample_encoder (sample_src [1; 5; 4]) true
    = Done (WithAttns out attns) ∧
    length attns = 2.
Proof.
  destruct (encoder_returns_one_attention_map_per_layer
              sample_dropout_values sample_layer_norm_values
              sample_EncoderLayer_forward 4 2 1 4 4 4 8 0 0 true
              (fun _ => []) [] sample_encoder (sample_src [1; 5; 4]) true _
              sample_encoder_built eq_refl)
    as (out & attns & Hr & Hlen).
  exists out, attns. split; [|exact Hlen]. rewrite <- Hr. reflexivity.
Defined.

Lemma split_heads_witness :
  ∃ t,
    split_heads (sample_sequence 3) 2 3 2 2 = Done t ∧
    t4_d0 t = 2 ∧ t4_d1 t = 2 ∧ t4_d2 t = 3 ∧ t4_d3 t = 2 ∧
    ∀ b h l j, b < 2 → h < 2 → l < 3 → j < 2 →
      t4_at t b h l j = t3_at (sample_sequence 3) b l (h * 2 + j).
Proof.
  apply (split_heads_takes_consecutive_features (sample_sequence 3) 2 3 2 2);
    reflexivity.
Defined.

Lemma merge_heads_witness :
  merge_heads (sample_heads 0) 0 3 = Fail RuntimeError ∧
  ∃ t,
    merge_heads (sample_heads 2) 2 3 = Done t ∧
    t3_d0 t = 2 ∧ t3_d1 t = 3 ∧ t3_d2 t = 2 * 2 ∧
    ∀ b l f, b < 2 → l < 3 → f < 2 * 2 →
      t3_at t b l f = t4_at (sample_heads 2) b (f / 2) l (f mod 2).
Proof.
  split.
  - apply (proj1 (merge_heads_concatenates_heads (sample_heads 0) 0 3 2 2
                    eq_refl eq_refl eq_refl eq_refl)).
    left. reflexivity.
  - apply (proj2 (merge_heads_concatenates_heads (sample_heads 2) 2 3 2 2
                    eq_refl eq_refl eq_refl eq_refl)); lia.
Defined.

Lemma merge_undoes_split_witness :
  ∃ t merged,
    split_heads (sample_sequence 3) 2 3 2 2 = Done t ∧
    merge_heads t 2 3 = Done merged ∧
    t3_d0 merged = 2 ∧ t3_d1 merged = 3 ∧ t3_d2 merged = 2 * 2 ∧
    ∀ b l f, b < 2 → l < 3 → f < 2 * 2 →
      t3_at merged b l f = t3_at (sample_sequence 3) b l f.
Proof.
  apply (merge_heads_undoes_split_heads (sample_sequence 3) 2 3 2 2);
    first [reflexivity | lia].
Defined.

Lemma non_finite_leak_witness :
  ∃ y,
    outcome
      (GatedCrossAttentionBlock_forward sample_finfo_max sample_similarity
         inf_attend sample_feed_forward (sample_x 6) (sample_media 8)
         (sample_media_mask 8) (Some two_marker_locations) false)
      (GatedCrossAttentionBlock_init 4 4 2 64 8 4 (Some false) [] []) = Ok y ∧
    t3_at y 0 0 0 = NaN.
Proof.
  eapply (non_finite_attention_output_leaks_through_closed_gate
            sample_finfo_max sample_similarity inf_attend sample_feed_forward
            (GatedCrossAttentionBlock_init 4 4 2 64 8 4 (Some false) [] [])
            (sample_x 6) (sample_media 8) (sample_media_mask 8)
            (Some two_marker_locations) false _ 0 0 0).
  - reflexivity.
  - reflexivity.
  - intros [r Hr]. discriminate Hr.
Defined.
